(** * PRism review core: diff parsing, risk scoring and review decoding

    A shallow embedding of the TypeScript sources
    [core/diffEngine.ts], [core/riskAnalyzer.ts], [core/reviewEngine.ts]
    and [core/deepAnalysisEngine.ts], together with the fragment of the
    ECMAScript runtime they rely on (strings of UTF-16 code units, regular
    expressions, [JSON.parse], number coercion).

    Conventions.
    - Strings are lists of code units; the patterns of the source are
      values of [regex], run by a backtracking matcher.
    - Numbers are NaN, the infinities and finite values kept as the
      exact rationals they denote; the results of [parseInt] and of
      arithmetic are rounded to binary64, and a template literal prints
      a Number as [Number::toString] does.  Lengths of arrays and the
      scores computed from them stay far below 2^53 and are kept as
      integers.
    - A function that may throw returns [Exc]; an [async] function is its
      body run in order, a rejected promise being a [Throw].  A thrown
      value is any value, not only an [Error].
    - The backend is a record of functions over a state of its own. *)

From Stdlib Require Import Ascii String DecimalString.
From Stdlib Require Import List Bool Arith NArith ZArith QArith Lia.
From Stdlib Require Import Sorting.Sorted Sorting.Permutation.
Import ListNotations.
Close Scope Q_scope.

Set Implicit Arguments.
#[local] Set Warnings "-register-all,-abstract-large-number".

(* ===================================================================== *)
(** ** JavaScript strings *)
(* ===================================================================== *)

(** A JavaScript string is a finite sequence of UTF-16 code units.  The
    regular expressions of the program are compiled without the [u] flag,
    so they too see code units. *)
Definition cu := N.
Definition jsstring := list cu.

(** ASCII literals of the source are written with [lit]. *)
Definition lit (s : string) : jsstring :=
  List.map N_of_ascii (list_ascii_of_string s).
Arguments lit s%_string.

Definition cu_eqb (a b : cu) : bool := N.eqb a b.

Fixpoint str_eqb (a b : jsstring) : bool :=
  match a, b with
  | [], [] => true
  | x :: a', y :: b' => cu_eqb x y && str_eqb a' b'
  | _, _ => false
  end.

(** ECMAScript LineTerminator: LF, CR, LS (U+2028), PS (U+2029). *)
Definition is_line_terminator (c : cu) : bool :=
  ((c =? 10) || (c =? 13) || (c =? 8232) || (c =? 8233))%N.

(** ECMAScript WhiteSpace and LineTerminator: the class [\s] and the set
    removed by [String.prototype.trim]. *)
Definition is_space (c : cu) : bool :=
  ((c =? 9) || (c =? 10) || (c =? 11) || (c =? 12) || (c =? 13) || (c =? 32)
   || (c =? 160) || (c =? 5760) || ((8192 <=? c) && (c <=? 8202))
   || (c =? 8232) || (c =? 8233) || (c =? 8239) || (c =? 8287)
   || (c =? 12288) || (c =? 65279))%N.

Definition is_digit (c : cu) : bool := ((48 <=? c) && (c <=? 57))%N.

(** The class [\w]: [A-Za-z0-9_]. *)
Definition is_word (c : cu) : bool :=
  (((65 <=? c) && (c <=? 90)) || ((97 <=? c) && (c <=? 122))
   || is_digit c || (c =? 95))%N.

(** Canonicalize of the [i] flag (no [u] flag): the upper-case mapping of a
    single code unit, where a code unit outside ASCII never maps into ASCII.
    All case-insensitive patterns of the program are ASCII, so the ASCII
    part of the mapping decides every comparison. *)
Definition canonicalize (c : cu) : cu :=
  if ((97 <=? c) && (c <=? 122))%N then (c - 32)%N else c.

(** [String.prototype.startsWith]. *)
Fixpoint startsWith (s p : jsstring) : bool :=
  match p, s with
  | [], _ => true
  | y :: p', x :: s' => cu_eqb x y && startsWith s' p'
  | _ :: _, [] => false
  end.

(** [String.prototype.trim]. *)
Fixpoint trimStart (s : jsstring) : jsstring :=
  match s with
  | c :: s' => if is_space c then trimStart s' else s
  | [] => []
  end.

Definition trimEnd (s : jsstring) : jsstring := rev (trimStart (rev s)).

Definition trim (s : jsstring) : jsstring := trimEnd (trimStart s).

(** [String.prototype.slice(0, n)]. *)
Definition slice0 (n : nat) (s : jsstring) : jsstring := firstn n s.

(** [s.split('\n')]: the pieces between line feeds; never the empty list. *)
Fixpoint split_nl_aux (cur : jsstring) (s : jsstring) : list jsstring :=
  match s with
  | [] => [rev cur]
  | c :: s' =>
      if (c =? 10)%N then rev cur :: split_nl_aux [] s'
      else split_nl_aux (c :: cur) s'
  end.

Definition split_nl (s : jsstring) : list jsstring := split_nl_aux [] s.

(** [Array.prototype.join(sep)] on an array of strings. *)
Fixpoint join (sep : jsstring) (l : list jsstring) : jsstring :=
  match l with
  | [] => []
  | [x] => x
  | x :: l' => x ++ sep ++ join sep l'
  end.

Definition nl : jsstring := [10%N].

(** A literal in which every apostrophe stands for a quotation mark, for
    writing JSON texts. *)
Definition qlit (s : string) : jsstring :=
  List.map (fun c => if (c =? 39)%N then 34%N else c) (lit s).
Arguments qlit s%_string.

(** The decimal digits of an integer.  A template literal prints a
    length or a count of array elements in this way; Numbers of other
    origins are printed by [Number_toString]. *)
Definition Z_to_str (z : Z) : jsstring :=
  lit (NilZero.string_of_int (Z.to_int z)).

Definition nat_to_str (n : nat) : jsstring := Z_to_str (Z.of_nat n).

(** The value of a run of decimal digits ([parseInt(ds, 10)] on [\d+]). *)
Definition digits_value (ds : jsstring) : N :=
  fold_left (fun acc d => (acc * 10 + (d - 48))%N) ds 0%N.

(* ===================================================================== *)
(** ** Regular expressions *)
(* ===================================================================== *)

(** The fragment of ECMAScript regular expressions used by the program,
    with the backtracking semantics of the language: alternatives are tried
    left to right, quantifiers are greedy, the first successful path wins. *)
Inductive regex : Type :=
| rEps
| rChr (c : cu)
| rSet (p : cu -> bool)
| rBol
| rEol
| rWordB
| rSeq (r1 r2 : regex)
| rAlt (r1 r2 : regex)
| rStar (r : regex)
| rGrp (i : nat) (r : regex).

Definition rOpt (r : regex) : regex := rAlt r rEps.
Definition rPlus (r : regex) : regex := rSeq r (rStar r).

Fixpoint rStr (s : jsstring) : regex :=
  match s with
  | [] => rEps
  | [c] => rChr c
  | c :: s' => rSeq (rChr c) (rStr s')
  end.

Definition rLit (s : string) : regex := rStr (lit s).
Arguments rLit s%_string.

Fixpoint rAlts (l : list regex) : regex :=
  match l with
  | [] => rSet (fun _ => false)
  | [r] => r
  | r :: l' => rAlt r (rAlts l')
  end.

Fixpoint rSeqs (l : list regex) : regex :=
  match l with
  | [] => rEps
  | [r] => r
  | r :: l' => rSeq r (rSeqs l')
  end.

Definition rDigit : regex := rSet is_digit.
Definition rSpace : regex := rSet is_space.
(** [.] without the [s] flag. *)
Definition rDot : regex := rSet (fun c => negb (is_line_terminator c)).

Record flags : Type := mkFlags { ignoreCase : bool; multiline : bool }.

Definition noFlags : flags := mkFlags false false.
Definition flag_m : flags := mkFlags false true.
Definition flag_i : flags := mkFlags true false.

(** The matcher state: the code unit before the current position (for [^]
    and [\b]), the input still to be read, and the captures made so far. *)
Record mstate : Type := mkState {
  prev : option cu;
  rest : jsstring;
  caps : list (nat * jsstring)
}.

Definition chr_matches (fl : flags) (c x : cu) : bool :=
  if ignoreCase fl then cu_eqb (canonicalize c) (canonicalize x)
  else cu_eqb c x.

Definition at_bol (fl : flags) (st : mstate) : bool :=
  match prev st with
  | None => true
  | Some c => multiline fl && is_line_terminator c
  end.

Definition at_eol (fl : flags) (st : mstate) : bool :=
  match rest st with
  | [] => true
  | c :: _ => multiline fl && is_line_terminator c
  end.

Definition opt_is_word (o : option cu) : bool :=
  match o with Some c => is_word c | None => false end.

Definition at_wordb (st : mstate) : bool :=
  xorb (opt_is_word (prev st)) (opt_is_word (hd_error (rest st))).

Definition step_chr (ok : cu -> bool) (st : mstate)
    (k : mstate -> option mstate) : option mstate :=
  match rest st with
  | x :: xs => if ok x then k (mkState (Some x) xs (caps st)) else None
  | [] => None
  end.

(** The text consumed between two states of one match. *)
Definition consumed (st st' : mstate) : jsstring :=
  firstn (length (rest st) - length (rest st')) (rest st).

Fixpoint rmatch (fl : flags) (r : regex) (st : mstate)
    (k : mstate -> option mstate) {struct r} : option mstate :=
  match r with
  | rEps => k st
  | rChr c => step_chr (chr_matches fl c) st k
  | rSet p => step_chr p st k
  | rBol => if at_bol fl st then k st else None
  | rEol => if at_eol fl st then k st else None
  | rWordB => if at_wordb st then k st else None
  | rSeq r1 r2 => rmatch fl r1 st (fun st' => rmatch fl r2 st' k)
  | rAlt r1 r2 =>
      match rmatch fl r1 st k with
      | Some res => Some res
      | None => rmatch fl r2 st k
      end
  | rStar r1 =>
      (fix star (fuel : nat) (st0 : mstate) {struct fuel} : option mstate :=
         match fuel with
         | O => k st0
         | S fuel' =>
             match
               rmatch fl r1 st0
                 (fun st' =>
                    (* an iteration that consumes nothing fails *)
                    if length (rest st') <? length (rest st0)
                    then star fuel' st'
                    else None)
             with
             | Some res => Some res
             | None => k st0
             end
         end) (length (rest st)) st
  | rGrp i r1 =>
      rmatch fl r1 st
        (fun st' => k (mkState (prev st') (rest st')
                               ((i, consumed st st') :: caps st')))
  end.

(** One attempt at the current position. *)
Definition match_here (fl : flags) (r : regex) (p : option cu)
    (s : jsstring) : option mstate :=
  rmatch fl r (mkState p s []) Some.

(** The leftmost match at or after the current position: the text skipped
    before it and the state at its end. *)
Fixpoint rsearch (fl : flags) (r : regex) (skipped : jsstring)
    (p : option cu) (s : jsstring) : option (jsstring * mstate) :=
  match match_here fl r p s with
  | Some st => Some (rev skipped, st)
  | None =>
      match s with
      | [] => None
      | x :: xs => rsearch fl r (x :: skipped) (Some x) xs
      end
  end.

(** [RegExp.prototype.test] on a regular expression without [g]. *)
Definition test (fl : flags) (r : regex) (s : jsstring) : bool :=
  match rsearch fl r [] None s with Some _ => true | None => false end.

(** [s.match(re)] without [g]: the captures of the leftmost match. *)
Definition re_match (fl : flags) (r : regex) (s : jsstring)
    : option (list (nat * jsstring)) :=
  match rsearch fl r [] None s with
  | Some (_, st) => Some (caps st)
  | None => None
  end.

Fixpoint capture (i : nat) (cs : list (nat * jsstring)) : option jsstring :=
  match cs with
  | [] => None
  | (j, s) :: cs' => if Nat.eqb i j then Some s else capture i cs'
  end.

(** [s.replace(re, '')] without [g]: the leftmost match is removed. *)
Definition replace_first (fl : flags) (r : regex) (s : jsstring) : jsstring :=
  match rsearch fl r [] None s with
  | Some (before, st) => before ++ rest st
  | None => s
  end.

(** [(s.match(re_g) ?? []).length] for a pattern that cannot match the
    empty string: matches are taken left to right, each search resuming
    where the previous match ended. *)
Fixpoint count_matches_from (fuel : nat) (fl : flags) (r : regex)
    (p : option cu) (s : jsstring) : nat :=
  match fuel with
  | O => 0
  | S fuel' =>
      match rsearch fl r [] p s with
      | Some (_, st) =>
          if length (rest st) <? length s
          then S (count_matches_from fuel' fl r (prev st) (rest st))
          else 0
      | None => 0
      end
  end.

Definition count_matches (fl : flags) (r : regex) (s : jsstring) : nat :=
  count_matches_from (length s) fl r None s.

(** [s.split(re)] for a pattern without groups that cannot match the empty
    string, on a non-empty [s]: the pieces between successive matches. *)
Fixpoint split_re_from (fuel : nat) (fl : flags) (r : regex)
    (p : option cu) (s : jsstring) : list jsstring :=
  match fuel with
  | O => [s]
  | S fuel' =>
      match rsearch fl r [] p s with
      | Some (before, st) =>
          if length (rest st) <? length s
          then before :: split_re_from fuel' fl r (prev st) (rest st)
          else [s]
      | None => [s]
      end
  end.

Definition split_re (fl : flags) (r : regex) (s : jsstring) : list jsstring :=
  split_re_from (length s) fl r None s.

(* ===================================================================== *)
(** ** JavaScript values, exceptions and numbers *)
(* ===================================================================== *)

(** A Number.  Finite values are kept as exact rationals.  The value of
    a numeric literal is kept unrounded: rounding to binary64 is monotone
    and leaves 0, 50 and 100 fixed, so it commutes with the comparisons
    and clamps performed on parsed values.  The results of [parseInt] and
    of additions are rounded by [binary64]. *)
Inductive JsNum : Type :=
| NaN
| PosInf
| NegInf
| Fin (q : Q).
Arguments Fin q%_Q.

Definition Qltb (a b : Q) : bool := negb (Qle_bool b a).

Definition num_of_Z (z : Z) : JsNum := Fin (inject_Z z).

(** The Number of a length; lengths are exact. *)
Definition num_of_nat (n : nat) : JsNum := num_of_Z (Z.of_nat n).

(** *** binary64 arithmetic *)

(** [a / b] rounded to the nearest integer, a tie going to the even one
    ([0 <= a], [0 < b]). *)
Definition div_half_even (a b : Z) : Z :=
  let q := (a / b)%Z in
  match (2 * (a mod b) ?= b)%Z with
  | Lt => q
  | Gt => (q + 1)%Z
  | Eq => if Z.even q then q else (q + 1)%Z
  end.

(** The floor of the binary logarithm of [num / den], both positive. *)
Definition log2_floor (num den : Z) : Z :=
  let l := (Z.log2 num - Z.log2 den)%Z in
  if (if 0 <=? l then den * 2 ^ l <=? num else den <=? num * 2 ^ (- l))%Z
  then l else (l - 1)%Z.

(** The binary64 value nearest to [num / den], both positive: a
    significand [m] of at most 53 bits times [2^e] with [e] not below
    -1074, ties to the even significand, Infinity from 2^1024 on. *)
Definition binary64_pos (num den : Z) : JsNum :=
  let e := Z.max (log2_floor num den - 52) (-1074) in
  let m :=
    if (0 <=? e)%Z then div_half_even num (den * 2 ^ e)
    else div_half_even (num * 2 ^ (- e)) den in
  if ((971 <? e) || ((e =? 971) && (2 ^ 53 <=? m)))%Z then PosInf
  else if (0 <=? e)%Z then Fin (inject_Z (m * 2 ^ e))
  else Fin (Qred (Qmake m (Z.to_pos (2 ^ (- e))))).

Definition num_neg (n : JsNum) : JsNum :=
  match n with
  | NaN => NaN
  | PosInf => NegInf
  | NegInf => PosInf
  | Fin q => Fin (Qred (- q))
  end.

(** The Number value for a real: round to nearest, ties to even.  The
    two zeros are not told apart: no operation of the program does. *)
Definition binary64 (q : Q) : JsNum :=
  match Qnum q with
  | Z0 => Fin 0
  | Zpos n => binary64_pos (Zpos n) (Zpos (Qden q))
  | Zneg n => num_neg (binary64_pos (Zpos n) (Zpos (Qden q)))
  end.

(** [a + b] and [a - b] on Numbers. *)
Definition num_add (a b : JsNum) : JsNum :=
  match a, b with
  | NaN, _ | _, NaN => NaN
  | PosInf, NegInf | NegInf, PosInf => NaN
  | PosInf, _ | _, PosInf => PosInf
  | NegInf, _ | _, NegInf => NegInf
  | Fin p, Fin q => binary64 (p + q)
  end.

Definition num_sub (a b : JsNum) : JsNum := num_add a (num_neg b).

(** [a > b] on Numbers. *)
Definition num_gtb (a b : JsNum) : bool :=
  match a, b with
  | NaN, _ | _, NaN => false
  | PosInf, PosInf => false
  | PosInf, _ => true
  | _, PosInf => false
  | NegInf, _ => false
  | _, NegInf => true
  | Fin p, Fin q => Qltb q p
  end.

(** Two Numbers are the same value. *)
Definition num_eqb (a b : JsNum) : bool :=
  match a, b with
  | Fin p, Fin q => Qeq_bool p q
  | PosInf, PosInf | NegInf, NegInf => true
  | _, _ => false
  end.

(** *** [Number::toString] *)

(** [s * 10^d] *)
Definition scale10 (s d : Z) : Q :=
  if (0 <=? d)%Z then inject_Z (s * 10 ^ d)
  else Qmake s (Z.to_pos (10 ^ (- d))).

(** The decimal exponent [n] of a positive rational [a]:
    [10^(n-1) <= a < 10^n].  The search starts from an estimate that is
    at most two below. *)
Fixpoint dec_exp_from (fuel : nat) (a : Q) (n : Z) : Z :=
  match fuel with
  | O => n
  | S fuel' =>
      if Qltb a (scale10 1 n) then n else dec_exp_from fuel' a (n + 1)%Z
  end.

Definition dec_exp (a : Q) : Z :=
  let l := log2_floor (Qnum a) (Zpos (Qden a)) in
  dec_exp_from 4 a (l * 30103 / 100000)%Z.

Definition floorQ (q : Q) : Z := (Qnum q / Zpos (Qden q))%Z.

(** The [k]-digit decimal for the positive binary64 value [a] of decimal
    exponent [n0], if there is one: the digits [s] and the exponent [n]
    with [s * 10^(n-k)] rounding to [a], the closer of the two [k]-digit
    neighbours of [a] when both do, the even one when they are equally
    close. *)
Definition digits_k (a : Q) (n0 k : Z) : option (Z * Z) :=
  let scaled := (a * scale10 1 (k - n0))%Q in
  let lo := floorQ scaled in
  let hi :=
    if (lo + 1 =? 10 ^ k)%Z then ((10 ^ (k - 1))%Z, (n0 + 1)%Z)
    else ((lo + 1)%Z, n0) in
  let ok (c : Z * Z) :=
    num_eqb (binary64 (scale10 (fst c) (snd c - k))) (Fin a) in
  match ok (lo, n0), ok hi with
  | true, true =>
      match Qcompare (scaled - inject_Z lo) (inject_Z (lo + 1) - scaled) with
      | Lt => Some (lo, n0)
      | Gt => Some hi
      | Eq => if Z.even lo then Some (lo, n0) else Some hi
      end
  | true, false => Some (lo, n0)
  | false, true => Some hi
  | false, false => None
  end.

(** The shortest such decimal: [k] is as small as possible (17 digits
    always suffice). *)
Fixpoint shortest (fuel : nat) (a : Q) (n0 k : Z) : Z * Z * Z :=
  match fuel with
  | O => (floorQ (a * scale10 1 (k - n0)), n0, k)
  | S fuel' =>
      match digits_k a n0 k with
      | Some (s, n) => (s, n, k)
      | None => shortest fuel' a n0 (k + 1)%Z
      end
  end.

Definition zeros (n : Z) : jsstring := repeat 48%N (Z.to_nat n).

(** The text for the digits [s], [k] of them, and the exponent [n]:
    plain digits up to 21 integer digits, a decimal point, leading
    zeros down to 1e-6, the exponent notation beyond. *)
Definition format_number (s n k : Z) : jsstring :=
  let ds := Z_to_str s in
  if ((k <=? n) && (n <=? 21))%Z then ds ++ zeros (n - k)
  else if ((0 <? n) && (n <=? 21))%Z
  then firstn (Z.to_nat n) ds ++ lit "." ++ skipn (Z.to_nat n) ds
  else if ((-6 <? n) && (n <=? 0))%Z then lit "0." ++ zeros (- n) ++ ds
  else
    let e := (n - 1)%Z in
    let sign := if (0 <? e)%Z then lit "+" else lit "-" in
    if (k =? 1)%Z then ds ++ lit "e" ++ sign ++ Z_to_str (Z.abs e)
    else firstn 1 ds ++ lit "." ++ skipn 1 ds ++ lit "e" ++ sign
         ++ Z_to_str (Z.abs e).

(** [Number::toString(x)] in radix 10: what a template literal prints
    for a Number. *)
Definition Number_toString (x : JsNum) : jsstring :=
  match x with
  | NaN => lit "NaN"
  | PosInf => lit "Infinity"
  | NegInf => lit "-Infinity"
  | Fin q =>
      match binary64 q with
      | Fin v =>
          if Qeq_bool v 0 then lit "0"
          else
            let a := Qmake (Z.abs (Qnum v)) (Qden v) in
            let '(s, n, k) := shortest 17 a (dec_exp a) 1 in
            (if Qltb v 0 then lit "-" else []) ++ format_number s n k
      | PosInf => lit "Infinity"
      | NegInf => lit "-Infinity"
      | NaN => lit "NaN"
      end
  end.

(** The values [JSON.parse] can produce, and [undefined]. *)
Inductive JsValue : Type :=
| JUndefined
| JNull
| JBool (b : bool)
| JNum (n : JsNum)
| JStr (s : jsstring)
| JArr (elems : list JsValue)
| JObj (fields : list (jsstring * JsValue)).

(** An [Error] object; only its [message] is ever read. *)
Record JsError : Type := mkError { message : jsstring }.

Definition TypeError : JsError := mkError (lit "TypeError").
Definition SyntaxError : JsError := mkError (lit "SyntaxError").

(** A thrown value.  The runtime throws [Error] objects; a callee that
    the program does not control (the backend) may throw or reject with
    any value: [null], [undefined], a string, an object. *)
Inductive JsThrown : Type :=
| AnError (e : JsError)
| AValue (v : JsValue).

Coercion AnError : JsError >-> JsThrown.

(** A computation that returns normally or throws. *)
Inductive Exc (A : Type) : Type :=
| Ret (a : A)
| Throw (e : JsThrown).
Arguments Ret {A} a.
Arguments Throw {A} e.

Definition bind {A B : Type} (m : Exc A) (f : A -> Exc B) : Exc B :=
  match m with
  | Ret a => f a
  | Throw e => Throw e
  end.

(** [try { m } catch (e) { h e }]. *)
Definition try_catch {A : Type} (m : Exc A) (h : JsThrown -> Exc A) : Exc A :=
  match m with
  | Ret a => Ret a
  | Throw e => h e
  end.

Declare Scope exc_scope.
Delimit Scope exc_scope with exc.
Notation "x <- m ;; k" := (bind m (fun x => k))
  (at level 61, m at next level, right associativity) : exc_scope.

Fixpoint mapM {A B : Type} (f : A -> Exc B) (l : list A) : Exc (list B) :=
  match l with
  | [] => Ret []
  | x :: l' =>
      bind (f x) (fun y => bind (mapM f l') (fun ys => Ret (y :: ys)))
  end.


(** Own-property lookup in an object built by [JSON.parse]: of duplicate
    keys the last one wins. *)
Fixpoint lookup (k : jsstring) (fs : list (jsstring * JsValue))
    : option JsValue :=
  match fs with
  | [] => None
  | (k', v) :: fs' =>
      match lookup k fs' with
      | Some w => Some w
      | None => if str_eqb k k' then Some v else None
      end
  end.

(** Property read [v.k] for the property names this program reads
    ([summary], [riskLevel], [suggestions], [score], ...): none of them is
    defined on a built-in prototype, so the read yields an own property of
    an object and [undefined] otherwise; on [null] and [undefined] it
    throws a TypeError. *)
Definition get (v : JsValue) (k : jsstring) : Exc JsValue :=
  match v with
  | JUndefined | JNull => Throw TypeError
  | JObj fs =>
      match lookup k fs with
      | Some w => Ret w
      | None => Ret JUndefined
      end
  | _ => Ret JUndefined
  end.

(** The nullish coalescing operator [v ?? d]. *)
Definition nullish (v d : JsValue) : JsValue :=
  match v with
  | JUndefined | JNull => d
  | _ => v
  end.

(** *** Numeric literals *)

Fixpoint span (p : cu -> bool) (s : jsstring) : jsstring * jsstring :=
  match s with
  | c :: s' =>
      if p c then let (a, b) := span p s' in (c :: a, b) else ([], s)
  | [] => ([], [])
  end.

(** The value of [ip.fp e(+|-)ep] with an optional minus sign. *)
Definition decimal_value (neg : bool) (ip fp : jsstring) (eneg : bool)
    (ep : jsstring) : Q :=
  let m := Z.of_N (digits_value (ip ++ fp)) in
  let e := Z.of_N (digits_value ep) in
  let e := ((if eneg then - e else e) - Z.of_nat (length fp))%Z in
  Qred (inject_Z (if neg then - m else m) * Qpower (inject_Z 10) e).

Definition is_exp_mark (c : cu) : bool := ((c =? 101) || (c =? 69))%N.

(** An optional ExponentPart: its sign and digits, and the input after it.
    [None] when an exponent mark is not followed by digits. *)
Definition exponent_part (s : jsstring)
    : option (bool * jsstring * jsstring) :=
  match s with
  | c :: s1 =>
      if is_exp_mark c then
        let '(eneg, s2) :=
          match s1 with
          | d :: s2 =>
              if (d =? 45)%N then (true, s2)
              else if (d =? 43)%N then (false, s2) else (false, s1)
          | [] => (false, s1)
          end in
        let (ep, s3) := span is_digit s2 in
        match ep with
        | [] => None
        | _ => Some (eneg, ep, s3)
        end
      else Some (false, [], s)
  | [] => Some (false, [], s)
  end.

Definition is_hex (c : cu) : bool :=
  (is_digit c || ((65 <=? c) && (c <=? 70)) || ((97 <=? c) && (c <=? 102)))%N.

Definition hex_val (c : cu) : N :=
  if is_digit c then (c - 48)%N
  else if (c <=? 70)%N then (c - 55)%N else (c - 87)%N.

Definition radix_value (radix : N) (ds : jsstring) : N :=
  fold_left (fun acc d => (acc * radix + hex_val d)%N) ds 0%N.

Definition radix_literal (radix : N) (ds : jsstring) : JsNum :=
  match ds with
  | [] => NaN
  | _ =>
      if forallb (fun d => is_hex d && (hex_val d <? radix)%N) ds
      then Fin (inject_Z (Z.of_N (radix_value radix ds)))
      else NaN
  end.

(** StrDecimalLiteral after its sign. *)
Definition str_decimal (neg : bool) (s : jsstring) : JsNum :=
  if str_eqb s (lit "Infinity") then (if neg then NegInf else PosInf)
  else
    let (ip, s1) := span is_digit s in
    let '(dot, fp, s2) :=
      match s1 with
      | c :: s1' =>
          if (c =? 46)%N
          then let (fp, s2) := span is_digit s1' in (true, fp, s2)
          else (false, [], s1)
      | [] => (false, [], s1)
      end in
    match ip ++ fp with
    | [] => NaN
    | _ =>
        match exponent_part s2 with
        | Some (eneg, ep, []) => Fin (decimal_value neg ip fp eneg ep)
        | _ => NaN
        end
    end.

(** StringToNumber: the Number denoted by a string (leading and trailing
    white space ignored, the empty string is 0). *)
Definition StringToNumber (s : jsstring) : JsNum :=
  match trim s with
  | [] => Fin 0
  | c :: t =>
      if (c =? 45)%N then str_decimal true t
      else if (c =? 43)%N then str_decimal false t
      else
        match c, t with
        | 48%N, x :: ds =>
            if ((x =? 120) || (x =? 88))%N then radix_literal 16 ds
            else if ((x =? 111) || (x =? 79))%N then radix_literal 8 ds
            else if ((x =? 98) || (x =? 66))%N then radix_literal 2 ds
            else str_decimal false (c :: t)
        | _, _ => str_decimal false (c :: t)
        end
  end.

Definition has_key (k : jsstring) (fs : list (jsstring * JsValue)) : bool :=
  existsb (fun kv => str_eqb k (fst kv)) fs.

(** Whether converting a parsed value to a string throws: an object whose
    own [toString] (never callable in parsed JSON) hides the inherited one
    has no primitive value; an array converts by joining its elements. *)
Fixpoint toString_throws (v : JsValue) : bool :=
  match v with
  | JObj fs => has_key (lit "toString") fs
  | JArr l => existsb toString_throws l
  | _ => false
  end.

(** ToNumber on a parsed value.  An object without an own [toString]
    prints as [[object Object]], which is not numeric.  An array prints as
    the comma-separated join of its elements ([null] printing as the empty
    string): two or more elements contain a comma and denote no number; a
    single element denotes whatever its own string denotes, which for a
    Number is that Number itself. *)
Fixpoint ToNumber (v : JsValue) : Exc JsNum :=
  match v with
  | JUndefined => Ret NaN
  | JNull => Ret (Fin 0)
  | JBool b => Ret (Fin (if b then 1 else 0))
  | JNum n => Ret n
  | JStr s => Ret (StringToNumber s)
  | JObj fs => if has_key (lit "toString") fs then Throw TypeError else Ret NaN
  | JArr l =>
      if existsb toString_throws l then Throw TypeError
      else
        match l with
        | [] => Ret (Fin 0)
        | [x] =>
            match x with
            | JUndefined | JNull => Ret (Fin 0)
            | JBool _ | JObj _ => Ret NaN
            | _ => ToNumber x
            end
        | _ => Ret NaN
        end
  end.

(** ToString on a value, as a template literal applies it.  An array
    prints as the comma-separated join of its elements, [null] and
    [undefined] printing as the empty string; an object prints as
    [[object Object]] unless an own [toString] hides the inherited
    method. *)
Fixpoint ToString (v : JsValue) : Exc jsstring :=
  match v with
  | JUndefined => Ret (lit "undefined")
  | JNull => Ret (lit "null")
  | JBool b => Ret (if b then lit "true" else lit "false")
  | JNum n => Ret (Number_toString n)
  | JStr s => Ret s
  | JObj fs =>
      if has_key (lit "toString") fs then Throw TypeError
      else Ret (lit "[object Object]")
  | JArr l =>
      bind
        (mapM (fun x =>
                 match x with
                 | JUndefined | JNull => Ret []
                 | _ => ToString x
                 end) l)
        (fun parts => Ret (join (lit ",") parts))
  end.

(** [(err as Error).message] on a caught value: the message of an
    [Error], a property read on any other value. *)
Definition messageOf (err : JsThrown) : Exc JsValue :=
  match err with
  | AnError e => Ret (JStr (message e))
  | AValue v => get v (lit "message")
  end.

(** [`${(err as Error).message}`]: the text a catch block prints for
    the value it caught. *)
Definition rejectionText (err : JsThrown) : Exc jsstring :=
  bind (messageOf err) ToString.

(** [Math.max(a, b)] and [Math.min(a, b)] on Numbers. *)
Definition num_max (a b : JsNum) : JsNum :=
  match a, b with
  | NaN, _ | _, NaN => NaN
  | PosInf, _ | _, PosInf => PosInf
  | NegInf, x | x, NegInf => x
  | Fin p, Fin q => if Qltb p q then Fin q else Fin p
  end.

Definition num_min (a b : JsNum) : JsNum :=
  match a, b with
  | NaN, _ | _, NaN => NaN
  | NegInf, _ | _, NegInf => NegInf
  | PosInf, x | x, PosInf => x
  | Fin p, Fin q => if Qltb q p then Fin q else Fin p
  end.

(** [Math.min(100, Math.max(0, v))]. *)
Definition clamp_0_100 (v : JsValue) : Exc JsNum :=
  (n <- ToNumber v ;;
   Ret (num_min (Fin 100) (num_max (Fin 0) n)))%exc.

(** A Number lies in the closed range 0..100. *)
Definition in_0_100 (n : JsNum) : bool :=
  match n with
  | Fin q => Qle_bool 0 q && Qle_bool q 100
  | _ => false
  end.

(* ===================================================================== *)
(** ** [JSON.parse] *)
(* ===================================================================== *)

(** JSON white space: tab, line feed, carriage return, space. *)
Definition is_json_ws (c : cu) : bool :=
  ((c =? 9) || (c =? 10) || (c =? 13) || (c =? 32))%N.

Fixpoint skip_ws (s : jsstring) : jsstring :=
  match s with
  | c :: s' => if is_json_ws c then skip_ws s' else s
  | [] => []
  end.

Definition hex4 (a b c d : cu) : option cu :=
  if is_hex a && is_hex b && is_hex c && is_hex d
  then Some (((hex_val a * 16 + hex_val b) * 16 + hex_val c) * 16
             + hex_val d)%N
  else None.

(** The single-character escapes of a JSON string. *)
Definition json_escape (e : cu) : option cu :=
  if (e =? 34)%N then Some 34%N            (* quotation mark *)
  else if (e =? 92)%N then Some 92%N       (* reverse solidus *)
  else if (e =? 47)%N then Some 47%N       (* solidus *)
  else if (e =? 98)%N then Some 8%N        (* b: backspace *)
  else if (e =? 102)%N then Some 12%N      (* f: form feed *)
  else if (e =? 110)%N then Some 10%N      (* n: line feed *)
  else if (e =? 114)%N then Some 13%N      (* r: carriage return *)
  else if (e =? 116)%N then Some 9%N       (* t: tab *)
  else None.

(** The characters of a JSON string after its opening quote, up to and
    including the closing quote.  Any code unit from U+0020 on may stand
    unescaped, except the quote and the backslash. *)
Fixpoint json_string (acc : jsstring) (s : jsstring)
    : option (jsstring * jsstring) :=
  match s with
  | [] => None
  | c :: s1 =>
      if (c =? 34)%N then Some (rev acc, s1)
      else if (c =? 92)%N then
        match s1 with
        | [] => None
        | e :: s2 =>
            if (e =? 117)%N then
              match s2 with
              | h1 :: h2 :: h3 :: h4 :: s3 =>
                  match hex4 h1 h2 h3 h4 with
                  | Some u => json_string (u :: acc) s3
                  | None => None
                  end
              | _ => None
              end
            else
              match json_escape e with
              | Some u => json_string (u :: acc) s2
              | None => None
              end
        end
      else if (c <? 32)%N then None
      else json_string (c :: acc) s1
  end.

(** A JSON number: an optional minus sign; an integer part that is [0] or
    starts with a non-zero digit; an optional fraction with at least one
    digit; an optional exponent. *)
Definition json_number (s : jsstring) : option (JsValue * jsstring) :=
  let '(neg, s0) :=
    match s with
    | c :: s' => if (c =? 45)%N then (true, s') else (false, s)
    | [] => (false, s)
    end in
  let '(ip, s1) :=
    match s0 with
    | c :: s' =>
        if (c =? 48)%N then ([c], s') else span is_digit s0
    | [] => ([], s0)
    end in
  match ip with
  | [] => None
  | _ =>
      let frac :=
        match s1 with
        | c :: s1' =>
            if (c =? 46)%N then
              let (fp, s2) := span is_digit s1' in
              match fp with
              | [] => None
              | _ => Some (fp, s2)
              end
            else Some ([], s1)
        | [] => Some ([], s1)
        end in
      match frac with
      | None => None
      | Some (fp, s2) =>
          match exponent_part s2 with
          | Some (eneg, ep, s3) =>
              Some (JNum (Fin (decimal_value neg ip fp eneg ep)), s3)
          | None => None
          end
      end
  end.

Definition expect (c : cu) (s : jsstring) : option jsstring :=
  match s with
  | x :: s' => if cu_eqb x c then Some s' else None
  | [] => None
  end.

Definition keyword (w : jsstring) (v : JsValue) (s : jsstring)
    : option (JsValue * jsstring) :=
  if startsWith s w then Some (v, skipn (length w) s) else None.

(** A JSON value with the white space around it; the elements of an array
    after its first; the members of an object after its first.  Every call
    passes less fuel on, and every call reads at least one code unit. *)
Fixpoint json_value (fuel : nat) (s : jsstring)
    : option (JsValue * jsstring) :=
  match fuel with
  | O => None
  | S fuel' =>
      match skip_ws s with
      | [] => None
      | c :: s1 =>
          let after v := match v with
                         | Some (x, s') => Some (x, skip_ws s')
                         | None => None
                         end in
          if (c =? 34)%N then
            after (match json_string [] s1 with
                   | Some (str, s2) => Some (JStr str, s2)
                   | None => None
                   end)
          else if (c =? 91)%N then
            match skip_ws s1 with
            | x :: s2 =>
                if (x =? 93)%N then after (Some (JArr [], s2))
                else
                  match json_value fuel' s1 with
                  | Some (v, s3) =>
                      after (json_elements fuel' [v] s3)
                  | None => None
                  end
            | [] => None
            end
          else if (c =? 123)%N then
            match skip_ws s1 with
            | x :: s2 =>
                if (x =? 125)%N then after (Some (JObj [], s2))
                else after (json_members fuel' [] (x :: s2))
            | [] => None
            end
          else if (c =? 116)%N then
            after (keyword (lit "true") (JBool true) (c :: s1))
          else if (c =? 102)%N then
            after (keyword (lit "false") (JBool false) (c :: s1))
          else if (c =? 110)%N then
            after (keyword (lit "null") JNull (c :: s1))
          else after (json_number (c :: s1))
      end
  end

with json_elements (fuel : nat) (acc : list JsValue) (s : jsstring)
    : option (JsValue * jsstring) :=
  match fuel with
  | O => None
  | S fuel' =>
      match s with
      | c :: s1 =>
          if (c =? 93)%N then Some (JArr (rev acc), s1)
          else if (c =? 44)%N then
            match json_value fuel' s1 with
            | Some (v, s2) => json_elements fuel' (v :: acc) s2
            | None => None
            end
          else None
      | [] => None
      end
  end

with json_members (fuel : nat) (acc : list (jsstring * JsValue))
    (s : jsstring) : option (JsValue * jsstring) :=
  match fuel with
  | O => None
  | S fuel' =>
      (* [s] starts at the quote opening a member name *)
      match expect 34%N s with
      | Some s1 =>
          match json_string [] s1 with
          | Some (k, s2) =>
              match expect 58%N (skip_ws s2) with
              | Some s3 =>
                  match json_value fuel' s3 with
                  | Some (v, s4) =>
                      match s4 with
                      | c :: s5 =>
                          if (c =? 125)%N
                          then Some (JObj (rev ((k, v) :: acc)), s5)
                          else if (c =? 44)%N
                          then json_members fuel' ((k, v) :: acc) (skip_ws s5)
                          else None
                      | [] => None
                      end
                  | None => None
                  end
              | None => None
              end
          | None => None
          end
      | None => None
      end
  end.

(** [JSON.parse(text)]: the value denoted by the whole text, a SyntaxError
    otherwise.  The fuel exceeds the number of calls any text of this
    length can cause. *)
Definition JSON_parse (text : jsstring) : Exc JsValue :=
  match json_value (2 * length text + 2) text with
  | Some (v, []) => Ret v
  | _ => Throw SyntaxError
  end.

(* ===================================================================== *)
(** ** Data model ([types/index.ts]) *)
(* ===================================================================== *)

Inductive ChunkType : Type := addition | deletion | modification.

Definition ChunkType_eqb (a b : ChunkType) : bool :=
  match a, b with
  | addition, addition | deletion, deletion | modification, modification =>
      true
  | _, _ => false
  end.

Definition ChunkType_str (t : ChunkType) : jsstring :=
  match t with
  | addition => lit "addition"
  | deletion => lit "deletion"
  | modification => lit "modification"
  end.

Module DiffChunk.
Record metadata_t : Type := mkMetadata {
  containsFunction : bool;
  containsImportChange : bool;
  containsAuthLogic : bool
}.

Record t : Type := mk {
  filePath : jsstring;
  type : ChunkType;
  startLine : JsNum;
  endLine : JsNum;
  content : jsstring;
  metadata : metadata_t
}.
End DiffChunk.

Inductive RiskLevel : Type := low | medium | high.

Definition RiskLevel_str (l : RiskLevel) : jsstring :=
  match l with
  | low => lit "low"
  | medium => lit "medium"
  | high => lit "high"
  end.

Module RiskReport.
Record t : Type := mk {
  filePath : jsstring;
  score : Z;
  level : RiskLevel;
  reasons : list jsstring
}.
End RiskReport.

Inductive ReviewMode : Type :=
| security | performance | clean_code | architecture | test_coverage
| general.

Definition ReviewMode_str (m : ReviewMode) : jsstring :=
  match m with
  | security => lit "security"
  | performance => lit "performance"
  | clean_code => lit "clean-code"
  | architecture => lit "architecture"
  | test_coverage => lit "test-coverage"
  | general => lit "general"
  end.

Module ReviewResult.
(** [suggestions], [summary] and [riskLevel] hold whatever the decoded
    response held: the decoder casts and does not check them. *)
Record t : Type := mk {
  chunkId : jsstring;
  filePath : jsstring;
  mode : ReviewMode;
  suggestions : JsValue;
  summary : JsValue;
  riskLevel : JsValue;
  modelUsed : jsstring
}.
End ReviewResult.

Module ChangedFile.
Inductive status_t : Type := added | modified | deleted | renamed.

Record t : Type := mk {
  filePath : jsstring;
  status : status_t;
  additions : JsNum;
  deletions : JsNum
}.
End ChangedFile.

Inductive TestCoverage : Type := none | partial | good | excellent.

Definition TestCoverage_str (c : TestCoverage) : jsstring :=
  match c with
  | none => lit "none"
  | partial => lit "partial"
  | good => lit "good"
  | excellent => lit "excellent"
  end.

Module PRMetrics.
Record t : Type := mk {
  totalFilesChanged : nat;
  totalAdditions : JsNum;
  totalDeletions : JsNum;
  avgComplexityPerFile : Z;
  hotspotFiles : list jsstring;
  testCoverage : TestCoverage
}.
End PRMetrics.

Module InDepthAnalysis.
(** [overallSummary], [categories] and [recommendations] hold parsed
    values; [complexityScore] is the result of Number arithmetic. *)
Record t : Type := mk {
  prNumber : Z;
  overallSummary : JsValue;
  complexityScore : JsNum;
  qualityGrade : jsstring;
  categories : JsValue;
  recommendations : JsValue;
  metrics : PRMetrics.t;
  modelUsed : jsstring
}.
End InDepthAnalysis.

(* ===================================================================== *)
(** ** [DiffEngine] ([core/diffEngine.ts]) *)
(* ===================================================================== *)

Module DiffEngine.
Import DiffChunk.

(** [/^diff --git /m] *)
Definition re_fileHeader : regex := rSeq rBol (rLit "diff --git ").

(** [/b\/(.+)$/] *)
Definition re_filePath : regex :=
  rSeqs [rLit "b/"; rGrp 1 (rPlus rDot); rEol].

(** [/^@@ -(\d+)(?:,\d+)? \+(\d+)(?:,(\d+))? @@/] *)
Definition hunkPattern : regex :=
  rSeqs [rBol; rLit "@@ -"; rGrp 1 (rPlus rDigit);
         rOpt (rSeq (rLit ",") (rPlus rDigit));
         rLit " +"; rGrp 2 (rPlus rDigit);
         rOpt (rSeq (rLit ",") (rGrp 3 (rPlus rDigit)));
         rLit " @@"].

(** [/\b(function|def |func |=>|async |class )\b/] *)
Definition re_function : regex :=
  rSeqs [rWordB;
         rGrp 1 (rAlts [rLit "function"; rLit "def "; rLit "func ";
                        rLit "=>"; rLit "async "; rLit "class "]);
         rWordB].

(** [/^[+-]\s*(import|require|from)\b/] *)
Definition re_importChange : regex :=
  rSeqs [rBol; rSet (fun c => ((c =? 43) || (c =? 45))%N); rStar rSpace;
         rGrp 1 (rAlts [rLit "import"; rLit "require"; rLit "from"]);
         rWordB].

(** [/\b(auth|token|password|credential|secret|jwt|oauth|session|login|logout)\b/i] *)
Definition re_authLogic : regex :=
  rSeqs [rWordB;
         rGrp 1 (rAlts [rLit "auth"; rLit "token"; rLit "password";
                        rLit "credential"; rLit "secret"; rLit "jwt";
                        rLit "oauth"; rLit "session"; rLit "login";
                        rLit "logout"]);
         rWordB].

(** The variables of one file block that the line loop updates, with
    the result list shared by all blocks. *)
Record state : Type := mkSt {
  chunks : list DiffChunk.t;
  currentHunkLines : list jsstring;
  currentStartLine : JsNum;
  hasAdditions : bool;
  hasDeletions : bool
}.

(** [line.startsWith('+') && !line.startsWith('+++')] *)
Definition is_added (line : jsstring) : bool :=
  startsWith line (lit "+") && negb (startsWith line (lit "+++")).

(** [line.startsWith('-') && !line.startsWith('---')] *)
Definition is_removed (line : jsstring) : bool :=
  startsWith line (lit "-") && negb (startsWith line (lit "---")).

Definition flushHunk (filePath : jsstring) (st : state) : state :=
  match currentHunkLines st with
  | [] => st
  | _ :: _ =>
      let content := join nl (currentHunkLines st) in
      let type :=
        if hasAdditions st && hasDeletions st then modification
        else if hasAdditions st then addition
        else deletion in
      let chunk :=
        DiffChunk.mk filePath type (currentStartLine st)
          (num_sub
             (num_add (currentStartLine st)
                (num_of_nat (length (currentHunkLines st))))
             (Fin 1))
          content
          (mkMetadata (test noFlags re_function content)
                      (test noFlags re_importChange content)
                      (test flag_i re_authLogic content)) in
      mkSt (chunks st ++ [chunk]) [] (currentStartLine st) false false
  end.

(** [parseInt(hunkMatch[2], 10)]: the Number nearest to the integer
    the digits denote (an engine may drop digits after the twentieth;
    this one rounds the exact value, as V8 does).  Group 2 takes part
    in every match; [parseInt(undefined, 10)] is NaN. *)
Definition hunkStart (cs : list (nat * jsstring)) : JsNum :=
  match capture 2 cs with
  | Some ds => binary64 (inject_Z (Z.of_N (digits_value ds)))
  | None => NaN
  end.

(** The body of the loop over the lines of a block. *)
Definition processLine (filePath : jsstring) (st : state)
    (line : jsstring) : state :=
  match re_match noFlags hunkPattern line with
  | Some hunkMatch =>
      let st' := flushHunk filePath st in
      mkSt (chunks st') (currentHunkLines st') (hunkStart hunkMatch)
           (hasAdditions st') (hasDeletions st')
  | None =>
      if num_gtb (currentStartLine st) (Fin 0) then
        mkSt (chunks st) (currentHunkLines st ++ [line])
             (currentStartLine st)
             (if is_added line then true else hasAdditions st)
             (if is_added line then hasDeletions st
              else if is_removed line then true else hasDeletions st)
      else st
  end.

(** The body of the loop over the file blocks. *)
Definition parseBlock (acc : list DiffChunk.t) (block : jsstring)
    : list DiffChunk.t :=
  let lines := split_nl block in
  match re_match noFlags re_filePath (hd [] lines) with
  | None => acc
  | Some filePathMatch =>
      let filePath :=
        trim (match capture 1 filePathMatch with
              | Some p => p
              | None => []
              end) in
      let st := fold_left (processLine filePath) lines
                  (mkSt acc [] (Fin 0) false false) in
      chunks (flushHunk filePath st)
  end.

Definition nonempty (s : jsstring) : bool :=
  match s with [] => false | _ :: _ => true end.

Definition parse (diff : jsstring) : list DiffChunk.t :=
  if negb (nonempty diff) || negb (nonempty (trim diff)) then []
  else
    let fileBlocks := filter nonempty (split_re flag_m re_fileHeader diff) in
    fold_left parseBlock fileBlocks [].
End DiffEngine.

(* ===================================================================== *)
(** ** [RiskAnalyzer] ([core/riskAnalyzer.ts]) *)
(* ===================================================================== *)

(** [Array.prototype.sort(cmp)]: the sort is stable, so for a comparator
    that is a total preorder the result is the one computed here: every
    element is inserted in front of the first element of the sorted rest
    that it does not compare greater than. *)
Section Sort.
Variable A : Type.
Variable cmp : A -> A -> Z.

Fixpoint sort_insert (x : A) (l : list A) : list A :=
  match l with
  | [] => [x]
  | y :: l' =>
      if (cmp x y <=? 0)%Z then x :: y :: l' else y :: sort_insert x l'
  end.

Definition sort (l : list A) : list A := fold_right sort_insert [] l.
End Sort.

Module RiskAnalyzer.
Import DiffChunk.

(** [/\/(auth|authentication|authorization|login|oauth)\//i] *)
Definition re_authDir : regex :=
  rSeqs [rLit "/";
         rGrp 1 (rAlts [rLit "auth"; rLit "authentication";
                        rLit "authorization"; rLit "login"; rLit "oauth"]);
         rLit "/"].

(** [/\.(env|secret|key|pem|cert)(\.|$)/i] *)
Definition re_sensitive : regex :=
  rSeqs [rLit ".";
         rGrp 1 (rAlts [rLit "env"; rLit "secret"; rLit "key"; rLit "pem";
                        rLit "cert"]);
         rGrp 2 (rAlt (rLit ".") rEol)].

(** [/\/(middleware|interceptor)\//i] *)
Definition re_middleware : regex :=
  rSeqs [rLit "/"; rGrp 1 (rAlt (rLit "middleware") (rLit "interceptor"));
         rLit "/"].

(** [/(package\.json|package-lock\.json|yarn\.lock|requirements\.txt|Gemfile|go\.sum|pom\.xml)/i] *)
Definition re_dependency : regex :=
  rGrp 1 (rAlts [rLit "package.json"; rLit "package-lock.json";
                 rLit "yarn.lock"; rLit "requirements.txt"; rLit "Gemfile";
                 rLit "go.sum"; rLit "pom.xml"]).

(** [/\/(migrations?|schema|model)\//i] *)
Definition re_schemaDir : regex :=
  rSeqs [rLit "/";
         rGrp 1 (rAlts [rSeq (rLit "migration") (rOpt (rLit "s"));
                        rLit "schema"; rLit "model"]);
         rLit "/"].

(** [/\.(sql|prisma|graphql)$/] *)
Definition re_schemaExt : regex :=
  rSeqs [rLit ".";
         rGrp 1 (rAlts [rLit "sql"; rLit "prisma"; rLit "graphql"]);
         rEol].

(** [/\b(auth|token|password|credential|secret|jwt|oauth|session)\b/gi] *)
Definition re_authKeyword : regex :=
  rSeqs [rWordB;
         rGrp 1 (rAlts [rLit "auth"; rLit "token"; rLit "password";
                        rLit "credential"; rLit "secret"; rLit "jwt";
                        rLit "oauth"; rLit "session"]);
         rWordB].

(** The [Map] from file path to its chunks.  A [Map] iterates in the
    order in which its keys were first set. *)
Definition fileMap_t : Type := list (jsstring * list DiffChunk.t).

(** [existing = fileMap.get(path) ?? []; existing.push(chunk);
    fileMap.set(path, existing)] *)
Fixpoint fileMap_add (m : fileMap_t) (chunk : DiffChunk.t) : fileMap_t :=
  match m with
  | [] => [(filePath chunk, [chunk])]
  | (k, existing) :: m' =>
      if str_eqb k (filePath chunk) then (k, existing ++ [chunk]) :: m'
      else (k, existing) :: fileMap_add m' chunk
  end.

Definition groupByFile (chunks : list DiffChunk.t) : fileMap_t :=
  fold_left fileMap_add chunks [].

(** One rule of the scorer: when it fires, the points it adds to the
    score and the reason it pushes. *)
Definition rule : Type := option (Z * jsstring).

Definition when (cond : bool) (points : Z) (reason : jsstring) : rule :=
  if cond then Some (points, reason) else None.

(** [score += points; reasons.push(reason)] *)
Definition fire (st : Z * list jsstring) (r : rule) : Z * list jsstring :=
  match r with
  | Some (points, reason) => (fst st + points, snd st ++ [reason])%Z
  | None => st
  end.

Definition authDirRule (path : jsstring) : rule :=
  when (test flag_i re_authDir path) 30
    (lit "File is in an authentication/authorization directory").

Definition sensitiveRule (path : jsstring) : rule :=
  when (test flag_i re_sensitive path) 25
    (lit "File may contain sensitive credentials or certificates").

Definition middlewareRule (path : jsstring) : rule :=
  when (test flag_i re_middleware path) 20
    (lit "File is middleware " ++ [8212%N]
     ++ lit " changes may affect request/response pipeline").

Definition dependencyRule (path : jsstring) : rule :=
  when (test flag_i re_dependency path) 20
    (lit "Dependency file changed " ++ [8212%N]
     ++ lit " supply chain risk").

Definition schemaRule (path : jsstring) : rule :=
  when (test flag_i re_schemaDir path || test noFlags re_schemaExt path) 15
    (lit "Schema or migration change detected").

Definition allContent (fileChunks : list DiffChunk.t) : jsstring :=
  join nl (map content fileChunks).

Definition authMatches (fileChunks : list DiffChunk.t) : nat :=
  count_matches flag_i re_authKeyword (allContent fileChunks).

Definition keywordReason (n : nat) : jsstring :=
  lit "Contains " ++ nat_to_str n ++ lit " auth-related keyword(s)".

Definition keywordRule (fileChunks : list DiffChunk.t) : rule :=
  let n := authMatches fileChunks in
  when (0 <? n) (Z.min (Z.of_nat n * 5) 20) (keywordReason n).

Definition removedLines (c : DiffChunk.t) : nat :=
  length (filter (fun l => startsWith l (lit "-")) (split_nl (content c))).

Definition totalDeletions (fileChunks : list DiffChunk.t) : nat :=
  fold_left (fun sum c => sum + removedLines c)
    (filter (fun c => ChunkType_eqb (type c) deletion
                      || ChunkType_eqb (type c) modification) fileChunks)
    0.

Definition deletionRule (fileChunks : list DiffChunk.t) : rule :=
  let n := totalDeletions fileChunks in
  if 50 <? n then
    Some (15%Z, lit "Large deletion: " ++ nat_to_str n
                ++ lit " lines removed")
  else if 20 <? n then
    Some (8%Z, lit "Notable deletion: " ++ nat_to_str n
               ++ lit " lines removed")
  else None.

Definition importChanges (fileChunks : list DiffChunk.t) : nat :=
  length (filter (fun c => containsImportChange (metadata c)) fileChunks).

Definition importRule (fileChunks : list DiffChunk.t) : rule :=
  let n := importChanges fileChunks in
  when (0 <? n) (Z.min (Z.of_nat n * 3) 10)
    (nat_to_str n ++ lit " chunk(s) contain import/dependency changes").

Definition functionChanges (fileChunks : list DiffChunk.t) : nat :=
  length (filter (fun c => containsFunction (metadata c)) fileChunks).

Definition functionRule (fileChunks : list DiffChunk.t) : rule :=
  let n := functionChanges fileChunks in
  when (3 <? n) 10
    (nat_to_str n ++ lit " function-level changes detected").

(** The rules in the order in which the loop body evaluates them. *)
Definition rules (path : jsstring) (fileChunks : list DiffChunk.t)
    : list rule :=
  [authDirRule path; sensitiveRule path; middlewareRule path;
   dependencyRule path; schemaRule path; keywordRule fileChunks;
   deletionRule fileChunks; importRule fileChunks;
   functionRule fileChunks].

(** The points a rule adds to the score. *)
Definition points (r : rule) : Z :=
  match r with
  | Some (p, _) => p
  | None => 0%Z
  end.

(** The points added by all rules but the keyword-density rule. *)
Definition otherPoints (path : jsstring) (fileChunks : list DiffChunk.t)
    : Z :=
  (points (authDirRule path) + points (sensitiveRule path)
   + points (middlewareRule path) + points (dependencyRule path)
   + points (schemaRule path) + points (deletionRule fileChunks)
   + points (importRule fileChunks) + points (functionRule fileChunks))%Z.

Definition levelOf (score : Z) : RiskLevel :=
  if (score >=? 60)%Z then high
  else if (score >=? 30)%Z then medium
  else low.

Definition noRiskReason : jsstring :=
  lit "No significant risk factors identified".

(** The body of the loop over the entries of the map. *)
Definition analyzeFile (entry : jsstring * list DiffChunk.t)
    : RiskReport.t :=
  let (path, fileChunks) := entry in
  let (score, reasons) := fold_left fire (rules path fileChunks) (0%Z, []) in
  let score := Z.min score 100 in
  let level := levelOf score in
  let reasons :=
    match reasons with
    | [] => [noRiskReason]
    | _ :: _ => reasons
    end in
  RiskReport.mk path score level reasons.

(** [(a, b) => b.score - a.score] *)
Definition byScoreDesc (a b : RiskReport.t) : Z :=
  (RiskReport.score b - RiskReport.score a)%Z.

Definition reportsUnsorted (chunks : list DiffChunk.t)
    : list RiskReport.t :=
  map analyzeFile (groupByFile chunks).

Definition analyze (chunks : list DiffChunk.t) : list RiskReport.t :=
  sort byScoreDesc (reportsUnsorted chunks).
End RiskAnalyzer.

(* ===================================================================== *)
(** ** The text-generation backend ([ICopilotService]) *)
(* ===================================================================== *)

(** The service as the engines use it.  [S] is whatever the service and
    the world behind it remember between calls; [ask] either resolves with
    text or rejects, with an [Error] or with any other value (the
    interface does not say); [getLastUsedModelName] is [None] when
    the service has no such method or it answers nothing. *)
Record CopilotService (S : Type) : Type := mkService {
  ask : jsstring -> option jsstring -> S -> Exc jsstring * S;
  getLastUsedModelName : S -> option jsstring
}.

(** [getLastUsedModelName?.() ?? 'unknown'] *)
Definition getModelName {S : Type} (copilot : CopilotService S) (st : S)
    : jsstring :=
  match getLastUsedModelName copilot st with
  | Some name => name
  | None => lit "unknown"
  end.

(** [/^```(?:json)?\s*/m] *)
Definition re_fenceOpen : regex :=
  rSeqs [rBol; rLit "```"; rOpt (rLit "json"); rStar rSpace].

(** [/\s*```$/m] *)
Definition re_fenceClose : regex :=
  rSeqs [rStar rSpace; rLit "```"; rEol].

(** [raw.replace(/^```(?:json)?\s*/m, '').replace(/\s*```$/m, '').trim()] *)
Definition stripFences (rawResponse : jsstring) : jsstring :=
  trim (replace_first flag_m re_fenceClose
          (replace_first flag_m re_fenceOpen rawResponse)).

(* ===================================================================== *)
(** ** [ReviewEngine] ([core/reviewEngine.ts]) *)
(* ===================================================================== *)

Module ReviewEngine.
Import DiffChunk.

Definition REVIEW_MODE_PROMPTS (mode : ReviewMode) : jsstring :=
  match mode with
  | security => lit
"You are a security code reviewer. Analyze this code diff for:
- Authentication and authorization vulnerabilities
- Injection attacks (SQL, XSS, command injection)
- Insecure data handling or exposure of secrets
- Cryptographic weaknesses
- Input validation issues"
  | performance => lit
"You are a performance engineering expert. Analyze this code diff for:
- Unnecessary database queries or N+1 problems
- Memory leaks or excessive allocations
- Blocking operations in async contexts
- Missing caching opportunities
- Algorithm complexity issues"
  | clean_code => lit
"You are a clean code expert. Analyze this code diff for:
- Code duplication and DRY violations
- Long functions that should be decomposed
- Poor naming of variables, functions, or classes
- Magic numbers or strings
- Violation of Single Responsibility Principle"
  | architecture => lit
"You are a software architect. Analyze this code diff for:
- Tight coupling and dependency violations
- Missing abstraction layers
- Violation of SOLID principles
- Circular dependencies
- Inappropriate use of design patterns"
  | test_coverage => lit
"You are a QA engineer and testing expert. Analyze this code diff for:
- Missing unit tests for new functions
- Missing edge case coverage
- Untested error paths
- Test quality issues (brittle, non-deterministic tests)
- Missing integration test scenarios"
  | general => lit
"You are an expert code reviewer. Analyze this code diff comprehensively for:
- Bugs and logic errors
- Security concerns
- Performance issues
- Code quality and maintainability
- Missing tests or documentation"
  end.

Definition responseFormat : jsstring := qlit
"Respond in this exact JSON format (no markdown code blocks, just raw JSON):
{
  'summary': 'One sentence summary of the change',
  'riskLevel': 'low|medium|high',
  'suggestions': [
    {
      'line': <line number>,
      'severity': 'info|warning|error',
      'message': '<clear actionable message>',
      'patch': '<optional suggested replacement code>'
    }
  ]
}".

Definition buildPrompt (mode : ReviewMode) (chunk : DiffChunk.t)
    : jsstring :=
  let modeInstructions := REVIEW_MODE_PROMPTS mode in
  let maxContentLength := 4000 in
  let truncatedContent :=
    if maxContentLength <? length (content chunk)
    then slice0 maxContentLength (content chunk)
         ++ nl ++ lit "... [truncated]"
    else content chunk in
  modeInstructions ++ nl ++ nl
  ++ lit "## File: " ++ filePath chunk ++ nl
  ++ lit "## Change Type: " ++ ChunkType_str (type chunk) ++ nl
  ++ lit "## Lines: " ++ Number_toString (startLine chunk) ++ [8211%N]
  ++ Number_toString (endLine chunk) ++ nl ++ nl
  ++ lit "```diff" ++ nl
  ++ truncatedContent ++ nl
  ++ lit "```" ++ nl ++ nl
  ++ responseFormat.

Definition chunkIdOf (chunk : DiffChunk.t) : jsstring :=
  filePath chunk ++ lit ":" ++ Number_toString (startLine chunk)
  ++ lit "-" ++ Number_toString (endLine chunk).

(** The result returned when the backend call rejects, [reason] being
    the text of [(err as Error).message]. *)
Definition unavailableResult (chunk : DiffChunk.t) (mode : ReviewMode)
    (reason : jsstring) (modelName : jsstring) : ReviewResult.t :=
  ReviewResult.mk (chunkIdOf chunk) (filePath chunk) mode
    (JArr [])
    (JStr (lit "Copilot unavailable: " ++ reason))
    (JStr (lit "low"))
    modelName.

(** The body of the second [try]: strip, parse, read the three fields. *)
Definition decodeResult (chunk : DiffChunk.t) (mode : ReviewMode)
    (rawResponse : jsstring) (modelName : jsstring)
    : Exc ReviewResult.t :=
  (parsed <- JSON_parse (stripFences rawResponse) ;;
   suggestions <- get parsed (lit "suggestions") ;;
   summary <- get parsed (lit "summary") ;;
   riskLevel <- get parsed (lit "riskLevel") ;;
   Ret (ReviewResult.mk (chunkIdOf chunk) (filePath chunk) mode
          (nullish suggestions (JArr []))
          (nullish summary (JStr []))
          (nullish riskLevel (JStr (lit "low")))
          modelName))%exc.

(** The result of the [catch] of the second [try]. *)
Definition fallbackResult (chunk : DiffChunk.t) (mode : ReviewMode)
    (rawResponse : jsstring) (modelName : jsstring) : ReviewResult.t :=
  ReviewResult.mk (chunkIdOf chunk) (filePath chunk) mode
    (JArr [JObj [(lit "line", JNum (startLine chunk));
                 (lit "severity", JStr (lit "info"));
                 (lit "message", JStr rawResponse)]])
    (JStr (lit "Review completed (unstructured response)"))
    (JStr (lit "low"))
    modelName.

(** Whether the second [try] throws: [JSON.parse] rejects the stripped
    text, or yields a value whose properties cannot be read. *)
Definition decodeThrows (rawResponse : jsstring) : bool :=
  match JSON_parse (stripFences rawResponse) with
  | Throw _ | Ret JNull | Ret JUndefined => true
  | Ret _ => false
  end.

Definition reviewChunk {S : Type} (copilot : CopilotService S)
    (chunk : DiffChunk.t) (mode : ReviewMode) (modelId : option jsstring)
    (st : S) : Exc ReviewResult.t * S :=
  let prompt := buildPrompt mode chunk in
  let (asked, st') := ask copilot prompt modelId st in
  match asked with
  | Throw err =>
      (* the catch block reads the message of whatever was thrown,
         which itself throws when that is [null] or [undefined] *)
      ((reason <- rejectionText err ;;
        Ret (unavailableResult chunk mode reason
               (getModelName copilot st')))%exc,
       st')
  | Ret rawResponse =>
      (try_catch
         (decodeResult chunk mode rawResponse (getModelName copilot st'))
         (fun _ =>
            Ret (fallbackResult chunk mode rawResponse
                   (getModelName copilot st'))),
       st')
  end.
End ReviewEngine.

(* ===================================================================== *)
(** ** [DeepAnalysisEngine] ([core/deepAnalysisEngine.ts]) *)
(* ===================================================================== *)

Module DeepAnalysisEngine.
Import DiffChunk.

Definition ANALYSIS_CATEGORIES : list jsstring :=
  [lit "Code Quality"; lit "Security"; lit "Performance";
   lit "Error Handling"; lit "Testing"; lit "Documentation";
   lit "Architecture"; lit "Dependencies"].

(** [/\.(test|spec)\.(ts|tsx|js|jsx)$/] *)
Definition re_testSuffix : regex :=
  rSeqs [rLit "."; rGrp 1 (rAlt (rLit "test") (rLit "spec")); rLit ".";
         rGrp 2 (rAlts [rLit "ts"; rLit "tsx"; rLit "js"; rLit "jsx"]);
         rEol].

(** [/\/tests?\//] *)
Definition re_testDir : regex :=
  rSeqs [rLit "/test"; rOpt (rLit "s"); rLit "/"].

Definition isTestFile (f : ChangedFile.t) : bool :=
  test noFlags re_testSuffix (ChangedFile.filePath f)
  || test noFlags re_testDir (ChangedFile.filePath f).

(** [fileSizes.set(path, (fileSizes.get(path) ?? 0) + lines)] *)
Fixpoint fileSizes_add (m : list (jsstring * nat)) (path : jsstring)
    (lines : nat) : list (jsstring * nat) :=
  match m with
  | [] => [(path, 0 + lines)]
  | (k, current) :: m' =>
      if str_eqb k path then (k, current + lines) :: m'
      else (k, current) :: fileSizes_add m' path lines
  end.

Definition fileSizesOf (chunks : list DiffChunk.t)
    : list (jsstring * nat) :=
  fold_left
    (fun m chunk =>
       fileSizes_add m (filePath chunk) (length (split_nl (content chunk))))
    chunks [].

(** [Math.round(sum / count)] for non-negative integers, [count > 0]:
    the quotient rounded to the nearest integer, halves upwards. *)
Definition roundDiv (sum count : nat) : Z :=
  ((2 * Z.of_nat sum + Z.of_nat count) / (2 * Z.of_nat count))%Z.

(** [testFileCount / nonTestCount >= bound], the bound being [n/10].
    The quotient is compared as the exact rational it rounds from. *)
Definition ratio (testFileCount nonTestCount : nat) : Q :=
  if 0 <? nonTestCount
  then Qmake (Z.of_nat testFileCount) (Pos.of_nat nonTestCount)
  else 1%Q.

Definition coverageOf (changedFiles : list ChangedFile.t) : TestCoverage :=
  let hasTestFiles := existsb isTestFile changedFiles in
  let testFileCount := length (filter isTestFile changedFiles) in
  let nonTestCount := length changedFiles - testFileCount in
  if hasTestFiles then
    let ratio := ratio testFileCount nonTestCount in
    if Qle_bool (8 # 10) ratio then excellent
    else if Qle_bool (5 # 10) ratio then good
    else partial
  else none.

Definition computeMetrics (chunks : list DiffChunk.t)
    (changedFiles : list ChangedFile.t) : PRMetrics.t :=
  let totalAdditions :=
    fold_left (fun s f => num_add s (ChangedFile.additions f))
      changedFiles (Fin 0) in
  let totalDeletions :=
    fold_left (fun s f => num_add s (ChangedFile.deletions f))
      changedFiles (Fin 0) in
  let fileSizes := fileSizesOf chunks in
  let sizes := map snd fileSizes in
  let avgComplexity :=
    if 0 <? length sizes
    then roundDiv (fold_left Nat.add sizes 0) (length sizes)
    else 0%Z in
  let hotspotFiles :=
    map fst
      (firstn 5
         (sort (fun a b => (Z.of_nat (snd b) - Z.of_nat (snd a))%Z)
            fileSizes)) in
  PRMetrics.mk (length changedFiles) totalAdditions totalDeletions
    avgComplexity hotspotFiles (coverageOf changedFiles).

Definition summaryEntry (chunk : DiffChunk.t) : jsstring :=
  lit "### " ++ filePath chunk ++ lit " (" ++ ChunkType_str (type chunk)
  ++ lit ", L" ++ Number_toString (startLine chunk) ++ lit "-"
  ++ Number_toString (endLine chunk) ++ lit ")" ++ nl
  ++ lit "```diff" ++ nl ++ slice0 1500 (content chunk) ++ nl
  ++ lit "```" ++ nl.

(** The loop of [buildDiffSummary]: [total] is [chunks.length]. *)
Fixpoint summaryParts (total : nat) (parts : list jsstring)
    (totalLength : nat) (chunks : list DiffChunk.t) : list jsstring :=
  match chunks with
  | [] => parts
  | chunk :: chunks' =>
      let entry := summaryEntry chunk in
      if 12000 <? totalLength + length entry then
        parts ++ [nl ++ lit "... (" ++ nat_to_str (total - length parts)
                  ++ lit " more chunks truncated)"]
      else
        summaryParts total (parts ++ [entry]) (totalLength + length entry)
          chunks'
  end.

Definition buildDiffSummary (chunks : list DiffChunk.t) : jsstring :=
  join nl (summaryParts (length chunks) [] 0 chunks).

Definition buildDeepAnalysisPrompt (diffSummary : jsstring)
    (metrics : PRMetrics.t) (mode : ReviewMode) : jsstring :=
  let hotspots :=
    match join (lit ", ") (PRMetrics.hotspotFiles metrics) with
    | [] => lit "none"
    | s => s
    end in
  lit "You are a senior software engineer performing an in-depth pull request analysis."
  ++ nl ++ lit "Focus area: " ++ ReviewMode_str mode ++ nl ++ nl
  ++ lit "## PR Metrics" ++ nl
  ++ lit "- Files changed: "
  ++ nat_to_str (PRMetrics.totalFilesChanged metrics) ++ nl
  ++ lit "- Lines added: "
  ++ Number_toString (PRMetrics.totalAdditions metrics)
  ++ nl
  ++ lit "- Lines deleted: "
  ++ Number_toString (PRMetrics.totalDeletions metrics)
  ++ nl
  ++ lit "- Test coverage: "
  ++ TestCoverage_str (PRMetrics.testCoverage metrics) ++ nl
  ++ lit "- Hotspot files: " ++ hotspots ++ nl ++ nl
  ++ lit "## Changes" ++ nl ++ diffSummary ++ nl ++ nl
  ++ qlit
"Perform a deep, thorough analysis. Respond in this exact JSON format (no markdown code blocks, just raw JSON):
{
  'overallSummary': 'Comprehensive 3-5 sentence summary of what this PR does and its impact',
  'complexityScore': <0-100, where 100 is extremely complex>,
  'qualityGrade': 'A|B|C|D|F',
  'categories': [
    {
      'name': '" ++ join (lit "|") ANALYSIS_CATEGORIES ++ qlit "',
      'score': <0-100>,
      'findings': ['finding 1', 'finding 2'],
      'severity': 'good|acceptable|needs-improvement|critical'
    }
  ],
  'recommendations': [
    {
      'priority': 'low|medium|high|critical',
      'title': 'Short title',
      'description': 'Detailed actionable recommendation',
      'filePath': 'optional/file/path.ts',
      'lineRange': { 'start': 1, 'end': 10 }
    }
  ]
}

Analyze ALL of these categories: " ++ join (lit ", ") ANALYSIS_CATEGORIES
  ++ lit ". Be thorough and actionable.".

(** [String.prototype.toUpperCase] on ASCII letters; other code units
    are left alone, which cannot change whether the result is one of
    the five grades. *)
Definition toUpperCase (s : jsstring) : jsstring := map canonicalize s.

Definition validGrades : list jsstring :=
  [lit "A"; lit "B"; lit "C"; lit "D"; lit "F"].

(** [(grade ?? 'C').toUpperCase()] is a TypeError when [grade] is
    neither nullish nor a string. *)
Definition validateGrade (grade : JsValue) : Exc jsstring :=
  match nullish grade (JStr (lit "C")) with
  | JStr g =>
      let upper := toUpperCase g in
      Ret (if existsb (str_eqb upper) validGrades then upper else lit "C")
  | _ => Throw TypeError
  end.

(** [fallbackAnalysis(prNumber, metrics, error)], [error] being the
    text its template literal prints for the argument. *)
Definition fallbackAnalysis (prNumber : Z) (metrics : PRMetrics.t)
    (error : jsstring) : InDepthAnalysis.t :=
  InDepthAnalysis.mk prNumber
    (JStr (lit "Unable to complete deep analysis: " ++ error))
    (Fin 0) (lit "C") (JArr []) (JArr []) metrics (lit "unknown").

(** [v.map(f)]: a TypeError unless [v] is an array. *)
Definition array_map (v : JsValue) (f : JsValue -> Exc JsValue)
    : Exc JsValue :=
  match v with
  | JArr l => bind (mapM f l) (fun l' => Ret (JArr l'))
  | _ => Throw TypeError
  end.

(** The callback normalising one category. *)
Definition normCategory (c : JsValue) : Exc JsValue :=
  (name <- get c (lit "name") ;;
   score <- get c (lit "score") ;;
   score' <- clamp_0_100 (nullish score (JNum (Fin 50))) ;;
   findings <- get c (lit "findings") ;;
   severity <- get c (lit "severity") ;;
   Ret (JObj [(lit "name", name);
              (lit "score", JNum score');
              (lit "findings", nullish findings (JArr []));
              (lit "severity",
               nullish severity (JStr (lit "acceptable")))]))%exc.

(** The callback normalising one recommendation. *)
Definition normRecommendation (r : JsValue) : Exc JsValue :=
  (priority <- get r (lit "priority") ;;
   title <- get r (lit "title") ;;
   description <- get r (lit "description") ;;
   filePath <- get r (lit "filePath") ;;
   lineRange <- get r (lit "lineRange") ;;
   Ret (JObj [(lit "priority", nullish priority (JStr (lit "medium")));
              (lit "title", nullish title (JStr (lit "Recommendation")));
              (lit "description", nullish description (JStr []));
              (lit "filePath", filePath);
              (lit "lineRange", lineRange)]))%exc.

(** The body of the [try] of [analyze]. *)
Definition decodeAnalysis (prNumber : Z) (metrics : PRMetrics.t)
    (rawResponse modelName : jsstring) : Exc InDepthAnalysis.t :=
  (parsed <- JSON_parse (stripFences rawResponse) ;;
   overallSummary <- get parsed (lit "overallSummary") ;;
   complexityScore <- get parsed (lit "complexityScore") ;;
   complexityScore' <-
     clamp_0_100 (nullish complexityScore (JNum (Fin 50))) ;;
   qualityGrade <- get parsed (lit "qualityGrade") ;;
   qualityGrade' <- validateGrade qualityGrade ;;
   categories <- get parsed (lit "categories") ;;
   categories' <- array_map (nullish categories (JArr [])) normCategory ;;
   recommendations <- get parsed (lit "recommendations") ;;
   recommendations' <-
     array_map (nullish recommendations (JArr [])) normRecommendation ;;
   Ret (InDepthAnalysis.mk prNumber
          (nullish overallSummary (JStr (lit "Analysis completed.")))
          complexityScore' qualityGrade' categories' recommendations'
          metrics modelName))%exc.

(** The result of the [catch] of [analyze]. *)
Definition degradedAnalysis (prNumber : Z) (metrics : PRMetrics.t)
    (rawResponse modelName : jsstring) : InDepthAnalysis.t :=
  InDepthAnalysis.mk prNumber (JStr (slice0 500 rawResponse))
    (Fin 50) (lit "C") (JArr []) (JArr []) metrics modelName.

Definition analyze {S : Type} (copilot : CopilotService S) (prNumber : Z)
    (chunks : list DiffChunk.t) (changedFiles : list ChangedFile.t)
    (mode : ReviewMode) (st : S) : Exc InDepthAnalysis.t * S :=
  let metrics := computeMetrics chunks changedFiles in
  let allContent := buildDiffSummary chunks in
  let prompt := buildDeepAnalysisPrompt allContent metrics mode in
  let (asked, st') := ask copilot prompt None st in
  match asked with
  | Throw err =>
      (* [(err as Error).message] is read in the catch block and
         printed by the template literal of [fallbackAnalysis] *)
      ((error <- rejectionText err ;;
        Ret (fallbackAnalysis prNumber metrics error))%exc,
       st')
  | Ret rawResponse =>
      let modelName := getModelName copilot st' in
      (try_catch (decodeAnalysis prNumber metrics rawResponse modelName)
         (fun _ =>
            Ret (degradedAnalysis prNumber metrics rawResponse modelName)),
       st')
  end.

(** The body of the [try] of [compareWithModels], after the call. *)
Definition decodeComparison (prNumber : Z) (metrics : PRMetrics.t)
    (rawResponse modelId : jsstring) : Exc InDepthAnalysis.t :=
  (parsed <- JSON_parse (stripFences rawResponse) ;;
   overallSummary <- get parsed (lit "overallSummary") ;;
   complexityScore <- get parsed (lit "complexityScore") ;;
   complexityScore' <-
     clamp_0_100 (nullish complexityScore (JNum (Fin 50))) ;;
   qualityGrade <- get parsed (lit "qualityGrade") ;;
   qualityGrade' <- validateGrade qualityGrade ;;
   categories <- get parsed (lit "categories") ;;
   recommendations <- get parsed (lit "recommendations") ;;
   Ret (InDepthAnalysis.mk prNumber
          (nullish overallSummary (JStr (lit "Analysis completed.")))
          complexityScore' qualityGrade'
          (nullish categories (JArr []))
          (nullish recommendations (JArr []))
          metrics modelId))%exc.

(** One iteration of the loop of [compareWithModels]. *)
Definition compareOne {S : Type} (copilot : CopilotService S)
    (prNumber : Z) (chunks : list DiffChunk.t)
    (changedFiles : list ChangedFile.t) (mode : ReviewMode)
    (acc : list InDepthAnalysis.t * S) (modelId : jsstring)
    : list InDepthAnalysis.t * S :=
  let (results, st) := acc in
  let metrics := computeMetrics chunks changedFiles in
  let allContent := buildDiffSummary chunks in
  let prompt := buildDeepAnalysisPrompt allContent metrics mode in
  let (asked, st') := ask copilot prompt (Some modelId) st in
  let failed :=
    fallbackAnalysis prNumber metrics
      (lit "Model " ++ modelId ++ lit " failed") in
  match
    (rawResponse <- asked ;;
     decodeComparison prNumber metrics rawResponse modelId)%exc
  with
  | Ret r => (results ++ [r], st')
  | Throw _ => (results ++ [failed], st')
  end.

Definition compareWithModels {S : Type} (copilot : CopilotService S)
    (prNumber : Z) (chunks : list DiffChunk.t)
    (changedFiles : list ChangedFile.t) (mode : ReviewMode)
    (modelIds : list jsstring) (st : S) : list InDepthAnalysis.t * S :=
  fold_left (compareOne copilot prNumber chunks changedFiles mode)
    modelIds ([], st).
End DeepAnalysisEngine.

(* ===================================================================== *)
(** ** The specification's vocabulary *)
(* ===================================================================== *)

(** The definitions of this section follow the words of the specification
    rather than the source; the theorems compare them with the code. *)
Module Claimed.
(** "at least one line starting with [+] (not [+++])" *)
Definition hasAddedLine (content : jsstring) : bool :=
  existsb DiffEngine.is_added (split_nl content).

(** "at least one line starting with [-] (not [---])" *)
Definition hasRemovedLine (content : jsstring) : bool :=
  existsb DiffEngine.is_removed (split_nl content).

(** "a line starting with [+] or [-] immediately followed by an
      import/include/require keyword" *)
Definition importLine (line : jsstring) : bool :=
  existsb (fun kw => startsWith line (lit "+" ++ kw)
                     || startsWith line (lit "-" ++ kw))
    [lit "import"; lit "include"; lit "require"].

(** "at least one line of the hunk text (any line, not only the first)" *)
Definition containsImportChange (content : jsstring) : bool :=
  existsb importLine (split_nl content).

(** "first-seen file order": every path once, in the order of its first
    occurrence. *)
Fixpoint firstSeen (paths : list jsstring) : list jsstring :=
  match paths with
  | [] => []
  | p :: paths' =>
      p :: filter (fun q => negb (str_eqb p q)) (firstSeen paths')
  end.

(** "the fixed security-keyword vocabulary" *)
Definition securityVocabulary : list jsstring :=
  [lit "auth"; lit "token"; lit "password"; lit "credential"; lit "secret";
   lit "jwt"; lit "oauth"; lit "session"; lit "login"; lit "logout"].

(** "the number of case-insensitive matches of the vocabulary" *)
Definition keywordCount (text : jsstring) : nat :=
  count_matches flag_i (rAlts (map rStr securityVocabulary)) text.

(** "a well-formed JSON object with summary, riskLevel, and suggestions
      fields conforming to the required schema" *)
Definition isRiskLevel (v : JsValue) : bool :=
  match v with
  | JStr s => existsb (str_eqb s) [lit "low"; lit "medium"; lit "high"]
  | _ => false
  end.

Definition isSeverity (v : JsValue) : bool :=
  match v with
  | JStr s => existsb (str_eqb s) [lit "info"; lit "warning"; lit "error"]
  | _ => false
  end.

Definition isString (v : JsValue) : bool :=
  match v with JStr _ => true | _ => false end.

Definition isNumber (v : JsValue) : bool :=
  match v with JNum _ => true | _ => false end.

Definition field (fs : list (jsstring * JsValue)) (k : jsstring)
    : JsValue :=
  match lookup k fs with Some v => v | None => JUndefined end.

Definition isSuggestion (v : JsValue) : bool :=
  match v with
  | JObj fs =>
      isNumber (field fs (lit "line"))
      && isSeverity (field fs (lit "severity"))
      && isString (field fs (lit "message"))
      && match field fs (lit "patch") with
         | JUndefined | JStr _ => true
         | _ => false
         end
  | _ => false
  end.

Definition conformsToSchema (v : JsValue) : bool :=
  match v with
  | JObj fs =>
      isString (field fs (lit "summary"))
      && isRiskLevel (field fs (lit "riskLevel"))
      && match field fs (lit "suggestions") with
         | JArr l => forallb isSuggestion l
         | _ => false
         end
  | _ => false
  end.

(** "can be parsed as the required JSON object" *)
Definition parsesAsObject (text : jsstring) : bool :=
  match JSON_parse text with
  | Ret (JObj _) => true
  | _ => false
  end.

(** "every category's score lies in [0,100]" *)
Definition categoryScoreInRange (c : JsValue) : bool :=
  match c with
  | JObj fs =>
      match field fs (lit "score") with
      | JNum n => in_0_100 n
      | _ => false
      end
  | _ => false
  end.

Definition categoryScoresInRange (r : InDepthAnalysis.t) : bool :=
  match InDepthAnalysis.categories r with
  | JArr l => forallb categoryScoreInRange l
  | _ => false
  end.
End Claimed.

(* ===================================================================== *)
(** ** Predicates and measures used in the statements *)
(* ===================================================================== *)

(** A line holds no line feed. *)
Definition nl_free (l : jsstring) : Prop := ~ In 10%N l.

(** What [flushHunk] establishes for every chunk it pushes. *)
Record chunk_ok (c : DiffChunk.t) : Prop := mkChunkOk {
  ok_endLine :
    DiffChunk.endLine c
    = num_sub
        (num_add (DiffChunk.startLine c)
           (num_of_nat (length (split_nl (DiffChunk.content c)))))
        (Fin 1);
  ok_type :
    DiffChunk.type c
    = if Claimed.hasAddedLine (DiffChunk.content c)
         && Claimed.hasRemovedLine (DiffChunk.content c)
      then modification
      else if Claimed.hasAddedLine (DiffChunk.content c) then addition
      else deletion;
  ok_startLine : num_gtb (DiffChunk.startLine c) (Fin 0) = true
}.

(** What the line loop of the parser maintains. *)
Record state_ok (st : DiffEngine.state) : Prop := mkStateOk {
  ok_chunks : Forall chunk_ok (DiffEngine.chunks st);
  ok_lines : Forall nl_free (DiffEngine.currentHunkLines st);
  ok_additions :
    DiffEngine.hasAdditions st
    = existsb DiffEngine.is_added (DiffEngine.currentHunkLines st);
  ok_deletions :
    DiffEngine.hasDeletions st
    = existsb DiffEngine.is_removed (DiffEngine.currentHunkLines st);
  ok_open :
    DiffEngine.currentHunkLines st <> [] ->
    num_gtb (DiffEngine.currentStartLine st) (Fin 0) = true
}.

(** A caught value whose message a catch block can read and print:
    [`${(err as Error).message}`] yields a text. *)
Definition printable (err : JsThrown) : Prop :=
  exists reason : jsstring, rejectionText err = Ret reason.

(** A backend that rejects with printable values only; one that rejects
    with [Error] objects is of this kind. *)
Definition rejects_printably {S : Type} (copilot : CopilotService S)
    : Prop :=
  forall (prompt : jsstring) (modelId : option jsstring) (st : S)
         (err : JsThrown),
    fst (ask copilot prompt modelId st) = Throw err -> printable err.

Definition keys (m : RiskAnalyzer.fileMap_t) : list jsstring := map fst m.

(** The chunk belongs to the file. *)
Definition of_file (p : jsstring) (c : DiffChunk.t) : bool :=
  str_eqb p (DiffChunk.filePath c).

Definition not_in (ks : list jsstring) (q : jsstring) : bool :=
  negb (existsb (str_eqb q) ks).

(** An entry of the map after the chunks [cs] were added. *)
Definition extend (cs : list DiffChunk.t)
    (kv : jsstring * list DiffChunk.t) : jsstring * list DiffChunk.t :=
  (fst kv, snd kv ++ filter (of_file (fst kv)) cs).

(** The entry of a file that first appears among the chunks [cs]. *)
Definition fresh (cs : list DiffChunk.t) (p : jsstring)
    : jsstring * list DiffChunk.t :=
  (p, filter (of_file p) cs).

(** The comparator [(a, b) => key(b) - key(a)]. *)
Definition descending {A : Type} (key : A -> Z) (a b : A) : Z :=
  (key b - key a)%Z.

(** Descending order of the key. *)
Definition ge_key {A : Type} (key : A -> Z) (a b : A) : Prop :=
  (key a >= key b)%Z.

(** The points of a list of rules, and the reasons of those that fire. *)
Definition total (rs : list RiskAnalyzer.rule) : Z :=
  fold_right (fun r acc => (RiskAnalyzer.points r + acc)%Z) 0%Z rs.

Definition reasonsOf (rs : list RiskAnalyzer.rule) : list jsstring :=
  flat_map (fun r => match r with Some (_, why) => [why] | None => [] end) rs.

(** A rule that fires adds a positive number of points. *)
Definition positive (r : RiskAnalyzer.rule) : Prop :=
  match r with Some (p, _) => (0 < p)%Z | None => True end.

(** What every risk report satisfies. *)
Definition report_ok (r : RiskReport.t) : Prop :=
  (0 <= RiskReport.score r <= 100)%Z
  /\ (RiskReport.level r = high <-> (60 <= RiskReport.score r)%Z)
  /\ (RiskReport.level r = medium <-> (30 <= RiskReport.score r < 60)%Z)
  /\ (RiskReport.level r = low <-> (RiskReport.score r < 30)%Z)
  /\ RiskReport.reasons r <> []
  /\ (RiskReport.score r = 0%Z
      -> RiskReport.reasons r = [RiskAnalyzer.noRiskReason]).

(** A score after [Math.min(100, Math.max(0, _))]: within 0..100, or NaN
    when the clamped value was not numeric. *)
Definition score_ok (n : JsNum) : Prop := n = NaN \/ in_0_100 n = true.

(** A category as [analyze] rebuilds it. *)
Definition category_ok (c : JsValue) : Prop :=
  exists (fs : list (jsstring * JsValue)) (n : JsNum),
    c = JObj fs /\ Claimed.field fs (lit "score") = JNum n /\ score_ok n.

(* ===================================================================== *)
(** ** Further notions used in the statements *)
(* ===================================================================== *)

(** The file blocks of a diff:
    [diff.split(/^diff --git /m).filter(Boolean)]. *)
Definition fileBlocks (diff : jsstring) : list jsstring :=
  filter DiffEngine.nonempty (split_re flag_m DiffEngine.re_fileHeader diff).

(** The line is a hunk header: [line.match(hunkPattern)] is not null. *)
Definition is_hunk_header (line : jsstring) : bool :=
  match re_match noFlags DiffEngine.hunkPattern line with
  | Some _ => true
  | None => false
  end.

(** The chunks already pushed are put in front of a state's chunks. *)
Definition prepend (acc : list DiffChunk.t) (st : DiffEngine.state)
    : DiffEngine.state :=
  DiffEngine.mkSt (acc ++ DiffEngine.chunks st)
    (DiffEngine.currentHunkLines st) (DiffEngine.currentStartLine st)
    (DiffEngine.hasAdditions st) (DiffEngine.hasDeletions st).

(** What the line loop maintains about start lines, hunk headers and the
    path of the block; [seen] is the number of hunk headers read so far. *)
Record hunk_inv (path : jsstring) (seen : nat) (st : DiffEngine.state)
    : Prop := mkHunkInv {
  inv_start :
    Forall (fun c => num_gtb (DiffChunk.startLine c) (Fin 0) = true)
      (DiffEngine.chunks st);
  inv_body :
    Forall (fun c =>
              forallb (fun l => negb (is_hunk_header l))
                (split_nl (DiffChunk.content c)) = true)
      (DiffEngine.chunks st);
  inv_path :
    Forall (fun c => DiffChunk.filePath c = path) (DiffEngine.chunks st);
  inv_lines_free : Forall nl_free (DiffEngine.currentHunkLines st);
  inv_lines_body :
    forallb (fun l => negb (is_hunk_header l))
      (DiffEngine.currentHunkLines st) = true;
  inv_open :
    DiffEngine.currentHunkLines st <> [] ->
    num_gtb (DiffEngine.currentStartLine st) (Fin 0) = true;
  inv_count :
    length (DiffEngine.chunks st)
    + (match DiffEngine.currentHunkLines st with [] => 0 | _ :: _ => 1 end)
    <= seen
}.

(** While a hunk is open, its header has been counted but no chunk has
    been pushed for it yet. *)
Definition pending_inv (seen : nat) (st : DiffEngine.state) : Prop :=
  num_gtb (DiffEngine.currentStartLine st) (Fin 0) = true ->
  length (DiffEngine.chunks st) < seen.



(* ===================================================================== *)
(** ** The review commands ([extension.ts]) *)
(* ===================================================================== *)

Module Extension.
(** [ReviewEngine.deepAnalyze] hands its arguments to the deep engine. *)
Definition deepAnalyze {S : Type} (copilot : CopilotService S)
    (prNumber : Z) (chunks : list DiffChunk.t)
    (changedFiles : list ChangedFile.t) (mode : ReviewMode) (st : S)
    : Exc InDepthAnalysis.t * S :=
  DeepAnalysisEngine.analyze copilot prNumber chunks changedFiles mode st.

(** The loop of the review commands:
    [for (const chunk of chunks) {
       results.push(await reviewEngine.reviewChunk(chunk, mode, modelId)) }].
    A rejection would leave the loop; the pause between two calls has no
    effect on the results. *)
Fixpoint reviewChunks {S : Type} (copilot : CopilotService S)
    (mode : ReviewMode) (modelId : option jsstring)
    (results : list ReviewResult.t) (chunks : list DiffChunk.t) (st : S)
    : Exc (list ReviewResult.t) * S :=
  match chunks with
  | [] => (Ret results, st)
  | chunk :: chunks' =>
      let (reviewed, st') :=
        ReviewEngine.reviewChunk copilot chunk mode modelId st in
      match reviewed with
      | Ret result =>
          reviewChunks copilot mode modelId (results ++ [result]) chunks' st'
      | Throw e => (Throw e, st')
      end
  end.



End Extension.

(** A property read of a parsed value that is neither [null] nor
    [undefined]. *)
Definition prop (v : JsValue) (k : jsstring) : JsValue :=
  match v with
  | JObj fs => Claimed.field fs k
  | _ => JUndefined
  end.

(** The greedy loop of a starred pattern, as [rmatch] runs it. *)
Definition star_iter
    (m : mstate -> (mstate -> option mstate) -> option mstate)
    (k : mstate -> option mstate) : nat -> mstate -> option mstate :=
  fix star (fuel : nat) (st0 : mstate) {struct fuel} : option mstate :=
    match fuel with
    | O => k st0
    | S fuel' =>
        match
          m st0
            (fun st' =>
               if length (rest st') <? length (rest st0)
               then star fuel' st'
               else None)
        with
        | Some res => Some res
        | None => k st0
        end
    end.

(** The three backquotes of a fence. *)
Definition ticks : jsstring := lit "```".

(** The number of lines of a chunk's content, and of a list of chunks. *)
Definition chunkLines (c : DiffChunk.t) : nat :=
  length (split_nl (DiffChunk.content c)).

Definition linesOf (cs : list DiffChunk.t) : nat :=
  fold_right (fun c n => chunkLines c + n) 0 cs.

(** The changed lines of a file: the lines of its chunks. *)
Definition fileSize (chunks : list DiffChunk.t) (p : jsstring) : nat :=
  linesOf (filter (of_file p) chunks).

(** An entry of the grouping map, reduced to its size. *)
Definition sized (kv : jsstring * list DiffChunk.t) : jsstring * nat :=
  (fst kv, linesOf (snd kv)).

(** The marker that ends a truncated summary. *)
Definition truncationMarker (omitted : nat) : jsstring :=
  nl ++ lit "... (" ++ nat_to_str omitted ++ lit " more chunks truncated)".

(** The total length of a list of strings. *)
Definition totalLength (parts : list jsstring) : nat :=
  fold_right (fun p n => length p + n) 0 parts.

(** The counts behind the test-coverage grade. *)
Definition testCount (changedFiles : list ChangedFile.t) : nat :=
  length (filter DeepAnalysisEngine.isTestFile changedFiles).

Definition nonTestCount (changedFiles : list ChangedFile.t) : nat :=
  length changedFiles - testCount changedFiles.


(** The code unit before the position reached by skipping the white
    space at the start of [s], [p] being the one before [s]. *)
Fixpoint skipPrev (p : option cu) (s : jsstring) : option cu :=
  match s with
  | c :: s' => if is_space c then skipPrev (Some c) s' else p
  | [] => p
  end.

(** A string that does not end in white space. *)
Fixpoint ends_nonspace (u : jsstring) : bool :=
  match u with
  | [] => true
  | c :: u' =>
      match u' with
      | [] => negb (is_space c)
      | _ :: _ => ends_nonspace u'
      end
  end.

(** A response wrapped in a fence: three backquotes and an optional
    language tag, the body on lines of its own, three backquotes. *)
Definition fenced (lang body : jsstring) : jsstring :=
  ticks ++ lang ++ nl ++ body ++ nl ++ ticks.

(** The continuation of the closing fence after its white space:
    three backquotes at the end of a line. *)
Definition closeTail (st : mstate) : option mstate :=
  rmatch flag_m (rSeq (rLit "```") rEol) st Some.

(* ===================================================================== *)
(** ** Concrete inputs *)
(* ===================================================================== *)

Module Ex.
(** A backend that answers every prompt in the same way. *)
Definition constService (answer : Exc jsstring) : CopilotService unit :=
  mkService (fun _ _ st => (answer, st)) (fun _ => None).

Definition lines (ls : list jsstring) : jsstring := join nl ls.

(** One file, one hunk: a context line, an added import, a removed line. *)
Definition diffModify : jsstring :=
  lines [lit "diff --git a/src/app.ts b/src/app.ts";
         lit "--- a/src/app.ts";
         lit "+++ b/src/app.ts";
         lit "@@ -1,2 +1,2 @@";
         lit " const a = 1;";
         lit "+import b from 'b';";
         lit "-const c = 2;"].

Definition chunkModify : DiffChunk.t :=
  DiffChunk.mk (lit "src/app.ts") modification (Fin 1) (Fin 3)
    (lines [lit " const a = 1;"; lit "+import b from 'b';";
            lit "-const c = 2;"])
    (DiffChunk.mkMetadata false false false).

(** One file, one hunk holding nothing but a context line. *)
Definition diffContextOnly : jsstring :=
  lines [lit "diff --git a/src/app.ts b/src/app.ts";
         lit "@@ -1 +1 @@";
         lit " const a = 1;"].

Definition chunkContextOnly : DiffChunk.t :=
  DiffChunk.mk (lit "src/app.ts") deletion (Fin 1) (Fin 1) (lit " const a = 1;")
    (DiffChunk.mkMetadata false false false).

(** One file, one hunk whose only line mentions [login]. *)
Definition diffLogin : jsstring :=
  lines [lit "diff --git a/src/app.ts b/src/app.ts";
         lit "@@ -0,0 +1 @@";
         lit "+login(user);"].

Definition chunkLogin : DiffChunk.t :=
  DiffChunk.mk (lit "src/app.ts") addition (Fin 1) (Fin 1) (lit "+login(user);")
    (DiffChunk.mkMetadata false false true).

(** One file, one hunk whose only line mentions [password] twice. *)
Definition diffPassword : jsstring :=
  lines [lit "diff --git a/src/app.ts b/src/app.ts";
         lit "@@ -0,0 +1 @@";
         lit "+check(password, Password);"].

Definition chunkPassword : DiffChunk.t :=
  DiffChunk.mk (lit "src/app.ts") addition (Fin 1) (Fin 1)
    (lit "+check(password, Password);")
    (DiffChunk.mkMetadata false false true).

Definition reportPassword : RiskReport.t :=
  RiskReport.mk (lit "src/app.ts") 10 low [RiskAnalyzer.keywordReason 2].

Definition reportLogin : RiskReport.t :=
  RiskReport.mk (lit "src/app.ts") 0 low [RiskAnalyzer.noRiskReason].

Definition chunkPlain : DiffChunk.t :=
  DiffChunk.mk (lit "a.ts") addition (Fin 3) (Fin 4) (lines [lit "+x"; lit "+y"])
    (DiffChunk.mkMetadata false false false).

(** A response that is JSON but not an object. *)
Definition rawNumber : jsstring := lit "42".

Definition rawNotJson : jsstring := lit "not json at all".

(** A schema-conforming response whose summary holds a line separator
    (U+2028) followed by three backquotes. *)
Definition summaryWithSeparator : jsstring :=
  lit "a" ++ [8232%N] ++ lit "```json b".

Definition rawWithSeparator : jsstring :=
  qlit "{'summary':'" ++ summaryWithSeparator
  ++ qlit "','riskLevel':'high','suggestions':[]}".

(** A decodable deep-analysis response with scores outside 0..100. *)
Definition rawOutOfRange : jsstring :=
  qlit "{'overallSummary':'ok','complexityScore':500,'qualityGrade':'b','categories':[{'name':'Security','score':500,'findings':[],'severity':'good'}]}".

Definition parsedWithSeparator : JsValue :=
  JObj [(lit "summary", JStr summaryWithSeparator);
        (lit "riskLevel", JStr (lit "high"));
        (lit "suggestions", JArr [])].

Definition categoryOutOfRange : JsValue :=
  JObj [(lit "name", JStr (lit "Security"));
        (lit "score", JNum (Fin 500));
        (lit "findings", JArr []);
        (lit "severity", JStr (lit "good"))].

Definition categoryClamped : JsValue :=
  JObj [(lit "name", JStr (lit "Security"));
        (lit "score", JNum (Fin 100));
        (lit "findings", JArr []);
        (lit "severity", JStr (lit "good"))].

Definition testFile : ChangedFile.t :=
  ChangedFile.mk (lit "src/app.test.ts") ChangedFile.added (Fin 10) (Fin 0).

(** One file, one hunk of two lines whose header gives the start line
    2^53 + 1, which is not a binary64 value. *)
Definition diffHuge : jsstring :=
  lines [lit "diff --git a/a.ts b/a.ts";
         lit "@@ -1 +9007199254740993,2 @@";
         lit "+x";
         lit "+y"].

Definition chunkHuge : DiffChunk.t :=
  DiffChunk.mk (lit "a.ts") addition
    (num_of_Z 9007199254740992) (num_of_Z 9007199254740992)
    (lines [lit "+x"; lit "+y"])
    (DiffChunk.mkMetadata false false false).

(** A backend whose call rejects with [null]. *)
Definition nullService : CopilotService unit :=
  constService (Throw (AValue JNull)).

(** A backend whose call rejects with [undefined]. *)
Definition undefinedService : CopilotService unit :=
  constService (Throw (AValue JUndefined)).

(** A backend whose call rejects with an [Error]. *)
Definition failingService : CopilotService unit :=
  constService (Throw (mkError (lit "no model"))).

(** A backend whose call rejects with a string. *)
Definition stringService : CopilotService unit :=
  constService (Throw (AValue (JStr (lit "boom")))).
End Ex.

(** Further concrete inputs. *)
Module Ex2.
(** An environment file under an authentication and a middleware
    directory. *)
Definition diffAuth : jsstring :=
  Ex.lines [lit "diff --git a/src/auth/middleware/app.env b/src/auth/middleware/app.env";
            lit "@@ -0,0 +1 @@";
            lit "+PORT=1"].

Definition chunkAuth : DiffChunk.t :=
  DiffChunk.mk (lit "src/auth/middleware/app.env") addition (Fin 1) (Fin 1)
    (lit "+PORT=1") (DiffChunk.mkMetadata false false false).

Definition reportAuth : RiskReport.t :=
  RiskReport.mk (lit "src/auth/middleware/app.env") 75 high
    [lit "File is in an authentication/authorization directory";
     lit "File may contain sensitive credentials or certificates";
     lit "File is middleware " ++ [8212%N]
     ++ lit " changes may affect request/response pipeline"].

(** A deleted file: the new-file range of its hunk starts at line 0. *)
Definition diffDeleted : jsstring :=
  Ex.lines [lit "diff --git a/old.ts b/old.ts";
            lit "deleted file mode 100644";
            lit "--- a/old.ts";
            lit "+++ /dev/null";
            lit "@@ -1,2 +0,0 @@";
            lit "-const a = 1;";
            lit "-const b = 2;"].
End Ex2.

(* ===================================================================== *)
(** * Properties *)
(* ===================================================================== *)

Unset Implicit Arguments.

(** ** Numbers *)

Lemma Qred_inject_Z z : Qred (inject_Z z) = inject_Z z.
Proof.
  unfold Qred, inject_Z.
  pose proof (Z.ggcd_correct_divisors z 1) as H.
  pose proof (Z.ggcd_gcd z 1) as Hg.
  destruct (Z.ggcd z 1) as [g [a b]]. cbn [fst snd] in *.
  rewrite Z.gcd_1_r in Hg. subst g. destruct H as [Ha Hb].
  rewrite Z.mul_1_l in Ha, Hb. subst a b. reflexivity.
Qed.

Lemma div_half_even_1 a : div_half_even a 1 = a.
Proof.
  unfold div_half_even. rewrite Z.mod_1_r, Z.div_1_r. reflexivity.
Qed.

Lemma binary64_exact_pos n :
  (0 < n <= 2 ^ 53)%Z -> binary64_pos n 1 = num_of_Z n.
Proof.
  intros [Hpos Hle].
  pose proof (Z.log2_spec n Hpos) as [Hlo Hhi].
  pose proof (Z.log2_nonneg n) as Hl0.
  assert (Hl53 : (Z.log2 n <= 53)%Z).
  { apply Z.log2_le_mono in Hle. rewrite Z.log2_pow2 in Hle by lia. exact Hle. }
  unfold binary64_pos, log2_floor.
  change (Z.log2 1) with 0%Z. rewrite Z.sub_0_r.
  destruct (0 <=? Z.log2 n)%Z eqn:E0; [|apply Z.leb_gt in E0; lia].
  rewrite Z.mul_1_l.
  destruct (2 ^ Z.log2 n <=? n)%Z eqn:E1; [|apply Z.leb_gt in E1; lia].
  rewrite Z.max_l by lia.
  set (l := Z.log2 n) in *.
  destruct (0 <=? l - 52)%Z eqn:Ee.
  - apply Z.leb_le in Ee.
    assert (Hc : (l = 52 \/ l = 53)%Z) by lia.
    destruct Hc as [Hc|Hc]; rewrite Hc.
    + change (52 - 52)%Z with 0%Z. change (2 ^ 0)%Z with 1%Z.
      rewrite Z.mul_1_l, div_half_even_1, Z.mul_1_r.
      destruct (971 <? 0)%Z eqn:E; [discriminate|].
      cbn [orb andb Z.eqb]. reflexivity.
    + assert (Hn : n = (2 ^ 53)%Z).
      { rewrite Hc in Hlo. lia. }
      subst n. vm_compute. reflexivity.
  - apply Z.leb_gt in Ee.
    rewrite div_half_even_1.
    destruct (971 <? l - 52)%Z eqn:E; [apply Z.ltb_lt in E; lia|].
    destruct (l - 52 =? 971)%Z eqn:E'; [apply Z.eqb_eq in E'; lia|].
    cbn [orb andb]. unfold num_of_Z. f_equal.
    rewrite <- (Qred_inject_Z n). apply Qred_complete.
    unfold Qeq. cbn [Qnum Qden inject_Z].
    rewrite Z2Pos.id by (apply Z.pow_pos_nonneg; lia). lia.
Qed.

(** Integers up to 2^53 are binary64 values. *)
Lemma binary64_exact n :
  (0 <= n <= 2 ^ 53)%Z -> binary64 (inject_Z n) = num_of_Z n.
Proof.
  intros [H0 Hle]. destruct n as [|p|p]; [reflexivity| |lia].
  unfold binary64. cbn [inject_Z Qnum Qden].
  apply binary64_exact_pos. split; [reflexivity | exact Hle].
Qed.

Lemma num_add_Z a b :
  num_add (num_of_Z a) (num_of_Z b) = binary64 (inject_Z (a + b)).
Proof.
  unfold num_add, num_of_Z, binary64, Qplus. cbn [inject_Z Qnum Qden].
  rewrite !Z.mul_1_r. reflexivity.
Qed.

Lemma num_sub_1 a :
  num_sub (num_of_Z a) (Fin 1) = binary64 (inject_Z (a - 1)).
Proof.
  unfold num_sub. change (num_neg (Fin 1)) with (num_of_Z (-1)).
  rewrite num_add_Z. reflexivity.
Qed.

(** The arithmetic of line numbers is exact up to 2^53. *)
Lemma endLine_exact start n :
  (0 <= start)%Z -> (start + Z.of_nat n <= 2 ^ 53)%Z -> 0 < n ->
  num_sub (num_add (num_of_Z start) (num_of_nat n)) (Fin 1)
  = num_of_Z (start + Z.of_nat n - 1).
Proof.
  intros H0 Hle Hn. unfold num_of_nat.
  rewrite num_add_Z, binary64_exact by lia.
  rewrite num_sub_1, binary64_exact by lia. reflexivity.
Qed.

Lemma num_gtb_Z z : num_gtb (num_of_Z z) (Fin 0) = true -> (1 <= z)%Z.
Proof.
  unfold num_gtb, num_of_Z, Qltb. intros H. apply negb_true_iff in H.
  destruct (Qle_bool (inject_Z z) 0) eqn:E; [discriminate|].
  destruct (Z_le_gt_dec z 0) as [Hle|Hgt]; [|lia].
  exfalso. assert (Hq : Qle_bool (inject_Z z) 0 = true).
  { apply Qle_bool_iff. unfold Qle. cbn [Qnum Qden inject_Z]. lia. }
  congruence.
Qed.

(** ** Lines and line feeds *)

Lemma split_nl_aux_nonempty cur s : split_nl_aux cur s <> [].
Proof.
  revert cur; induction s as [|c s IH]; intros cur; simpl.
  - discriminate.
  - destruct (c =? 10)%N; [discriminate | apply IH].
Qed.

Lemma split_nl_length_pos s : (1 <= length (split_nl s))%nat.
Proof.
  unfold split_nl.
  pose proof (split_nl_aux_nonempty [] s) as H.
  destruct (split_nl_aux [] s); [congruence | simpl; lia].
Qed.

Lemma split_nl_aux_free cur s :
  nl_free cur -> Forall nl_free (split_nl_aux cur s).
Proof.
  revert cur; induction s as [|c s IH]; intros cur Hcur; simpl.
  - constructor; [|constructor].
    unfold nl_free; rewrite <- in_rev; exact Hcur.
  - destruct (c =? 10)%N eqn:E.
    + constructor.
      * unfold nl_free; rewrite <- in_rev; exact Hcur.
      * apply IH; intros [].
    + apply IH. intros [H|H]; [|exact (Hcur H)].
      subst c; discriminate.
Qed.

Lemma split_nl_free s : Forall nl_free (split_nl s).
Proof. apply split_nl_aux_free; intros []. Qed.

Lemma split_nl_aux_skip x cur s :
  nl_free x -> split_nl_aux cur (x ++ s) = split_nl_aux (rev x ++ cur) s.
Proof.
  revert cur; induction x as [|c x IH]; intros cur Hx; simpl; [reflexivity|].
  destruct (c =? 10)%N eqn:E.
  - apply N.eqb_eq in E; subst c. exfalso; apply Hx; left; reflexivity.
  - rewrite IH by (intros H; apply Hx; right; exact H).
    rewrite <- app_assoc; reflexivity.
Qed.

(** Splitting a joined list of lines gives the lines back. *)
Lemma split_nl_join ls :
  ls <> [] -> Forall nl_free ls -> split_nl (join nl ls) = ls.
Proof.
  induction ls as [|a ls IH]; intros Hne Hfree; [congruence|].
  inversion Hfree as [|? ? Ha Hls]; subst.
  destruct ls as [|b ls'].
  - simpl. unfold split_nl.
    rewrite <- (app_nil_r a) at 1.
    rewrite split_nl_aux_skip by exact Ha.
    simpl. rewrite app_nil_r, rev_involutive; reflexivity.
  - change (join nl (a :: b :: ls')) with (a ++ nl ++ join nl (b :: ls')).
    unfold split_nl. rewrite split_nl_aux_skip by exact Ha.
    simpl. rewrite app_nil_r, rev_involutive. f_equal.
    apply IH; [discriminate | exact Hls].
Qed.

(** ** The diff parser *)

Section DiffEngineFacts.
Import DiffChunk DiffEngine.


Lemma added_not_removed line : is_added line = true -> is_removed line = false.
Proof.
  unfold is_added, is_removed.
  destruct line as [|c line]; simpl; [discriminate|].
  unfold cu_eqb.
  destruct (c =? 43)%N eqn:E; simpl; [|discriminate].
  apply N.eqb_eq in E; subst c; reflexivity.
Qed.

Lemma flushHunk_closed path st : currentHunkLines (flushHunk path st) = [].
Proof.
  unfold flushHunk. destruct (currentHunkLines st) eqn:E;
    [exact E | reflexivity].
Qed.

Lemma flushHunk_ok filePath st : state_ok st -> state_ok (flushHunk filePath st).
Proof.
  intros [Hc Hl Ha Hd Ho]. unfold flushHunk.
  destruct (currentHunkLines st) as [|l ls] eqn:E; [constructor; rewrite ?E; assumption|].
  constructor; cbn [chunks currentHunkLines hasAdditions hasDeletions];
    try reflexivity; [|constructor|intros H; congruence].
  apply Forall_app; split; [exact Hc|].
  constructor; [|constructor].
  assert (Hs : split_nl (join nl (l :: ls)) = l :: ls)
    by (apply split_nl_join; [discriminate | exact Hl]).
  constructor; cbn [endLine startLine content type].
  - rewrite Hs; reflexivity.
  - unfold Claimed.hasAddedLine, Claimed.hasRemovedLine.
    rewrite Hs, <- Ha, <- Hd; reflexivity.
  - apply Ho; discriminate.
Qed.

Lemma processLine_ok filePath st line :
  nl_free line -> state_ok st -> state_ok (processLine filePath st line).
Proof.
  intros Hline Hst. unfold processLine.
  destruct (re_match noFlags hunkPattern line) as [m|].
  - destruct (flushHunk_ok filePath st Hst) as [Hc Hl Ha Hd Ho].
    constructor; try assumption.
    cbn [currentHunkLines]. rewrite flushHunk_closed. intros H; congruence.
  - destruct (num_gtb (currentStartLine st) (Fin 0)) eqn:Eg; [|exact Hst].
    destruct Hst as [Hc Hl Ha Hd Ho].
    constructor;
      cbn [chunks currentHunkLines currentStartLine hasAdditions
           hasDeletions];
      [| | | |intros _; exact Eg].
    + exact Hc.
    + apply Forall_app; split; [exact Hl | constructor; [exact Hline | constructor]].
    + rewrite existsb_app, <- Ha; simpl.
      destruct (is_added line), (hasAdditions st); reflexivity.
    + rewrite existsb_app, <- Hd; simpl.
      destruct (is_added line) eqn:EA.
      * rewrite (added_not_removed line EA).
        destruct (hasDeletions st); reflexivity.
      * destruct (is_removed line), (hasDeletions st); reflexivity.
Qed.

Lemma fold_processLine_ok filePath lines st :
  Forall nl_free lines -> state_ok st ->
  state_ok (fold_left (processLine filePath) lines st).
Proof.
  revert st; induction lines as [|l lines IH]; intros st Hl Hst; simpl.
  - exact Hst.
  - inversion Hl; subst. apply IH; [assumption|].
    apply processLine_ok; assumption.
Qed.

Lemma parseBlock_ok acc block :
  Forall chunk_ok acc -> Forall chunk_ok (parseBlock acc block).
Proof.
  intros Hacc. unfold parseBlock.
  destruct (re_match noFlags re_filePath (hd [] (split_nl block))) as [m|];
    [|exact Hacc].
  apply ok_chunks, flushHunk_ok, fold_processLine_ok.
  - apply split_nl_free.
  - constructor; simpl; try reflexivity;
      [exact Hacc | constructor | intros H; congruence].
Qed.

Lemma fold_parseBlock_ok blocks acc :
  Forall chunk_ok acc -> Forall chunk_ok (fold_left parseBlock blocks acc).
Proof.
  revert acc; induction blocks as [|b blocks IH]; intros acc Hacc; simpl.
  - exact Hacc.
  - apply IH, parseBlock_ok, Hacc.
Qed.

Lemma parse_chunks_ok diff : Forall chunk_ok (parse diff).
Proof.
  unfold parse.
  destruct (negb (nonempty diff) || negb (nonempty (trim diff))).
  - constructor.
  - apply fold_parseBlock_ok; constructor.
Qed.
End DiffEngineFacts.

Section DiffEngineClaims.
Import DiffChunk.

(** C4, as stated, fails: line numbers are binary64 Numbers.  The
    header of this hunk gives the start line 2^53 + 1, which [parseInt]
    rounds to 2^53, and the end line [2^53 + 2 - 1] is rounded to 2^53
    as well: the chunk has two lines, yet
    the end line is not [startLine + 2 - 1]. *)
Lemma parse_line_range_counterexample :
  In Ex.chunkHuge (DiffEngine.parse Ex.diffHuge)
  /\ length (split_nl (content Ex.chunkHuge)) = 2
  /\ startLine Ex.chunkHuge = num_of_Z (2 ^ 53)
  /\ endLine Ex.chunkHuge = num_of_Z (2 ^ 53)
  /\ endLine Ex.chunkHuge
     <> num_of_Z (2 ^ 53
                  + Z.of_nat (length (split_nl (content Ex.chunkHuge)))
                  - 1).
Proof.
  split; [vm_compute; left; reflexivity|].
  split; [vm_compute; reflexivity|].
  split; [vm_compute; reflexivity|].
  split; [vm_compute; reflexivity|].
  vm_compute. discriminate.
Qed.

(** C4, amended. For every chunk produced by [parse] whose start line
    is an integer [start] with [start + lines <= 2^53], [lines] being
    the number of lines of the stored content: [1 <= start],
    [startLine <= endLine] and [endLine = start + lines - 1], so that
    [endLine - startLine + 1] is the number of lines.  Up to 2^53 the
    Number arithmetic of the parser is exact. *)
Theorem parse_line_range :
  forall (diff : jsstring) (c : DiffChunk.t) (start : Z),
    In c (DiffEngine.parse diff) ->
    startLine c = num_of_Z start ->
    (start + Z.of_nat (length (split_nl (content c))) <= 2 ^ 53)%Z ->
    (1 <= start)%Z
    /\ (start <= start + Z.of_nat (length (split_nl (content c))) - 1)%Z
    /\ endLine c
       = num_of_Z (start + Z.of_nat (length (split_nl (content c))) - 1).
Proof.
  intros diff c start Hin Hstart Hsafe.
  pose proof (parse_chunks_ok diff) as Hall.
  rewrite Forall_forall in Hall.
  destruct (Hall c Hin) as [Hend _ Hpos].
  pose proof (split_nl_length_pos (content c)) as Hlen.
  rewrite Hstart in Hpos. apply num_gtb_Z in Hpos.
  split; [exact Hpos|]. split; [lia|].
  rewrite Hend, Hstart. apply endLine_exact; lia.
Qed.

Lemma parse_line_range_witness :
  In Ex.chunkModify (DiffEngine.parse Ex.diffModify)
  /\ startLine Ex.chunkModify = num_of_Z 1
  /\ (1 + Z.of_nat (length (split_nl (content Ex.chunkModify)))
      <= 2 ^ 53)%Z
  /\ (1 <= 1)%Z
  /\ (1 <= 1 + Z.of_nat (length (split_nl (content Ex.chunkModify))) - 1)%Z
  /\ endLine Ex.chunkModify
     = num_of_Z
         (1 + Z.of_nat (length (split_nl (content Ex.chunkModify))) - 1).
Proof.
  split; [vm_compute; left; reflexivity|].
  split; [reflexivity|].
  split; [vm_compute; discriminate|].
  apply (parse_line_range Ex.diffModify Ex.chunkModify 1).
  - vm_compute; left; reflexivity.
  - reflexivity.
  - vm_compute; discriminate.
Defined.

(** C5, as stated, fails: a hunk holding only context lines is pushed
    with kind [deletion] although its text has no removed line. *)
Lemma parse_kind_counterexample :
  In Ex.chunkContextOnly (DiffEngine.parse Ex.diffContextOnly)
  /\ ~ (type Ex.chunkContextOnly = deletion
        <-> (Claimed.hasRemovedLine (content Ex.chunkContextOnly) = true
             /\ Claimed.hasAddedLine (content Ex.chunkContextOnly) = false)).
Proof.
  split.
  - vm_compute; left; reflexivity.
  - intros [H _]. destruct (H eq_refl) as [Habs _].
    vm_compute in Habs; discriminate.
Qed.

(** C5, amended. For every chunk produced by [parse]: the kind is
    [modification] iff the text has an added line ([+], not [+++]) and a
    removed line ([-], not [---]); it is [addition] iff the text has an
    added line and no removed line; it is [deletion] iff the text has no
    added line, whether or not it has a removed one. *)
Theorem parse_kind :
  forall (diff : jsstring) (c : DiffChunk.t),
    In c (DiffEngine.parse diff) ->
    (type c = modification
     <-> Claimed.hasAddedLine (content c) = true
         /\ Claimed.hasRemovedLine (content c) = true)
    /\ (type c = addition
        <-> Claimed.hasAddedLine (content c) = true
            /\ Claimed.hasRemovedLine (content c) = false)
    /\ (type c = deletion
        <-> Claimed.hasAddedLine (content c) = false).
Proof.
  intros diff c Hin.
  pose proof (parse_chunks_ok diff) as Hall.
  rewrite Forall_forall in Hall.
  destruct (Hall c Hin) as [_ Hty _].
  rewrite Hty.
  destruct (Claimed.hasAddedLine (content c)),
           (Claimed.hasRemovedLine (content c)); cbn;
    repeat split; intros; try discriminate; try tauto;
    match goal with
    | H : _ /\ _ |- _ => destruct H; discriminate
    end.
Qed.

Lemma parse_kind_witness :
  In Ex.chunkModify (DiffEngine.parse Ex.diffModify)
  /\ (type Ex.chunkModify = modification
      <-> Claimed.hasAddedLine (content Ex.chunkModify) = true
          /\ Claimed.hasRemovedLine (content Ex.chunkModify) = true)
  /\ (type Ex.chunkModify = addition
      <-> Claimed.hasAddedLine (content Ex.chunkModify) = true
          /\ Claimed.hasRemovedLine (content Ex.chunkModify) = false)
  /\ (type Ex.chunkModify = deletion
      <-> Claimed.hasAddedLine (content Ex.chunkModify) = false).
Proof.
  split.
  - vm_compute; left; reflexivity.
  - apply (parse_kind Ex.diffModify Ex.chunkModify).
    vm_compute; left; reflexivity.
Defined.

(** C6 on a concrete diff: the second line of the hunk adds an import,
    yet the chunk's [containsImportChange] flag is false, because the
    pattern is anchored at the start of the whole hunk text. *)
Theorem import_flag_ignores_later_lines :
  DiffEngine.parse Ex.diffModify = [Ex.chunkModify]
  /\ containsImportChange (metadata Ex.chunkModify) = false
  /\ Claimed.containsImportChange (content Ex.chunkModify) = true.
Proof.
  split.
  - vm_compute; reflexivity.
  - split; vm_compute; reflexivity.
Qed.
End DiffEngineClaims.

(** ** Grouping by file *)

Lemma str_eqb_eq a b : str_eqb a b = true <-> a = b.
Proof.
  revert b; induction a as [|x a IH]; intros [|y b]; simpl;
    try (split; [discriminate | congruence]); [tauto|].
  unfold cu_eqb. rewrite andb_true_iff, N.eqb_eq, IH.
  split; [intros [-> ->]; reflexivity | intros H; inversion H; auto].
Qed.

Lemma str_eqb_refl a : str_eqb a a = true.
Proof. apply str_eqb_eq; reflexivity. Qed.

Lemma str_eqb_neq a b : str_eqb a b = false <-> a <> b.
Proof.
  rewrite <- str_eqb_eq. destruct (str_eqb a b); split; congruence.
Qed.

Lemma str_eqb_sym a b : str_eqb a b = str_eqb b a.
Proof.
  destruct (str_eqb a b) eqn:E.
  - apply str_eqb_eq in E; subst; symmetry; apply str_eqb_refl.
  - symmetry; apply str_eqb_neq; apply str_eqb_neq in E; congruence.
Qed.

Lemma filter_filter {A : Type} (f g : A -> bool) (l : list A) :
  filter f (filter g l) = filter (fun x => g x && f x) l.
Proof.
  induction l as [|x l IH]; simpl; [reflexivity|].
  destruct (g x); simpl; [destruct (f x)|]; rewrite IH; reflexivity.
Qed.

Section Grouping.
Import RiskAnalyzer.

Lemma not_in_spec ks q : not_in ks q = true <-> ~ In q ks.
Proof.
  unfold not_in. rewrite negb_true_iff.
  split.
  - intros H Hin.
    assert (existsb (str_eqb q) ks = true)
      by (apply existsb_exists; exists q; split; [exact Hin | apply str_eqb_refl]).
    congruence.
  - intros H. destruct (existsb (str_eqb q) ks) eqn:E; [|reflexivity].
    apply existsb_exists in E. destruct E as [x [Hx Hq]].
    apply str_eqb_eq in Hq; subst; contradiction.
Qed.

Lemma fileMap_add_new m c :
  ~ In (DiffChunk.filePath c) (keys m) ->
  fileMap_add m c = m ++ [(DiffChunk.filePath c, [c])].
Proof.
  induction m as [|[k v] m IH]; simpl; intros Hn; [reflexivity|].
  destruct (str_eqb k (DiffChunk.filePath c)) eqn:E.
  - apply str_eqb_eq in E; subst k. exfalso; apply Hn; left; reflexivity.
  - rewrite IH; [reflexivity | intros H; apply Hn; right; exact H].
Qed.

Lemma fileMap_add_old m c :
  NoDup (keys m) -> In (DiffChunk.filePath c) (keys m) ->
  fileMap_add m c
  = map (fun kv => (fst kv, snd kv ++ filter (of_file (fst kv)) [c])) m.
Proof.
  induction m as [|[k v] m IH]; simpl; intros Hnd Hin; [contradiction|].
  inversion Hnd as [|? ? Hk Hnd']; subst.
  unfold of_file at 1.
  destruct (str_eqb k (DiffChunk.filePath c)) eqn:E.
  - apply str_eqb_eq in E; subst k. f_equal.
    rewrite <- (map_id m) at 1. apply map_ext_in.
    intros [k' v'] Hin'. simpl. unfold of_file.
    destruct (str_eqb k' (DiffChunk.filePath c)) eqn:E'.
    + apply str_eqb_eq in E'; subst k'.
      exfalso; apply Hk. apply (in_map fst) in Hin'; exact Hin'.
    + rewrite app_nil_r; reflexivity.
  - rewrite app_nil_r. f_equal. apply IH; [exact Hnd'|].
    destruct Hin as [Hin|Hin]; [|exact Hin].
    simpl in Hin; subst k. rewrite str_eqb_refl in E; discriminate.
Qed.

Lemma keys_fileMap_add_NoDup m c :
  NoDup (keys m) -> NoDup (keys (fileMap_add m c)).
Proof.
  intros Hnd.
  destruct (in_dec (list_eq_dec N.eq_dec) (DiffChunk.filePath c) (keys m))
    as [Hin|Hn].
  - rewrite fileMap_add_old by assumption.
    unfold keys. rewrite map_map. simpl. exact Hnd.
  - rewrite fileMap_add_new by assumption.
    unfold keys. rewrite map_app. simpl.
    apply NoDup_app; [exact Hnd | repeat constructor; intros [] | ].
    intros x Hx [Hx'|[]]; subst; contradiction.
Qed.

Lemma firstSeen_not_in_old ks p l :
  In p ks ->
  filter (not_in ks) (filter (fun q => negb (str_eqb p q)) l)
  = filter (not_in ks) l.
Proof.
  intros Hin. rewrite filter_filter. apply filter_ext.
  intros q. destruct (str_eqb p q) eqn:E; [|reflexivity].
  apply str_eqb_eq in E; subst q. simpl.
  symmetry. apply not_true_is_false. rewrite not_in_spec; tauto.
Qed.

Lemma firstSeen_not_in_new ks p l :
  filter (not_in (ks ++ [p])) l
  = filter (not_in ks) (filter (fun q => negb (str_eqb p q)) l).
Proof.
  rewrite filter_filter. apply filter_ext.
  intros q. unfold not_in. rewrite existsb_app; simpl.
  rewrite orb_false_r, negb_orb, (str_eqb_sym q p).
  apply andb_comm.
Qed.

(** The map after a run of insertions: the old entries extended, then
    the new files in the order in which they were first seen. *)
Lemma fold_fileMap_add cs :
  forall m, NoDup (keys m) ->
    fold_left fileMap_add cs m
    = map (extend cs) m
      ++ map (fresh cs)
           (filter (not_in (keys m))
              (Claimed.firstSeen (map DiffChunk.filePath cs))).
Proof.
  induction cs as [|c cs IH]; intros m Hnd.
  - simpl. rewrite app_nil_r.
    rewrite <- (map_id m) at 1. apply map_ext.
    intros [k v]; unfold extend; simpl; rewrite app_nil_r; reflexivity.
  - cbn [fold_left map Claimed.firstSeen].
    rewrite IH by (apply keys_fileMap_add_NoDup; exact Hnd).
    set (p := DiffChunk.filePath c).
    destruct (in_dec (list_eq_dec N.eq_dec) p (keys m)) as [Hin|Hn].
    + rewrite (fileMap_add_old m c Hnd Hin).
      assert (Hk : keys (map (fun kv : jsstring * list DiffChunk.t =>
                   (fst kv, snd kv ++ filter (of_file (fst kv)) [c])) m)
                   = keys m)
        by (unfold keys; rewrite map_map; reflexivity).
      rewrite Hk. cbn [filter].
      assert (Hp : not_in (keys m) p = false)
        by (apply not_true_is_false; rewrite not_in_spec; tauto).
      rewrite Hp, firstSeen_not_in_old by exact Hin.
      f_equal.
      * rewrite map_map. apply map_ext. intros [k v]. unfold extend; simpl.
        rewrite <- app_assoc. f_equal. f_equal.
        destruct (of_file k c); reflexivity.
      * apply map_ext_in. intros q Hq. apply filter_In in Hq.
        destruct Hq as [_ Hq]. apply not_in_spec in Hq.
        unfold fresh; simpl. unfold of_file at 2. fold p.
        destruct (str_eqb q p) eqn:E; [|reflexivity].
        apply str_eqb_eq in E; subst q; contradiction.
    + rewrite (fileMap_add_new m c Hn). fold p.
      assert (Hk : keys (m ++ [(p, [c])]) = keys m ++ [p])
        by (unfold keys; rewrite map_app; reflexivity).
      rewrite Hk, firstSeen_not_in_new.
      cbn [filter].
      assert (Hp : not_in (keys m) p = true) by (apply not_in_spec; exact Hn).
      rewrite Hp. rewrite map_app. cbn [map].
      rewrite <- app_assoc. cbn [app].
      f_equal.
      * apply map_ext_in. intros [k v] Hkv. unfold extend; simpl.
        unfold of_file at 2. fold p.
        destruct (str_eqb k p) eqn:E; [|reflexivity].
        apply str_eqb_eq in E; subst k.
        exfalso; apply Hn. apply (in_map fst) in Hkv; exact Hkv.
      * f_equal.
        -- unfold extend, fresh; simpl. unfold of_file at 2. fold p.
           rewrite str_eqb_refl. reflexivity.
        -- apply map_ext_in. intros q Hq. apply filter_In in Hq.
           destruct Hq as [Hq _]. apply filter_In in Hq.
           destruct Hq as [_ Hq]. unfold fresh; simpl.
           unfold of_file at 2. fold p.
           rewrite str_eqb_sym.
           apply negb_true_iff in Hq. rewrite Hq. reflexivity.
Qed.

(** [groupByFile] lists every file once, in first-seen order, with the
    file's chunks in their original order. *)
Lemma groupByFile_spec chunks :
  groupByFile chunks
  = map (fresh chunks) (Claimed.firstSeen (map DiffChunk.filePath chunks)).
Proof.
  unfold groupByFile. rewrite fold_fileMap_add by constructor.
  simpl. f_equal. 
  rewrite <- (filter_ext (fun _ => true)) by reflexivity.
  clear. induction (Claimed.firstSeen (map DiffChunk.filePath chunks));
    simpl; congruence.
Qed.
End Grouping.

(** ** Stable sorting *)

Section SortFacts.
Variable A : Type.
Variable key : A -> Z.


Lemma sort_insert_perm x l : Permutation (sort_insert (descending key) x l) (x :: l).
Proof.
  induction l as [|y l IH]; simpl; [apply Permutation_refl|].
  destruct (descending key x y <=? 0)%Z; [apply Permutation_refl|].
  apply perm_trans with (y :: x :: l); [|apply perm_swap].
  apply perm_skip, IH.
Qed.

Lemma sort_perm l : Permutation (sort (descending key) l) l.
Proof.
  induction l as [|x l IH]; simpl; [constructor|].
  apply perm_trans with (x :: sort (descending key) l);
    [apply sort_insert_perm | apply perm_skip, IH].
Qed.

Lemma sort_insert_sorted x l :
  StronglySorted (ge_key key) l -> StronglySorted (ge_key key) (sort_insert (descending key) x l).
Proof.
  induction l as [|y l IH]; intros Hs; simpl.
  - repeat constructor.
  - inversion Hs as [|? ? Hl Hy]; subst.
    destruct (descending key x y <=? 0)%Z eqn:E.
    + apply Z.leb_le in E. unfold descending in E.
      constructor; [exact Hs|].
      constructor; [unfold ge_key; lia|].
      eapply Forall_impl; [|exact Hy].
      unfold ge_key; intros z Hz; lia.
    + apply Z.leb_gt in E. unfold descending in E.
      constructor; [apply IH; exact Hl|].
      eapply Permutation_Forall;
        [apply Permutation_sym, sort_insert_perm|].
      constructor; [unfold ge_key; lia | exact Hy].
Qed.

Lemma sort_sorted l : StronglySorted (ge_key key) (sort (descending key) l).
Proof.
  induction l as [|x l IH]; simpl; [constructor|].
  apply sort_insert_sorted, IH.
Qed.

(** Elements of equal key keep their relative order. *)
Lemma sort_insert_stable s x l :
  filter (fun a => key a =? s)%Z (sort_insert (descending key) x l)
  = filter (fun a => key a =? s)%Z (x :: l).
Proof.
  induction l as [|y l IH]; simpl; [reflexivity|].
  destruct (descending key x y <=? 0)%Z eqn:E; [reflexivity|].
  apply Z.leb_gt in E. unfold descending in E.
  simpl. rewrite IH. simpl.
  destruct (key x =? s)%Z eqn:Ex, (key y =? s)%Z eqn:Ey; try reflexivity.
  apply Z.eqb_eq in Ex, Ey. lia.
Qed.

Lemma sort_stable s l :
  filter (fun a => key a =? s)%Z (sort (descending key) l)
  = filter (fun a => key a =? s)%Z l.
Proof.
  induction l as [|x l IH]; simpl; [reflexivity|].
  rewrite sort_insert_stable. simpl. rewrite IH. reflexivity.
Qed.

Lemma filter_key_head s a l :
  key a = s ->
  filter (fun x => key x =? s)%Z (a :: l)
  = a :: filter (fun x => key x =? s)%Z l.
Proof. intros <-. simpl. rewrite Z.eqb_refl. reflexivity. Qed.

Lemma head_key_ge a b l l' :
  Forall (ge_key key b) l' ->
  filter (fun x => key x =? key a)%Z (a :: l)
  = filter (fun x => key x =? key a)%Z (b :: l') ->
  (key b >= key a)%Z.
Proof.
  intros Hb H. rewrite (filter_key_head (key a) a l eq_refl) in H.
  assert (Hin : In a (filter (fun x => key x =? key a)%Z (b :: l')))
    by (rewrite <- H; left; reflexivity).
  apply filter_In in Hin. destruct Hin as [[<-|Hin] _]; [lia|].
  rewrite Forall_forall in Hb. exact (Hb a Hin).
Qed.

(** A list that is sorted and keeps elements of equal key in their
    original order is determined: every stable sort computes it. *)
Lemma sorted_stable_unique l1 :
  forall l2,
    StronglySorted (ge_key key) l1 -> StronglySorted (ge_key key) l2 ->
    (forall s, filter (fun x => key x =? s)%Z l1
               = filter (fun x => key x =? s)%Z l2) ->
    l1 = l2.
Proof.
  induction l1 as [|a l1 IH]; intros [|b l2] H1 H2 H.
  - reflexivity.
  - specialize (H (key b)).
    rewrite (filter_key_head (key b) b l2 eq_refl) in H. discriminate.
  - specialize (H (key a)).
    rewrite (filter_key_head (key a) a l1 eq_refl) in H. discriminate.
  - inversion H1 as [|? ? Hs1 Ha]; inversion H2 as [|? ? Hs2 Hb]; subst.
    assert (Hk : key a = key b).
    { pose proof (head_key_ge a b l1 l2 Hb (H (key a))).
      pose proof (head_key_ge b a l2 l1 Ha (eq_sym (H (key b)))). lia. }
    pose proof (H (key a)) as Hh.
    rewrite (filter_key_head (key a) a l1 eq_refl) in Hh.
    rewrite (filter_key_head (key a) b l2 (eq_sym Hk)) in Hh.
    injection Hh as <- Ht. f_equal.
    apply IH; [exact Hs1 | exact Hs2 |].
    intros s. destruct (Z.eq_dec (key a) s) as [<-|Hne]; [exact Ht|].
    specialize (H s). simpl in H.
    apply Z.eqb_neq in Hne. rewrite Hne in H. exact H.
Qed.

Lemma stable_sort_unique l l' :
  StronglySorted (ge_key key) l' ->
  (forall s, filter (fun x => key x =? s)%Z l'
             = filter (fun x => key x =? s)%Z l) ->
  l' = sort (descending key) l.
Proof.
  intros Hs Hst. apply sorted_stable_unique;
    [exact Hs | apply sort_sorted |].
  intros s. rewrite Hst, sort_stable. reflexivity.
Qed.
End SortFacts.

(** ** The risk scorer *)

Section RiskFacts.
Import RiskAnalyzer.

Lemma fold_fire rs :
  forall st,
    fold_left fire rs st = ((fst st + total rs)%Z, snd st ++ reasonsOf rs).
Proof.
  induction rs as [|r rs IH]; intros [s ws]; simpl.
  - rewrite Z.add_0_r, app_nil_r; reflexivity.
  - rewrite IH. destruct r as [[p why]|]; simpl.
    + rewrite <- app_assoc. f_equal. lia.
    + reflexivity.
Qed.

Lemma when_positive cond p why : (0 < p)%Z -> positive (when cond p why).
Proof. intros Hp; unfold when; destruct cond; simpl; auto. Qed.

Lemma rules_positive path cs : Forall positive (rules path cs).
Proof.
  unfold rules.
  repeat (apply Forall_cons); try (apply when_positive; lia);
    try apply Forall_nil.
  - unfold keywordRule, when.
    destruct (0 <? authMatches cs) eqn:E; simpl; [|exact I].
    apply Nat.ltb_lt in E. lia.
  - unfold deletionRule.
    destruct (50 <? totalDeletions cs); simpl; [lia|].
    destruct (20 <? totalDeletions cs); simpl; [lia | exact I].
  - unfold importRule, when.
    destruct (0 <? importChanges cs) eqn:E; simpl; [|exact I].
    apply Nat.ltb_lt in E. lia.
Qed.

Lemma total_nonneg rs : Forall positive rs -> (0 <= total rs)%Z.
Proof.
  induction 1 as [|r rs Hr _ IH]; simpl; [lia|].
  destruct r as [[p why]|]; simpl in *; lia.
Qed.

Lemma total_zero rs :
  Forall positive rs -> total rs = 0%Z -> reasonsOf rs = [].
Proof.
  induction 1 as [|r rs Hr Hrs IH]; simpl; [reflexivity|].
  pose proof (total_nonneg rs Hrs).
  destruct r as [[p why]|]; simpl in *; intros; [lia | apply IH; lia].
Qed.

Lemma total_rules path cs :
  total (rules path cs) = (otherPoints path cs + points (keywordRule cs))%Z.
Proof. unfold total, rules, otherPoints; simpl; lia. Qed.

(** The report of one file in closed form. *)
Lemma analyzeFile_eq path cs :
  analyzeFile (path, cs)
  = RiskReport.mk path
      (Z.min (total (rules path cs)) 100)
      (levelOf (Z.min (total (rules path cs)) 100))
      (match reasonsOf (rules path cs) with
       | [] => [noRiskReason]
       | w :: ws => w :: ws
       end).
Proof.
  unfold analyzeFile. rewrite fold_fire. cbn [fst snd app].
  destruct (reasonsOf (rules path cs)); reflexivity.
Qed.

Lemma levelOf_spec s :
  (levelOf s = high <-> (60 <= s)%Z)
  /\ (levelOf s = medium <-> (30 <= s < 60)%Z)
  /\ (levelOf s = low <-> (s < 30)%Z).
Proof.
  unfold levelOf. rewrite !Z.geb_leb.
  destruct (60 <=? s)%Z eqn:E1;
    [apply Z.leb_le in E1
    |apply Z.leb_gt in E1; destruct (30 <=? s)%Z eqn:E2;
     [apply Z.leb_le in E2 | apply Z.leb_gt in E2]];
    repeat split; intros; try discriminate; try lia; try reflexivity.
Qed.

Lemma analyzeFile_ok entry : report_ok (analyzeFile entry).
Proof.
  destruct entry as [path cs]. rewrite analyzeFile_eq.
  pose proof (rules_positive path cs) as Hpos.
  pose proof (total_nonneg _ Hpos) as Hnn.
  unfold report_ok; cbn [RiskReport.score RiskReport.level RiskReport.reasons].
  split; [lia|].
  destruct (levelOf_spec (Z.min (total (rules path cs)) 100)) as [H1 [H2 H3]].
  split; [exact H1|]. split; [exact H2|]. split; [exact H3|]. split.
  - destruct (reasonsOf (rules path cs)); discriminate.
  - intros Hz. rewrite (total_zero _ Hpos); [reflexivity | lia].
Qed.

Lemma analyzeFile_path entry :
  RiskReport.filePath (analyzeFile entry) = fst entry.
Proof. destruct entry as [path cs]; rewrite analyzeFile_eq; reflexivity. Qed.

Lemma reportsUnsorted_paths chunks :
  map RiskReport.filePath (reportsUnsorted chunks)
  = Claimed.firstSeen (map DiffChunk.filePath chunks).
Proof.
  unfold reportsUnsorted. rewrite groupByFile_spec, !map_map.
  rewrite <- (map_id (Claimed.firstSeen _)) at 2.
  apply map_ext. intros p. apply analyzeFile_path.
Qed.

(** Every report is the report of one file and of all its chunks. *)
Lemma analyze_In chunks r :
  In r (analyze chunks) ->
  r = analyzeFile (RiskReport.filePath r,
                   filter (of_file (RiskReport.filePath r)) chunks).
Proof.
  unfold analyze. intros Hin.
  apply (Permutation_in _ (sort_perm _ RiskReport.score _)) in Hin.
  unfold reportsUnsorted in Hin. rewrite groupByFile_spec, map_map in Hin.
  apply in_map_iff in Hin. destruct Hin as [p [Hr _]].
  subst r. rewrite analyzeFile_path. reflexivity.
Qed.
End RiskFacts.

Section RiskClaims.
Import RiskAnalyzer.

(** C3. For every list of chunks, every report returned by [analyze] has
    an integer score between 0 and 100; its level is [high] exactly when
    the score is at least 60, [medium] exactly when it is at least 30 and
    below 60, and [low] otherwise; its reasons are never empty, and
    consist of the single placeholder when no rule fired (score 0).  The
    list is sorted by descending score, and reports of equal score keep
    the order in which their files were first seen in the input. *)
Theorem analyze_reports :
  forall chunks : list DiffChunk.t,
    Forall
      (fun r =>
         (0 <= RiskReport.score r <= 100)%Z
         /\ (RiskReport.level r = high <-> (60 <= RiskReport.score r)%Z)
         /\ (RiskReport.level r = medium
             <-> (30 <= RiskReport.score r < 60)%Z)
         /\ (RiskReport.level r = low <-> (RiskReport.score r < 30)%Z)
         /\ RiskReport.reasons r <> []
         /\ (RiskReport.score r = 0%Z
             -> RiskReport.reasons r = [noRiskReason]))
      (analyze chunks)
    /\ StronglySorted
         (fun a b => (RiskReport.score a >= RiskReport.score b)%Z)
         (analyze chunks)
    /\ Permutation (analyze chunks) (reportsUnsorted chunks)
    /\ map RiskReport.filePath (reportsUnsorted chunks)
       = Claimed.firstSeen (map DiffChunk.filePath chunks)
    /\ (forall s : Z,
          filter (fun r => (RiskReport.score r =? s)%Z) (analyze chunks)
          = filter (fun r => (RiskReport.score r =? s)%Z)
              (reportsUnsorted chunks)).
Proof.
  intros chunks. unfold analyze.
  split; [|split; [|split; [|split]]].
  - eapply Permutation_Forall;
      [apply Permutation_sym, (sort_perm _ RiskReport.score)|].
    unfold reportsUnsorted. apply Forall_map, Forall_forall.
    intros entry _. apply (analyzeFile_ok entry).
  - apply (sort_sorted _ RiskReport.score).
  - apply (sort_perm _ RiskReport.score).
  - apply reportsUnsorted_paths.
  - intros s. apply (sort_stable _ RiskReport.score).
Qed.

(** C7, as stated, fails: a text whose only security keyword is [login]
    holds one match of the stated vocabulary, yet the file's score is 0
    rather than 5 and the placeholder reason is reported. *)
Lemma keyword_rule_counterexample :
  DiffEngine.parse Ex.diffLogin = [Ex.chunkLogin]
  /\ Claimed.keywordCount (allContent [Ex.chunkLogin]) = 1
  /\ analyze [Ex.chunkLogin] = [Ex.reportLogin]
  /\ RiskReport.score Ex.reportLogin
     <> Z.min (5 * Z.of_nat (Claimed.keywordCount (allContent [Ex.chunkLogin])))
          20.
Proof.
  split; [vm_compute; reflexivity|].
  split; [vm_compute; reflexivity|].
  split; [vm_compute; reflexivity|].
  vm_compute; discriminate.
Qed.

(** C7, amended. For every file reported by [analyze], let [count] be
    the number of case-insensitive whole-word matches of [auth], [token],
    [password], [credential], [secret], [jwt], [oauth] or [session] in
    the file's hunk texts joined by line feeds.  If [count > 0], the
    keyword rule fires with exactly [min(5 * count, 20)] points: the
    score is that amount added to the points of the other rules, capped
    at 100, and the keyword reason is among the reasons. *)
Theorem keyword_rule_points :
  forall (chunks : list DiffChunk.t) (report : RiskReport.t),
    In report (analyze chunks) ->
    let fileChunks :=
      filter (of_file (RiskReport.filePath report)) chunks in
    let count :=
      count_matches flag_i re_authKeyword
        (join nl (map DiffChunk.content fileChunks)) in
    (0 < count)%nat ->
    keywordRule fileChunks
    = Some (Z.min (5 * Z.of_nat count) 20, keywordReason count)
    /\ RiskReport.score report
       = Z.min (otherPoints (RiskReport.filePath report) fileChunks
                + Z.min (5 * Z.of_nat count) 20) 100
    /\ In (keywordReason count) (RiskReport.reasons report).
Proof.
  intros chunks report Hin fileChunks count Hpos.
  assert (Hrule : keywordRule fileChunks
                  = Some (Z.min (5 * Z.of_nat count) 20, keywordReason count)).
  { unfold keywordRule, when, authMatches, allContent. fold count.
    apply Nat.ltb_lt in Hpos. rewrite Hpos.
    rewrite (Z.mul_comm (Z.of_nat count) 5). reflexivity. }
  split; [exact Hrule|].
  rewrite (analyze_In chunks report Hin) at 1 3.
  fold fileChunks. rewrite analyzeFile_eq.
  cbn [RiskReport.score RiskReport.reasons].
  split.
  - rewrite total_rules, Hrule. reflexivity.
  - assert (Hr : In (keywordReason count)
                    (reasonsOf (rules (RiskReport.filePath report) fileChunks))).
    { unfold rules, reasonsOf. cbn [flat_map].
      do 5 (apply in_or_app; right).
      rewrite Hrule. apply in_or_app; left. left; reflexivity. }
    destruct (reasonsOf (rules (RiskReport.filePath report) fileChunks));
      [contradiction | exact Hr].
Qed.

Lemma keyword_rule_points_witness :
  In Ex.reportPassword (analyze (DiffEngine.parse Ex.diffPassword))
  /\ (0 < count_matches flag_i re_authKeyword
            (join nl (map DiffChunk.content
               (filter (of_file (RiskReport.filePath Ex.reportPassword))
                  (DiffEngine.parse Ex.diffPassword)))))%nat
  /\ RiskReport.score Ex.reportPassword
     = Z.min
         (otherPoints (RiskReport.filePath Ex.reportPassword)
            (filter (of_file (RiskReport.filePath Ex.reportPassword))
               (DiffEngine.parse Ex.diffPassword))
          + Z.min
              (5 * Z.of_nat
                     (count_matches flag_i re_authKeyword
                        (join nl (map DiffChunk.content
                           (filter
                              (of_file
                                 (RiskReport.filePath Ex.reportPassword))
                              (DiffEngine.parse Ex.diffPassword))))))
              20)
         100.
Proof.
  split; [vm_compute; left; reflexivity|].
  split; [vm_compute; lia|].
  apply (keyword_rule_points (DiffEngine.parse Ex.diffPassword)
           Ex.reportPassword).
  - vm_compute; left; reflexivity.
  - vm_compute; lia.
Defined.
End RiskClaims.

(** ** The review orchestrator *)

Section ReviewClaims.
Import ReviewEngine.

(** An [Error] is printable: the text is its message. *)
Lemma rejectionText_Error (e : JsError) :
  rejectionText (AnError e) = Ret (message e).
Proof. reflexivity. Qed.

(** What [reviewChunk] does with the outcome of the backend call. *)
Lemma reviewChunk_rejected {S : Type} (copilot : CopilotService S) chunk
    mode modelId (st st' : S) err reason :
  ask copilot (buildPrompt mode chunk) modelId st = (Throw err, st') ->
  rejectionText err = Ret reason ->
  reviewChunk copilot chunk mode modelId st
  = (Ret (unavailableResult chunk mode reason (getModelName copilot st')),
     st').
Proof.
  intros Hask Hr. unfold reviewChunk. rewrite Hask, Hr. reflexivity.
Qed.

Lemma reviewChunk_answered {S : Type} (copilot : CopilotService S) chunk
    mode modelId (st st' : S) raw :
  ask copilot (buildPrompt mode chunk) modelId st = (Ret raw, st') ->
  exists r,
    reviewChunk copilot chunk mode modelId st = (Ret r, st')
    /\ (r = fallbackResult chunk mode raw (getModelName copilot st')
        \/ decodeResult chunk mode raw (getModelName copilot st') = Ret r).
Proof.
  intros Hask. unfold reviewChunk. rewrite Hask.
  destruct (decodeResult chunk mode raw (getModelName copilot st'))
    as [r|e]; cbn [try_catch]; eexists; split; try reflexivity;
    [right; reflexivity | left; reflexivity].
Qed.

(** C1, as stated, fails: the catch block reads [(err as Error).message].
    When the backend call rejects with [null] or with [undefined] that
    read throws, and [reviewChunk] rejects with a TypeError; when it
    rejects with the string [boom] the message is [undefined], and the
    summary does not hold the failure reason. *)
Lemma reviewChunk_rejects_on_null :
  fst (reviewChunk Ex.nullService Ex.chunkPlain general None tt)
  = Throw TypeError
  /\ fst (reviewChunk Ex.undefinedService Ex.chunkPlain general None tt)
     = Throw TypeError
  /\ exists r : ReviewResult.t,
       fst (reviewChunk Ex.stringService Ex.chunkPlain general None tt)
       = Ret r
       /\ ReviewResult.summary r
          = JStr (lit "Copilot unavailable: undefined").
Proof.
  split; [reflexivity|]. split; [reflexivity|].
  eexists. split; reflexivity.
Qed.

(** C1, amended. For every chunk, mode and backend whose call answers
    or rejects with a printable value (an [Error], or any value but
    [null] and [undefined] whose message converts to a string),
    [reviewChunk] returns a result and throws nothing; when the call
    rejects, the result has no suggestions, risk level [low] and the
    summary [Copilot unavailable: ] followed by the printed message,
    which for an [Error] is its message. *)
Theorem reviewChunk_returns_result :
  forall (S : Type) (copilot : CopilotService S) (chunk : DiffChunk.t)
         (mode : ReviewMode) (modelId : option jsstring) (st : S),
    (forall err : JsThrown,
       fst (ask copilot (buildPrompt mode chunk) modelId st) = Throw err ->
       printable err) ->
    exists r : ReviewResult.t,
      fst (reviewChunk copilot chunk mode modelId st) = Ret r
      /\ (forall (err : JsThrown) (reason : jsstring),
            fst (ask copilot (buildPrompt mode chunk) modelId st)
            = Throw err ->
            rejectionText err = Ret reason ->
            ReviewResult.suggestions r = JArr []
            /\ ReviewResult.riskLevel r = JStr (lit "low")
            /\ ReviewResult.summary r
               = JStr (lit "Copilot unavailable: " ++ reason))
      /\ (forall e : JsError,
            fst (ask copilot (buildPrompt mode chunk) modelId st)
            = Throw (AnError e) ->
            ReviewResult.summary r
            = JStr (lit "Copilot unavailable: " ++ message e)).
Proof.
  intros S copilot chunk mode modelId st Hprint.
  destruct (ask copilot (buildPrompt mode chunk) modelId st)
    as [[raw|err] st'] eqn:Hask; cbn [fst] in *.
  - destruct (reviewChunk_answered copilot chunk mode modelId st st' raw
                Hask) as [r [Hr _]].
    exists r. rewrite Hr. split; [reflexivity|].
    split; [intros err reason H; discriminate H|intros e H; discriminate H].
  - destruct (Hprint err eq_refl) as [reason Hreason].
    rewrite (reviewChunk_rejected copilot chunk mode modelId st st' err
               reason Hask Hreason).
    eexists. split; [reflexivity|]. split.
    + intros err' reason' H Hr'. injection H as <-.
      rewrite Hreason in Hr'. injection Hr' as <-. repeat split.
    + intros e H. injection H as ->.
      cbn in Hreason. injection Hreason as <-. reflexivity.
Qed.

Lemma reviewChunk_returns_result_witness :
  (forall err : JsThrown,
     fst (ask Ex.failingService (buildPrompt general Ex.chunkPlain) None tt)
     = Throw err ->
     printable err)
  /\ exists r : ReviewResult.t,
       fst (reviewChunk Ex.failingService Ex.chunkPlain general None tt)
       = Ret r
       /\ (forall (err : JsThrown) (reason : jsstring),
             fst (ask Ex.failingService (buildPrompt general Ex.chunkPlain)
                    None tt)
             = Throw err ->
             rejectionText err = Ret reason ->
             ReviewResult.suggestions r = JArr []
             /\ ReviewResult.riskLevel r = JStr (lit "low")
             /\ ReviewResult.summary r
                = JStr (lit "Copilot unavailable: " ++ reason))
       /\ (forall e : JsError,
             fst (ask Ex.failingService (buildPrompt general Ex.chunkPlain)
                    None tt)
             = Throw (AnError e) ->
             ReviewResult.summary r
             = JStr (lit "Copilot unavailable: " ++ message e)).
Proof.
  assert (H : forall err : JsThrown,
             fst (ask Ex.failingService (buildPrompt general Ex.chunkPlain)
                    None tt)
             = Throw err ->
             printable err).
  { intros err Herr. cbn in Herr. injection Herr as <-.
    exists (lit "no model"). reflexivity. }
  split; [exact H|].
  apply (reviewChunk_returns_result unit Ex.failingService Ex.chunkPlain
           general None tt H).
Defined.

Lemma decodeResult_throws chunk mode raw name :
  decodeThrows raw = true ->
  exists e, decodeResult chunk mode raw name = Throw e.
Proof.
  unfold decodeThrows, decodeResult.
  destruct (JSON_parse (stripFences raw)) as [v|e]; cbn [bind].
  - destruct v; try discriminate; intros _; eexists; reflexivity.
  - intros _; eexists; reflexivity.
Qed.

(** What a response that parses to an object decodes to: every field is
    the parsed field, or its default when that is missing or [null]. *)
Lemma decodeResult_object chunk mode raw name fs :
  JSON_parse (stripFences raw) = Ret (JObj fs) ->
  decodeResult chunk mode raw name
  = Ret (ReviewResult.mk (chunkIdOf chunk) (DiffChunk.filePath chunk) mode
           (nullish (Claimed.field fs (lit "suggestions")) (JArr []))
           (nullish (Claimed.field fs (lit "summary")) (JStr []))
           (nullish (Claimed.field fs (lit "riskLevel")) (JStr (lit "low")))
           name).
Proof.
  intros Hp. unfold decodeResult. rewrite Hp. cbn [bind get].
  unfold Claimed.field.
  destruct (lookup (lit "suggestions") fs), (lookup (lit "summary") fs),
           (lookup (lit "riskLevel") fs); reflexivity.
Qed.

(** C8, as stated, fails: the response [42] is not the required JSON
    object, yet the result is not the fallback: it has no suggestion at
    all and an empty summary, and the response text is dropped. *)
Lemma fallback_counterexample :
  Claimed.parsesAsObject (stripFences Ex.rawNumber) = false
  /\ exists r : ReviewResult.t,
       fst (reviewChunk (Ex.constService (Ret Ex.rawNumber)) Ex.chunkPlain
              general None tt) = Ret r
       /\ ReviewResult.suggestions r = JArr []
       /\ ReviewResult.summary r = JStr [].
Proof.
  split; [vm_compute; reflexivity|].
  eexists; split; [vm_compute; reflexivity|].
  split; reflexivity.
Qed.

(** C8, amended. Whenever the backend call succeeds but [JSON.parse]
    rejects the stripped response, or yields [null], the result has
    exactly one suggestion, an [info] finding at the chunk's start line
    whose message is the raw response, the summary
    "Review completed (unstructured response)" and risk level [low]. *)
Theorem reviewChunk_fallback :
  forall (S : Type) (copilot : CopilotService S) (chunk : DiffChunk.t)
         (mode : ReviewMode) (modelId : option jsstring) (st st' : S)
         (rawResponse : jsstring),
    ask copilot (buildPrompt mode chunk) modelId st = (Ret rawResponse, st') ->
    decodeThrows rawResponse = true ->
    exists r : ReviewResult.t,
      fst (reviewChunk copilot chunk mode modelId st) = Ret r
      /\ ReviewResult.suggestions r
         = JArr [JObj [(lit "line", JNum (DiffChunk.startLine chunk));
                       (lit "severity", JStr (lit "info"));
                       (lit "message", JStr rawResponse)]]
      /\ ReviewResult.summary r
         = JStr (lit "Review completed (unstructured response)")
      /\ ReviewResult.riskLevel r = JStr (lit "low").
Proof.
  intros S copilot chunk mode modelId st st' raw Hask Hthrows.
  unfold reviewChunk. rewrite Hask. cbn [fst].
  destruct (decodeResult_throws chunk mode raw (getModelName copilot st')
              Hthrows) as [e He].
  rewrite He. cbn [try_catch].
  eexists; split; [reflexivity|]. repeat split.
Qed.

Lemma reviewChunk_fallback_witness :
  ask (Ex.constService (Ret Ex.rawNotJson))
    (buildPrompt general Ex.chunkPlain) None tt = (Ret Ex.rawNotJson, tt)
  /\ decodeThrows Ex.rawNotJson = true
  /\ exists r : ReviewResult.t,
       fst (reviewChunk (Ex.constService (Ret Ex.rawNotJson)) Ex.chunkPlain
              general None tt) = Ret r
       /\ ReviewResult.suggestions r
          = JArr [JObj [(lit "line",
                         JNum (DiffChunk.startLine Ex.chunkPlain));
                        (lit "severity", JStr (lit "info"));
                        (lit "message", JStr Ex.rawNotJson)]]
       /\ ReviewResult.summary r
          = JStr (lit "Review completed (unstructured response)")
       /\ ReviewResult.riskLevel r = JStr (lit "low").
Proof.
  split; [reflexivity|].
  split; [vm_compute; reflexivity|].
  apply (reviewChunk_fallback unit (Ex.constService (Ret Ex.rawNotJson))
           Ex.chunkPlain general None tt tt Ex.rawNotJson).
  - reflexivity.
  - vm_compute; reflexivity.
Defined.

(** C9 on a concrete response: the text is a well-formed JSON object
    that conforms to the schema, but its summary holds a line separator
    followed by three backquotes; the fence pattern matches there, and
    the summary of the result is not the summary of the response. *)
Theorem roundtrip_fails_after_line_separator :
  JSON_parse Ex.rawWithSeparator = Ret Ex.parsedWithSeparator
  /\ Claimed.conformsToSchema Ex.parsedWithSeparator = true
  /\ exists r : ReviewResult.t,
       fst (reviewChunk (Ex.constService (Ret Ex.rawWithSeparator))
              Ex.chunkPlain general None tt) = Ret r
       /\ ReviewResult.summary r = JStr (lit "a" ++ [8232%N] ++ lit "b")
       /\ ReviewResult.summary r <> JStr Ex.summaryWithSeparator.
Proof.
  split; [vm_compute; reflexivity|].
  split; [vm_compute; reflexivity|].
  eexists; split; [vm_compute; reflexivity|].
  split; [reflexivity | vm_compute; discriminate].
Qed.

(** The round trip holds for the text that is left after the fences are
    stripped: when that text parses to a conforming object, the three
    fields of the result are the fields of that object. *)
Lemma reviewChunk_roundtrip_stripped :
  forall (S : Type) (copilot : CopilotService S) (chunk : DiffChunk.t)
         (mode : ReviewMode) (modelId : option jsstring) (st st' : S)
         (rawResponse : jsstring) (fs : list (jsstring * JsValue)),
    ask copilot (buildPrompt mode chunk) modelId st = (Ret rawResponse, st') ->
    JSON_parse (stripFences rawResponse) = Ret (JObj fs) ->
    Claimed.conformsToSchema (JObj fs) = true ->
    exists r : ReviewResult.t,
      fst (reviewChunk copilot chunk mode modelId st) = Ret r
      /\ ReviewResult.summary r = Claimed.field fs (lit "summary")
      /\ ReviewResult.riskLevel r = Claimed.field fs (lit "riskLevel")
      /\ ReviewResult.suggestions r = Claimed.field fs (lit "suggestions").
Proof.
  intros S copilot chunk mode modelId st st' raw fs Hask Hp Hc.
  unfold reviewChunk. rewrite Hask. cbn [fst].
  rewrite (decodeResult_object chunk mode raw _ fs Hp). cbn [try_catch].
  eexists; split; [reflexivity|].
  cbn [ReviewResult.summary ReviewResult.riskLevel ReviewResult.suggestions].
  unfold Claimed.conformsToSchema in Hc.
  apply andb_prop in Hc. destruct Hc as [Hc Hsug].
  apply andb_prop in Hc. destruct Hc as [Hsum Hrisk].
  destruct (Claimed.field fs (lit "summary")); try discriminate.
  destruct (Claimed.field fs (lit "riskLevel")); try discriminate.
  destruct (Claimed.field fs (lit "suggestions")); try discriminate.
  repeat split.
Qed.
End ReviewClaims.

(** ** Deep analysis *)

Section ClampFacts.
Lemma Qltb_false_le p q : Qltb p q = false -> (q <= p)%Q.
Proof.
  unfold Qltb. intros H. apply negb_false_iff in H.
  apply Qle_bool_iff; exact H.
Qed.

Lemma Qltb_true_le p q : Qltb p q = true -> (p <= q)%Q.
Proof.
  unfold Qltb. intros H. apply negb_true_iff in H.
  apply Qlt_le_weak, Qnot_le_lt. intros Hle.
  apply Qle_bool_iff in Hle. congruence.
Qed.

Lemma in_0_100_Fin q : (0 <= q)%Q -> (q <= 100)%Q -> in_0_100 (Fin q) = true.
Proof.
  intros H0 H1. unfold in_0_100.
  apply andb_true_intro; split; apply Qle_bool_iff; assumption.
Qed.

(** [Math.min(100, Math.max(0, n))] is NaN for NaN and lies in 0..100
    for every other Number. *)
Lemma clamp_num_range n :
  match n with
  | NaN => num_min (Fin 100) (num_max (Fin 0) n) = NaN
  | _ => in_0_100 (num_min (Fin 100) (num_max (Fin 0) n)) = true
  end.
Proof.
  destruct n as [| | |q]; try reflexivity.
  unfold num_max. destruct (Qltb 0 q) eqn:E0; unfold num_min.
  - destruct (Qltb q 100) eqn:E1.
    + apply in_0_100_Fin; [apply Qltb_true_le, E0 | apply Qltb_true_le, E1].
    + reflexivity.
  - destruct (Qltb 0 100) eqn:E1; [reflexivity|].
    vm_compute in E1; discriminate.
Qed.

(** A finite score, whatever its value, is clamped into 0..100. *)
Lemma clamp_finite q :
  exists n, clamp_0_100 (JNum (Fin q)) = Ret n /\ in_0_100 n = true.
Proof.
  unfold clamp_0_100; cbn [ToNumber bind].
  eexists; split; [reflexivity|].
  apply (clamp_num_range (Fin q)).
Qed.

Lemma clamp_range v n :
  clamp_0_100 v = Ret n -> n = NaN \/ in_0_100 n = true.
Proof.
  unfold clamp_0_100. destruct (ToNumber v) as [m|e]; cbn [bind];
    [|discriminate].
  intros H; injection H as <-.
  pose proof (clamp_num_range m) as Hm.
  destruct m; [left | right | right | right]; exact Hm.
Qed.

Lemma validateGrade_valid v g :
  DeepAnalysisEngine.validateGrade v = Ret g ->
  In g DeepAnalysisEngine.validGrades.
Proof.
  unfold DeepAnalysisEngine.validateGrade.
  destruct (nullish v (JStr (lit "C"))); try discriminate.
  destruct (existsb (str_eqb (DeepAnalysisEngine.toUpperCase s))
              DeepAnalysisEngine.validGrades) eqn:E;
    intros H; injection H as <-.
  - apply existsb_exists in E. destruct E as [x [Hx Hs]].
    apply str_eqb_eq in Hs. rewrite Hs. exact Hx.
  - right; right; left; reflexivity.
Qed.
End ClampFacts.

Section AnalyzeFacts.
Import DeepAnalysisEngine.

Lemma bind_Ret {A B : Type} (m : Exc A) (f : A -> Exc B) (b : B) :
  bind m f = Ret b -> exists a, m = Ret a /\ f a = Ret b.
Proof.
  destruct m as [a|e]; cbn [bind]; [|discriminate].
  intros H; exists a; split; [reflexivity | exact H].
Qed.

Lemma mapM_Forall {A B : Type} (f : A -> Exc B) (P : B -> Prop) :
  (forall x y, f x = Ret y -> P y) ->
  forall l l', mapM f l = Ret l' -> Forall P l'.
Proof.
  intros Hf. induction l as [|x l IH]; intros l' H; cbn [mapM] in H.
  - injection H as <-; constructor.
  - apply bind_Ret in H. destruct H as [y [Hy H]].
    apply bind_Ret in H. destruct H as [ys [Hys H]].
    injection H as <-. constructor; [exact (Hf x y Hy) | exact (IH ys Hys)].
Qed.

Lemma normCategory_ok c y : normCategory c = Ret y -> category_ok y.
Proof.
  unfold normCategory. intros H.
  apply bind_Ret in H. destruct H as [name [_ H]].
  apply bind_Ret in H. destruct H as [score [_ H]].
  apply bind_Ret in H. destruct H as [n [Hn H]].
  apply bind_Ret in H. destruct H as [findings [_ H]].
  apply bind_Ret in H. destruct H as [severity [_ H]].
  injection H as <-.
  eexists; exists n. split; [reflexivity|].
  split; [reflexivity | exact (clamp_range _ _ Hn)].
Qed.

Lemma decodeAnalysis_ok prNumber metrics raw name r :
  decodeAnalysis prNumber metrics raw name = Ret r ->
  In (InDepthAnalysis.qualityGrade r) validGrades
  /\ score_ok (InDepthAnalysis.complexityScore r)
  /\ exists l, InDepthAnalysis.categories r = JArr l /\ Forall category_ok l.
Proof.
  unfold decodeAnalysis. intros H.
  apply bind_Ret in H. destruct H as [parsed [_ H]].
  apply bind_Ret in H. destruct H as [summary [_ H]].
  apply bind_Ret in H. destruct H as [cs [_ H]].
  apply bind_Ret in H. destruct H as [n [Hn H]].
  apply bind_Ret in H. destruct H as [g [_ H]].
  apply bind_Ret in H. destruct H as [g' [Hg H]].
  apply bind_Ret in H. destruct H as [cats [_ H]].
  apply bind_Ret in H. destruct H as [cats' [Hcats H]].
  apply bind_Ret in H. destruct H as [recs [_ H]].
  apply bind_Ret in H. destruct H as [recs' [_ H]].
  injection H as <-.
  cbn [InDepthAnalysis.qualityGrade InDepthAnalysis.complexityScore
       InDepthAnalysis.categories].
  split; [exact (validateGrade_valid _ _ Hg)|].
  split; [exact (clamp_range _ _ Hn)|].
  unfold array_map in Hcats.
  destruct (nullish cats (JArr [])); try discriminate.
  apply bind_Ret in Hcats. destruct Hcats as [l' [Hl' Hc]].
  injection Hc as <-. exists l'. split; [reflexivity|].
  exact (mapM_Forall normCategory category_ok normCategory_ok _ _ Hl').
Qed.

(** With a backend that rejects with printable values only, [analyze]
    does not throw, and in each of its three outcomes the grade is one
    of the five grades, and the complexity score and every category
    score went through the clamp. *)
Lemma analyze_clamps :
  forall (S : Type) (copilot : CopilotService S) (prNumber : Z)
         (chunks : list DiffChunk.t) (changedFiles : list ChangedFile.t)
         (mode : ReviewMode) (st : S),
  rejects_printably copilot ->
  exists r : InDepthAnalysis.t,
    fst (analyze copilot prNumber chunks changedFiles mode st) = Ret r
    /\ In (InDepthAnalysis.qualityGrade r) validGrades
    /\ score_ok (InDepthAnalysis.complexityScore r)
    /\ exists l, InDepthAnalysis.categories r = JArr l
                 /\ Forall category_ok l.
Proof.
  intros S copilot prNumber chunks changedFiles mode st Hprint.
  unfold analyze.
  destruct (ask copilot _ None st) as [[raw|err] st'] eqn:Hask; cbn [fst].
  - destruct (decodeAnalysis prNumber (computeMetrics chunks changedFiles)
                raw (getModelName copilot st')) as [r|e] eqn:E;
      cbn [try_catch].
    + exists r. split; [reflexivity | exact (decodeAnalysis_ok _ _ _ _ _ E)].
    + eexists. split; [reflexivity|].
      cbn. split; [tauto|]. split; [right; reflexivity|].
      exists []. split; [reflexivity | constructor].
  - assert (Herr : printable err).
    { eapply Hprint. rewrite Hask. reflexivity. }
    destruct Herr as [error Herror].
    rewrite Herror. cbn [bind]. eexists. split; [reflexivity|].
    cbn. split; [tauto|]. split; [right; reflexivity|].
    exists []. split; [reflexivity | constructor].
Qed.
End AnalyzeFacts.

Section DeepClaims.
Import DeepAnalysisEngine.

(** C2 on a concrete response: the backend answers with a decodable
    object whose complexity score and category score are both 500.
    [analyze] clamps both to 100, but [compareWithModels] clamps only
    the complexity score: the category is passed on as it was parsed,
    with score 500. *)
Theorem compareWithModels_keeps_category_scores :
  (exists r : InDepthAnalysis.t,
     fst (compareWithModels (Ex.constService (Ret Ex.rawOutOfRange)) 7
            [Ex.chunkPlain] [] general [lit "m1"] tt) = [r]
     /\ InDepthAnalysis.complexityScore r = Fin 100
     /\ InDepthAnalysis.categories r = JArr [Ex.categoryOutOfRange]
     /\ Claimed.categoryScoresInRange r = false)
  /\ (exists r : InDepthAnalysis.t,
        fst (analyze (Ex.constService (Ret Ex.rawOutOfRange)) 7
               [Ex.chunkPlain] [] general tt) = Ret r
        /\ InDepthAnalysis.complexityScore r = Fin 100
        /\ InDepthAnalysis.categories r = JArr [Ex.categoryClamped]
        /\ Claimed.categoryScoresInRange r = true).
Proof.
  split; eexists; (split; [vm_compute; reflexivity|]);
    repeat split; vm_compute; reflexivity.
Qed.

Lemma filter_all {A : Type} (f : A -> bool) (l : list A) :
  forallb f l = true -> filter f l = l.
Proof.
  induction l as [|x l IH]; simpl; [reflexivity|].
  intros H. apply andb_prop in H. destruct H as [Hx Hl].
  rewrite Hx, IH by exact Hl. reflexivity.
Qed.

(** C10. If the list of changed files is not empty and every changed
    file is test-like, there are no non-test files, the ratio is taken
    to be 1, and the derived [testCoverage] is [excellent]. *)
Theorem all_test_files_excellent :
  forall (chunks : list DiffChunk.t) (changedFiles : list ChangedFile.t),
    changedFiles <> [] ->
    forallb isTestFile changedFiles = true ->
    length changedFiles - length (filter isTestFile changedFiles) = 0
    /\ ratio (length (filter isTestFile changedFiles)) 0 = 1%Q
    /\ PRMetrics.testCoverage (computeMetrics chunks changedFiles)
       = excellent.
Proof.
  intros chunks changedFiles Hne Hall.
  rewrite (filter_all _ _ Hall), Nat.sub_diag.
  split; [reflexivity|]. split; [reflexivity|].
  unfold computeMetrics; cbn [PRMetrics.testCoverage]. unfold coverageOf.
  rewrite (filter_all _ _ Hall), Nat.sub_diag.
  destruct changedFiles as [|f fs]; [congruence|].
  cbn [forallb] in Hall. apply andb_prop in Hall. destruct Hall as [Hf _].
  cbn [existsb]. rewrite Hf. reflexivity.
Qed.

Lemma all_test_files_excellent_witness :
  [Ex.testFile] <> []
  /\ forallb isTestFile [Ex.testFile] = true
  /\ PRMetrics.testCoverage (computeMetrics [Ex.chunkPlain] [Ex.testFile])
     = excellent.
Proof.
  split; [discriminate|].
  split; [vm_compute; reflexivity|].
  apply (all_test_files_excellent [Ex.chunkPlain] [Ex.testFile]).
  - discriminate.
  - vm_compute; reflexivity.
Defined.
End DeepClaims.

(** ** The model on the scenarios of the documentation *)

Section Scenarios.
(** Empty and blank input yield no chunk. *)
Lemma parse_blank (diff : jsstring) :
  trim diff = [] -> DiffEngine.parse diff = [].
Proof.
  intros H. unfold DiffEngine.parse. rewrite H.
  rewrite orb_true_r. reflexivity.
Qed.

Example parse_empty_and_spaces :
  DiffEngine.parse [] = [] /\ DiffEngine.parse (lit "   ") = [].
Proof. split; apply parse_blank; reflexivity. Qed.

(** A fenced answer is unwrapped before it is parsed. *)
Example stripFences_fenced :
  stripFences (lit "```json" ++ nl ++ qlit "{'summary':'s'}" ++ nl
               ++ lit "```")
  = qlit "{'summary':'s'}".
Proof. vm_compute; reflexivity. Qed.

Example JSON_parse_nested :
  JSON_parse (qlit " {'a': [1, 2.5, -3e2, true, null], 'b': {}} ")
  = Ret (JObj [(lit "a",
                JArr [JNum (Fin 1); JNum (Fin (5 # 2)); JNum (Fin (-300));
                      JBool true; JNull]);
               (lit "b", JObj [])]).
Proof. vm_compute; reflexivity. Qed.

Example JSON_parse_rejects :
  JSON_parse Ex.rawNotJson = Throw SyntaxError
  /\ JSON_parse (lit "[1,]") = Throw SyntaxError
  /\ JSON_parse (lit "01") = Throw SyntaxError
  /\ JSON_parse [] = Throw SyntaxError.
Proof. repeat split; vm_compute; reflexivity. Qed.

(** A backend that rejects every call yields the unavailable result. *)
Example reviewChunk_backend_down :
  fst (ReviewEngine.reviewChunk
         Ex.failingService Ex.chunkPlain security None tt)
  = Ret (ReviewResult.mk (lit "a.ts:3-4") (lit "a.ts") security (JArr [])
           (JStr (lit "Copilot unavailable: no model"))
           (JStr (lit "low")) (lit "unknown")).
Proof. vm_compute; reflexivity. Qed.

(** How a template literal prints Numbers: plain digits for integers
    below 1e21, the shortest digits that denote the same binary64
    value above 2^53, the exponent notation from 1e21 on. *)
Example Number_toString_examples :
  Number_toString (Fin 42) = lit "42"
  /\ Number_toString (num_of_Z (2 ^ 53)) = lit "9007199254740992"
  /\ Number_toString (binary64 (inject_Z (2 ^ 60)))
     = lit "1152921504606847000"
  /\ Number_toString (num_of_Z (10 ^ 21)) = lit "1e+21"
  /\ Number_toString (Fin (5 # 2)) = lit "2.5"
  /\ Number_toString (Fin (1 # 10)) = lit "0.1"
  /\ Number_toString (Fin (-1 # 10000000)) = lit "-1e-7"
  /\ Number_toString NaN = lit "NaN".
Proof. repeat split; vm_compute; reflexivity. Qed.

(** [parseInt] rounds: 2^53 + 1 is read as 2^53, and a number of 400
    digits as Infinity. *)
Example binary64_examples :
  binary64 (inject_Z (2 ^ 53 + 1)) = num_of_Z (2 ^ 53)
  /\ binary64 (inject_Z (2 ^ 53 + 3)) = num_of_Z (2 ^ 53 + 4)
  /\ binary64 (inject_Z (10 ^ 400)) = PosInf
  /\ num_sub (num_add (num_of_Z (2 ^ 53)) (Fin 1)) (Fin 1)
     = num_of_Z (2 ^ 53 - 1).
Proof. repeat split; vm_compute; reflexivity. Qed.

(** Complexity 500 is clamped to 100, a missing one defaults to 50. *)
Example clamp_examples :
  clamp_0_100 (JNum (Fin 500)) = Ret (Fin 100)
  /\ clamp_0_100 (nullish JUndefined (JNum (Fin 50))) = Ret (Fin 50)
  /\ clamp_0_100 (JNum (Fin (-3))) = Ret (Fin 0)
  /\ clamp_0_100 (JStr (lit "high")) = Ret NaN.
Proof. repeat split; vm_compute; reflexivity. Qed.
End Scenarios.

(** ** More on the diff parser *)

Section DiffEngineMore.
Import DiffChunk DiffEngine.

Lemma flushHunk_prepend acc path st :
  flushHunk path (prepend acc st) = prepend acc (flushHunk path st).
Proof.
  unfold flushHunk, prepend; cbn [currentHunkLines].
  destruct (currentHunkLines st) as [|l ls] eqn:E.
  - cbn [chunks currentHunkLines currentStartLine hasAdditions hasDeletions].
    rewrite E; reflexivity.
  - cbn [chunks currentHunkLines currentStartLine hasAdditions hasDeletions].
    rewrite app_assoc; reflexivity.
Qed.

Lemma processLine_prepend acc path st line :
  processLine path (prepend acc st) line
  = prepend acc (processLine path st line).
Proof.
  unfold processLine.
  destruct (re_match noFlags hunkPattern line) as [m|].
  - rewrite flushHunk_prepend. reflexivity.
  - cbn [prepend currentStartLine].
    destruct (num_gtb (currentStartLine st) (Fin 0)); reflexivity.
Qed.

Lemma fold_processLine_prepend acc path lines :
  forall st,
    fold_left (processLine path) lines (prepend acc st)
    = prepend acc (fold_left (processLine path) lines st).
Proof.
  induction lines as [|l lines IH]; intros st; simpl; [reflexivity|].
  rewrite processLine_prepend. apply IH.
Qed.

(** A block adds its chunks behind the chunks of the blocks before it. *)
Lemma parseBlock_app acc block :
  parseBlock acc block = acc ++ parseBlock [] block.
Proof.
  unfold parseBlock.
  destruct (re_match noFlags re_filePath (hd [] (split_nl block))) as [m|];
    [|rewrite app_nil_r; reflexivity].
  assert (H0 : mkSt acc [] (Fin 0) false false
               = prepend acc (mkSt [] [] (Fin 0) false false))
    by (unfold prepend; cbn; rewrite app_nil_r; reflexivity).
  rewrite H0, fold_processLine_prepend, flushHunk_prepend. reflexivity.
Qed.

Lemma fold_parseBlock_flat_map blocks :
  forall acc,
    fold_left parseBlock blocks acc
    = acc ++ flat_map (parseBlock []) blocks.
Proof.
  induction blocks as [|b blocks IH]; intros acc; simpl.
  - rewrite app_nil_r; reflexivity.
  - rewrite IH, (parseBlock_app acc b), app_assoc. reflexivity.
Qed.

Lemma trimStart_nil_inv s : s = [] -> trimStart s = [].
Proof. intros ->; reflexivity. Qed.

Lemma flushHunk_inv path seen st :
  hunk_inv path seen st -> hunk_inv path seen (flushHunk path st).
Proof.
  intros [Hs Hb Hp Hf Hlb Ho Hc]. unfold flushHunk.
  destruct (currentHunkLines st) as [|l ls] eqn:E.
  - constructor; rewrite ?E; assumption.
  - assert (Hsp : split_nl (join nl (l :: ls)) = l :: ls)
      by (apply split_nl_join; [discriminate | exact Hf]).
    constructor;
      cbn [chunks currentHunkLines currentStartLine hasAdditions hasDeletions].
    + apply Forall_app; split; [exact Hs|].
      constructor; [|constructor]. cbn [startLine]. apply Ho; discriminate.
    + apply Forall_app; split; [exact Hb|].
      constructor; [|constructor]. cbn [content]. rewrite Hsp. exact Hlb.
    + apply Forall_app; split; [exact Hp|].
      constructor; [reflexivity | constructor].
    + constructor.
    + reflexivity.
    + intros H; congruence.
    + rewrite length_app; simpl. simpl in Hc.
      rewrite Nat.add_0_r. exact Hc.
Qed.

Lemma processLine_inv path seen st line :
  nl_free line ->
  hunk_inv path seen st -> pending_inv seen st ->
  hunk_inv path (if is_hunk_header line then S seen else seen)
    (processLine path st line)
  /\ pending_inv (if is_hunk_header line then S seen else seen)
       (processLine path st line).
Proof.
  intros Hline Hst Hpe. unfold processLine, is_hunk_header.
  destruct (re_match noFlags hunkPattern line) as [m|] eqn:Em.
  - pose proof (flushHunk_inv path seen st Hst) as [Hs Hb Hp Hf Hlb Ho Hc].
    pose proof (flushHunk_closed path st) as Hempty.
    rewrite Hempty in Hc. simpl in Hc. rewrite Nat.add_0_r in Hc.
    split.
    + constructor; cbn [chunks currentHunkLines currentStartLine];
        try assumption.
      * rewrite Hempty; intros H; congruence.
      * rewrite Hempty. simpl. rewrite Nat.add_0_r.
        apply Nat.le_trans with seen; [exact Hc | apply Nat.le_succ_diag_r].
    + unfold pending_inv; cbn [chunks currentStartLine]. intros _.
      apply Nat.lt_succ_r. exact Hc.
  - destruct (num_gtb (currentStartLine st) (Fin 0)) eqn:Eg;
      [|split; assumption].
    assert (Hlt : length (chunks st) < seen) by (apply Hpe; exact Eg).
    destruct Hst as [Hs Hb Hp Hf Hlb Ho Hc].
    split.
    + constructor; cbn [chunks currentHunkLines currentStartLine];
        try assumption.
      * apply Forall_app; split; [exact Hf | repeat constructor; exact Hline].
      * rewrite forallb_app, Hlb. simpl. unfold is_hunk_header. rewrite Em.
        reflexivity.
      * intros _; exact Eg.
      * destruct (currentHunkLines st ++ [line]) eqn:E;
          [destruct (currentHunkLines st); discriminate|].
        rewrite Nat.add_1_r. exact Hlt.
    + unfold pending_inv; cbn [chunks currentStartLine]. intros _. exact Hlt.
Qed.

Lemma fold_processLine_inv path lines :
  forall seen st,
    Forall nl_free lines ->
    hunk_inv path seen st -> pending_inv seen st ->
    hunk_inv path (seen + length (filter is_hunk_header lines))
      (fold_left (processLine path) lines st).
Proof.
  induction lines as [|l lines IH]; intros seen st Hl Hst Hpe; simpl.
  - rewrite Nat.add_0_r; exact Hst.
  - inversion Hl; subst.
    destruct (processLine_inv path seen st l H1 Hst Hpe) as [Hstep Hpe'].
    destruct (is_hunk_header l); simpl.
    + rewrite Nat.add_succ_r. apply (IH (S seen)); assumption.
    + apply IH; assumption.
Qed.

Lemma hunk_inv_init path seen :
  hunk_inv path seen (mkSt [] [] (Fin 0) false false).
Proof.
  constructor; cbn; try constructor; try reflexivity;
    try apply Nat.le_0_l.
  intros H; congruence.
Qed.

(** What holds of the chunks of one block. *)
Lemma parseBlock_inv block :
  exists path,
    hunk_inv path (length (filter is_hunk_header (split_nl block)))
      (mkSt (parseBlock [] block) [] (Fin 0) false false).
Proof.
  unfold parseBlock.
  destruct (re_match noFlags re_filePath (hd [] (split_nl block))) as [m|].
  - eexists.
    match goal with
    | |- hunk_inv ?p _ (mkSt (chunks (flushHunk _ ?s)) _ _ _ _) =>
        assert (Hinv : hunk_inv p
                  (0 + length (filter is_hunk_header (split_nl block))) s)
    end.
    { apply fold_processLine_inv;
        [apply split_nl_free | apply hunk_inv_init |].
      unfold pending_inv; cbn. intros H. discriminate H. }
    apply flushHunk_inv in Hinv.
    pose proof (flushHunk_closed
                  (trim match capture 1 m with Some p => p | None => [] end)
                  (fold_left
                     (processLine
                        (trim match capture 1 m with
                              | Some p => p | None => [] end))
                     (split_nl block) (mkSt [] [] (Fin 0) false false)))
      as Hcl.
    destruct Hinv as [Hs Hb Hp Hf Hlb Ho Hc].
    rewrite Hcl in Hc. simpl in Hc. rewrite Nat.add_0_r in Hc.
    constructor; cbn [chunks currentHunkLines currentStartLine];
      try assumption; try constructor; try reflexivity.
    + intros H; congruence.
    + simpl. rewrite Nat.add_0_r. exact Hc.
  - exists []. simpl. apply hunk_inv_init.
Qed.

(** Where start lines come from. *)







Lemma parse_in_block diff c :
  In c (parse diff) ->
  exists block, In block (fileBlocks diff) /\ In c (parseBlock [] block).
Proof.
  unfold parse.
  destruct (negb (nonempty diff) || negb (nonempty (trim diff)));
    [intros []|].
  rewrite fold_parseBlock_flat_map. cbn [app]. intros H.
  apply in_flat_map in H. exact H.
Qed.
End DiffEngineMore.

Section DiffEngineExtras.
Import DiffChunk DiffEngine.

(** X1. The chunks of a diff are the chunks of its file blocks, block
    after block: a later block never changes or reorders what an
    earlier block produced. *)
Theorem parse_blockwise :
  forall diff : jsstring,
    trim diff <> [] ->
    DiffEngine.parse diff = flat_map (parseBlock []) (fileBlocks diff).
Proof.
  intros diff Hne. unfold parse.
  destruct (trim diff) as [|c t] eqn:Et; [congruence|].
  destruct diff as [|d diff']; [discriminate Et|].
  cbn [nonempty negb orb].
  rewrite fold_parseBlock_flat_map. reflexivity.
Qed.


Lemma parse_blockwise_witness :
  trim Ex.diffModify <> []
  /\ DiffEngine.parse Ex.diffModify
     = flat_map (parseBlock []) (fileBlocks Ex.diffModify).
Proof.
  split.
  - vm_compute; discriminate.
  - apply (parse_blockwise Ex.diffModify). vm_compute; discriminate.
Defined.



(** The lines under a header whose new-file start line is 0 are not
    collected: the diff of a deleted file gives no chunk. *)
Example parse_deleted_file :
  DiffEngine.parse Ex2.diffDeleted = [].
Proof. vm_compute; reflexivity. Qed.

(** X3. No line of a chunk's content is a hunk header: headers separate
    chunks and are never stored in them. *)
Theorem parse_content_has_no_header :
  forall (diff : jsstring) (c : DiffChunk.t) (line : jsstring),
    In c (DiffEngine.parse diff) ->
    In line (split_nl (content c)) ->
    re_match noFlags hunkPattern line = None.
Proof.
  intros diff c line Hin Hline.
  destruct (parse_in_block diff c Hin) as [block [_ Hc]].
  destruct (parseBlock_inv block) as [path Hinv].
  pose proof (inv_body Hinv) as Hb. cbn [chunks] in Hb.
  rewrite Forall_forall in Hb. specialize (Hb c Hc).
  rewrite forallb_forall in Hb. specialize (Hb line Hline).
  unfold is_hunk_header in Hb.
  destruct (re_match noFlags hunkPattern line); [discriminate | reflexivity].
Qed.

Lemma parse_content_has_no_header_witness :
  In Ex.chunkModify (DiffEngine.parse Ex.diffModify)
  /\ In (lit " const a = 1;") (split_nl (content Ex.chunkModify))
  /\ re_match noFlags hunkPattern (lit " const a = 1;") = None.
Proof.
  split; [vm_compute; left; reflexivity|].
  split; [vm_compute; left; reflexivity|].
  apply (parse_content_has_no_header Ex.diffModify Ex.chunkModify).
  - vm_compute; left; reflexivity.
  - vm_compute; left; reflexivity.
Defined.

(** X4. A file block gives at most one chunk per hunk header line, so a
    block without hunk headers (a binary file, a mode change) gives
    none; and all chunks of one block carry the same file path. *)
Theorem parseBlock_chunks :
  forall block : jsstring,
    length (parseBlock [] block)
    <= length (filter is_hunk_header (split_nl block))
    /\ (forall c1 c2 : DiffChunk.t,
          In c1 (parseBlock [] block) -> In c2 (parseBlock [] block) ->
          filePath c1 = filePath c2).
Proof.
  intros block. destruct (parseBlock_inv block) as [path Hinv].
  split.
  - pose proof (inv_count Hinv) as Hc.
    cbn [chunks currentHunkLines] in Hc.
    rewrite Nat.add_0_r in Hc. exact Hc.
  - pose proof (inv_path Hinv) as Hp. cbn [chunks] in Hp.
    rewrite Forall_forall in Hp.
    intros c1 c2 H1 H2. rewrite (Hp c1 H1), (Hp c2 H2). reflexivity.
Qed.
End DiffEngineExtras.

(** ** More on the risk scorer *)

Section RiskMore.
Import RiskAnalyzer.

Lemma firstSeen_In l :
  forall p, In p (Claimed.firstSeen l) <-> In p l.
Proof.
  induction l as [|q l IH]; intros p; simpl; [tauto|].
  rewrite filter_In, IH, negb_true_iff, str_eqb_neq.
  destruct (list_eq_dec N.eq_dec q p) as [->|Hne]; [tauto|].
  split; [intros [H|[H _]]; auto | intros [H|H]; [auto | right; auto]].
Qed.

Lemma firstSeen_NoDup l : NoDup (Claimed.firstSeen l).
Proof.
  induction l as [|q l IH]; simpl; constructor.
  - rewrite filter_In, negb_true_iff, str_eqb_neq. intros [_ H]; congruence.
  - apply NoDup_filter, IH.
Qed.

Lemma analyze_paths_perm chunks :
  Permutation (map RiskReport.filePath (analyze chunks))
    (Claimed.firstSeen (map DiffChunk.filePath chunks)).
Proof.
  rewrite <- reportsUnsorted_paths. apply Permutation_map.
  apply (sort_perm _ RiskReport.score).
Qed.

Lemma analyze_path_of_chunk chunks r :
  In r (analyze chunks) ->
  In (RiskReport.filePath r) (map DiffChunk.filePath chunks).
Proof.
  intros Hin. apply firstSeen_In.
  eapply Permutation_in; [apply analyze_paths_perm|].
  apply in_map. exact Hin.
Qed.

(** A rule adds at most 30 points. *)
Lemma rules_bounded path cs :
  Forall (fun r => (points r <= 30)%Z) (rules path cs).
Proof.
  unfold rules.
  repeat (apply Forall_cons);
    try (unfold authDirRule, sensitiveRule, middlewareRule, dependencyRule,
           schemaRule, functionRule, when;
         match goal with |- context [if ?b then _ else _] => destruct b end;
         simpl; lia);
    try apply Forall_nil.
  - unfold keywordRule, when. destruct (0 <? authMatches cs); simpl; lia.
  - unfold deletionRule.
    destruct (50 <? totalDeletions cs); simpl; [lia|].
    destruct (20 <? totalDeletions cs); simpl; lia.
  - unfold importRule, when. destruct (0 <? importChanges cs); simpl; lia.
Qed.

Lemma total_le_reasons rs :
  Forall positive rs ->
  Forall (fun r => (points r <= 30)%Z) rs ->
  (total rs <= 30 * Z.of_nat (length (reasonsOf rs)))%Z.
Proof.
  unfold total, reasonsOf.
  induction rs as [|r rs IH]; intros Hp Hb; cbn [fold_right flat_map].
  - cbn [length]. lia.
  - inversion Hp; inversion Hb; subst.
    specialize (IH H2 H6).
    destruct r as [[p why]|]; cbn [app length points] in *;
      rewrite ?Nat2Z.inj_succ; lia.
Qed.

Lemma fired_in_total rs r p why :
  Forall positive rs -> In r rs -> r = Some (p, why) ->
  (p <= total rs)%Z /\ In why (reasonsOf rs).
Proof.
  intros Hp Hin Hr. subst r. revert Hp Hin.
  induction rs as [|r0 rs IH]; intros Hp Hin; [contradiction|].
  inversion Hp as [|? ? Hr0 Hrs]; subst.
  pose proof (total_nonneg rs Hrs) as Hnn.
  unfold total, reasonsOf in *.
  cbn [fold_right flat_map].
  destruct Hin as [Hin|Hin].
  - subst r0. cbn [points]. split; [lia | left; reflexivity].
  - destruct (IH Hrs Hin) as [Hle Hw].
    split.
    + destruct r0 as [[p0 w0]|]; cbn [points positive] in *; lia.
    + apply in_or_app; right; exact Hw.
Qed.

Lemma reasonsOf_fired rs why :
  In why (reasonsOf rs) -> exists p, In (Some (p, why)) rs.
Proof.
  induction rs as [|r rs IH]; simpl; [intros []|].
  intros H. apply in_app_or in H. destruct H as [H|H].
  - destruct r as [[p w]|]; [|contradiction].
    destruct H as [->|[]]. exists p; left; reflexivity.
  - destruct (IH H) as [p Hp]. exists p; right; exact Hp.
Qed.
End RiskMore.

Section RiskExtras.
Import RiskAnalyzer.

(** X5. [analyze] returns exactly one report per distinct file path of
    its input: the report paths have no duplicates and are the paths of
    the chunks. *)
Theorem analyze_one_report_per_file :
  forall chunks : list DiffChunk.t,
    NoDup (map RiskReport.filePath (analyze chunks))
    /\ (forall p : jsstring,
          In p (map RiskReport.filePath (analyze chunks))
          <-> In p (map DiffChunk.filePath chunks)).
Proof.
  intros chunks. pose proof (analyze_paths_perm chunks) as Hperm.
  split.
  - eapply Permutation_NoDup; [apply Permutation_sym, Hperm|].
    apply firstSeen_NoDup.
  - intros p. rewrite <- (firstSeen_In (map DiffChunk.filePath chunks)).
    split; intros H.
    + eapply Permutation_in; [exact Hperm | exact H].
    + eapply Permutation_in; [apply Permutation_sym, Hperm | exact H].
Qed.

(** X6. Every rule that fires for a file shows in its report: the score
    is at least the rule's points and the rule's reason is listed; and
    every listed reason is the placeholder or the reason of a rule that
    fired. *)
Theorem analyze_reflects_rules :
  forall (chunks : list DiffChunk.t) (report : RiskReport.t),
    In report (analyze chunks) ->
    let fired :=
      rules (RiskReport.filePath report)
        (filter (of_file (RiskReport.filePath report)) chunks) in
    (forall (p : Z) (why : jsstring),
       In (Some (p, why)) fired ->
       (p <= RiskReport.score report)%Z
       /\ In why (RiskReport.reasons report))
    /\ (forall why : jsstring,
          In why (RiskReport.reasons report) ->
          why = noRiskReason \/ exists p, In (Some (p, why)) fired).
Proof.
  intros chunks report Hin fired.
  rewrite (analyze_In chunks report Hin).
  rewrite analyzeFile_eq.
  cbn [RiskReport.score RiskReport.reasons RiskReport.filePath].
  fold fired.
  pose proof (rules_positive (RiskReport.filePath report)
                (filter (of_file (RiskReport.filePath report)) chunks))
    as Hpos. fold fired in Hpos.
  pose proof (rules_bounded (RiskReport.filePath report)
                (filter (of_file (RiskReport.filePath report)) chunks))
    as Hb. fold fired in Hb.
  split.
  - intros p why Hf.
    destruct (fired_in_total fired (Some (p, why)) p why Hpos Hf eq_refl)
      as [Hle Hw].
    rewrite Forall_forall in Hb. specialize (Hb _ Hf). simpl in Hb.
    split; [lia|].
    destruct (reasonsOf fired); [contradiction | exact Hw].
  - intros why Hw.
    destruct (reasonsOf fired) as [|w ws] eqn:E.
    + destruct Hw as [<-|[]]. left; reflexivity.
    + right. apply reasonsOf_fired. rewrite E. exact Hw.
Qed.

Lemma analyze_reflects_rules_witness :
  In Ex.reportPassword (analyze (DiffEngine.parse Ex.diffPassword))
  /\ (forall (p : Z) (why : jsstring),
        In (Some (p, why))
          (rules (RiskReport.filePath Ex.reportPassword)
             (filter (of_file (RiskReport.filePath Ex.reportPassword))
                (DiffEngine.parse Ex.diffPassword))) ->
        (p <= RiskReport.score Ex.reportPassword)%Z
        /\ In why (RiskReport.reasons Ex.reportPassword)).
Proof.
  split; [vm_compute; left; reflexivity|].
  apply (analyze_reflects_rules (DiffEngine.parse Ex.diffPassword)
           Ex.reportPassword).
  vm_compute; left; reflexivity.
Defined.

(** X7. A file in an authentication directory is never rated low: its
    score is at least 30 and the directory reason is listed. *)
Theorem auth_directory_not_low :
  forall (chunks : list DiffChunk.t) (report : RiskReport.t),
    In report (analyze chunks) ->
    test flag_i re_authDir (RiskReport.filePath report) = true ->
    (30 <= RiskReport.score report)%Z
    /\ RiskReport.level report <> low
    /\ In (lit "File is in an authentication/authorization directory")
         (RiskReport.reasons report).
Proof.
  intros chunks report Hin Hdir.
  assert (Hfired :
            In (Some (30%Z,
                      lit "File is in an authentication/authorization directory"))
              (rules (RiskReport.filePath report)
                 (filter (of_file (RiskReport.filePath report)) chunks))).
  { left. unfold authDirRule, when. rewrite Hdir. reflexivity. }
  assert (Hok : report_ok report).
  { rewrite (analyze_In chunks report Hin). apply analyzeFile_ok. }
  rewrite (analyze_In chunks report Hin), analyzeFile_eq in *.
  cbn [RiskReport.score RiskReport.reasons RiskReport.level
       RiskReport.filePath] in *.
  pose proof (rules_positive (RiskReport.filePath report)
                (filter (of_file (RiskReport.filePath report)) chunks))
    as Hpos.
  destruct (fired_in_total _ _ _ _ Hpos Hfired eq_refl) as [Hle Hw].
  split; [lia|]. split.
  - destruct Hok as [_ [_ [_ [Hlow _]]]].
    cbn [RiskReport.score RiskReport.level] in Hlow.
    intros Hl. apply Hlow in Hl. lia.
  - destruct (reasonsOf _); [contradiction | exact Hw].
Qed.

Lemma auth_directory_not_low_witness :
  In Ex2.reportAuth (analyze (DiffEngine.parse Ex2.diffAuth))
  /\ test flag_i re_authDir (RiskReport.filePath Ex2.reportAuth) = true
  /\ (30 <= RiskReport.score Ex2.reportAuth)%Z
  /\ RiskReport.level Ex2.reportAuth <> low
  /\ In (lit "File is in an authentication/authorization directory")
       (RiskReport.reasons Ex2.reportAuth).
Proof.
  split; [vm_compute; left; reflexivity|].
  split; [vm_compute; reflexivity|].
  apply (auth_directory_not_low (DiffEngine.parse Ex2.diffAuth)
           Ex2.reportAuth).
  - vm_compute; left; reflexivity.
  - vm_compute; reflexivity.
Defined.

(** X8. No single rule makes a file high risk: a report of level [high]
    lists at least two reasons. *)
Theorem high_needs_two_reasons :
  forall (chunks : list DiffChunk.t) (report : RiskReport.t),
    In report (analyze chunks) ->
    RiskReport.level report = high ->
    2 <= length (RiskReport.reasons report).
Proof.
  intros chunks report Hin Hhigh.
  assert (Hok : report_ok report).
  { rewrite (analyze_In chunks report Hin). apply analyzeFile_ok. }
  destruct Hok as [_ [Hh _]]. apply Hh in Hhigh. clear Hh.
  rewrite (analyze_In chunks report Hin), analyzeFile_eq in *.
  cbn [RiskReport.score RiskReport.reasons RiskReport.filePath] in *.
  set (rs := rules (RiskReport.filePath report)
               (filter (of_file (RiskReport.filePath report)) chunks)) in *.
  pose proof (total_le_reasons rs (rules_positive _ _) (rules_bounded _ _))
    as Hle.
  destruct (reasonsOf rs) as [|w [|w' ws]]; simpl in *; lia.
Qed.

Lemma high_needs_two_reasons_witness :
  In Ex2.reportAuth (analyze (DiffEngine.parse Ex2.diffAuth))
  /\ RiskReport.level Ex2.reportAuth = high
  /\ 2 <= length (RiskReport.reasons Ex2.reportAuth).
Proof.
  split; [vm_compute; left; reflexivity|].
  split; [reflexivity|].
  apply (high_needs_two_reasons (DiffEngine.parse Ex2.diffAuth)
           Ex2.reportAuth).
  - vm_compute; left; reflexivity.
  - reflexivity.
Defined.

(** X9. The report of a file depends on that file's chunks only: two
    inputs with the same chunks for a path give that path the same
    report. *)
Theorem analyze_local :
  forall (chunks chunks' : list DiffChunk.t) (report : RiskReport.t),
    In report (analyze chunks) ->
    filter (of_file (RiskReport.filePath report)) chunks'
    = filter (of_file (RiskReport.filePath report)) chunks ->
    In report (analyze chunks').
Proof.
  intros chunks chunks' report Hin Heq.
  pose proof (analyze_In chunks report Hin) as Hr.
  assert (Hp : In (RiskReport.filePath report)
                 (map DiffChunk.filePath chunks')).
  { assert (Hp0 : In (RiskReport.filePath report)
                    (map DiffChunk.filePath chunks)).
    { apply analyze_path_of_chunk. exact Hin. }
    apply in_map_iff in Hp0. destruct Hp0 as [c [Hc Hcin]].
    assert (Hf : In c (filter (of_file (RiskReport.filePath report)) chunks)).
    { apply filter_In. split; [exact Hcin|].
      unfold of_file. rewrite Hc. apply str_eqb_refl. }
    rewrite <- Heq in Hf. apply filter_In in Hf. destruct Hf as [Hf _].
    apply in_map_iff. exists c. split; [exact Hc | exact Hf]. }
  unfold analyze.
  eapply Permutation_in;
    [apply Permutation_sym, (sort_perm _ RiskReport.score)|].
  unfold reportsUnsorted. rewrite groupByFile_spec, map_map.
  apply in_map_iff. exists (RiskReport.filePath report).
  split; [|apply firstSeen_In; exact Hp].
  unfold fresh. rewrite Heq. symmetry. exact Hr.
Qed.

Lemma analyze_local_witness :
  In Ex2.reportAuth (analyze [Ex2.chunkAuth])
  /\ filter (of_file (RiskReport.filePath Ex2.reportAuth))
       [Ex.chunkLogin; Ex2.chunkAuth]
     = filter (of_file (RiskReport.filePath Ex2.reportAuth))
         [Ex2.chunkAuth]
  /\ In Ex2.reportAuth (analyze [Ex.chunkLogin; Ex2.chunkAuth]).
Proof.
  split; [vm_compute; left; reflexivity|].
  split; [vm_compute; reflexivity|].
  apply (analyze_local [Ex2.chunkAuth] [Ex.chunkLogin; Ex2.chunkAuth]
           Ex2.reportAuth).
  - vm_compute; left; reflexivity.
  - vm_compute; reflexivity.
Defined.
End RiskExtras.

(** ** More on the review orchestrator *)

Section ReviewExtras.
Import ReviewEngine Extension.

(** A result of a review carries the identity of its chunk. *)
Lemma reviewChunk_tags :
  forall (S : Type) (copilot : CopilotService S) (chunk : DiffChunk.t)
         (mode : ReviewMode) (modelId : option jsstring) (st : S)
         (r : ReviewResult.t),
    fst (reviewChunk copilot chunk mode modelId st) = Ret r ->
    ReviewResult.chunkId r = chunkIdOf chunk
    /\ ReviewResult.filePath r = DiffChunk.filePath chunk
    /\ ReviewResult.mode r = mode
    /\ ReviewResult.modelUsed r
       = getModelName copilot
           (snd (ask copilot (buildPrompt mode chunk) modelId st)).
Proof.
  intros S copilot chunk mode modelId st r. unfold reviewChunk.
  destruct (ask copilot (buildPrompt mode chunk) modelId st)
    as [[raw|err] st']; cbn [fst snd].
  - unfold decodeResult.
    destruct (JSON_parse (stripFences raw)) as [parsed|e];
      cbn [bind try_catch];
      [|intros H; injection H as <-; repeat split].
    destruct (get parsed (lit "suggestions")); cbn [bind try_catch];
      [|intros H; injection H as <-; repeat split].
    destruct (get parsed (lit "summary")); cbn [bind try_catch];
      [|intros H; injection H as <-; repeat split].
    destruct (get parsed (lit "riskLevel")); cbn [bind try_catch];
      intros H; injection H as <-; repeat split.
  - destruct (rejectionText err) as [reason|e]; cbn [bind];
      [|discriminate].
    intros H; injection H as <-; repeat split.
Qed.

(** With a call that answers or rejects with a printable value, a
    review returns a result. *)
Lemma reviewChunk_returns :
  forall (S : Type) (copilot : CopilotService S) (chunk : DiffChunk.t)
         (mode : ReviewMode) (modelId : option jsstring) (st : S),
    (forall err : JsThrown,
       fst (ask copilot (buildPrompt mode chunk) modelId st) = Throw err ->
       printable err) ->
    exists r : ReviewResult.t,
      fst (reviewChunk copilot chunk mode modelId st) = Ret r.
Proof.
  intros S copilot chunk mode modelId st Hprint. unfold reviewChunk.
  destruct (ask copilot (buildPrompt mode chunk) modelId st)
    as [[raw|err] st']; cbn [fst] in *.
  - destruct (decodeResult chunk mode raw (getModelName copilot st'));
      cbn [try_catch]; eexists; reflexivity.
  - destruct (Hprint err eq_refl) as [reason Hr]. rewrite Hr.
    eexists; reflexivity.
Qed.

(** X10. [reviewChunk] calls the backend exactly once, whatever it
    does: the state afterwards is the state after that call.  Every
    result it returns names the chunk it was asked about, by the id
    [path:start-end] with the line numbers printed as Numbers, its
    path, the requested mode and the model name read after the call;
    and it returns a result whenever the call answers or rejects with
    a printable value. *)
Theorem reviewChunk_identifies_chunk :
  forall (S : Type) (copilot : CopilotService S) (chunk : DiffChunk.t)
         (mode : ReviewMode) (modelId : option jsstring) (st : S),
    snd (reviewChunk copilot chunk mode modelId st)
    = snd (ask copilot (buildPrompt mode chunk) modelId st)
    /\ (forall r : ReviewResult.t,
          fst (reviewChunk copilot chunk mode modelId st) = Ret r ->
          ReviewResult.chunkId r
          = DiffChunk.filePath chunk ++ lit ":"
            ++ Number_toString (DiffChunk.startLine chunk) ++ lit "-"
            ++ Number_toString (DiffChunk.endLine chunk)
          /\ ReviewResult.filePath r = DiffChunk.filePath chunk
          /\ ReviewResult.mode r = mode
          /\ ReviewResult.modelUsed r
             = getModelName copilot
                 (snd (ask copilot (buildPrompt mode chunk) modelId st)))
    /\ ((forall err : JsThrown,
           fst (ask copilot (buildPrompt mode chunk) modelId st)
           = Throw err ->
           printable err) ->
        exists r : ReviewResult.t,
          fst (reviewChunk copilot chunk mode modelId st) = Ret r).
Proof.
  intros S copilot chunk mode modelId st. split; [|split].
  - unfold reviewChunk.
    destruct (ask copilot (buildPrompt mode chunk) modelId st)
      as [[raw|err] st']; reflexivity.
  - exact (reviewChunk_tags S copilot chunk mode modelId st).
  - exact (reviewChunk_returns S copilot chunk mode modelId st).
Qed.

Lemma get_prop v k :
  match v with
  | JUndefined | JNull => get v k = Throw TypeError
  | _ => get v k = Ret (prop v k)
  end.
Proof.
  destruct v; try reflexivity. cbn [get prop]. unfold Claimed.field.
  destruct (lookup k fields); reflexivity.
Qed.

(** X11. A response that parses, after the fences are stripped, to any
    value but [null] is decoded without a schema check: each of the
    three fields is the parsed value's property, or its default when
    that is missing or [null] (no suggestions, empty summary, risk level
    [low]). *)
Theorem reviewChunk_decodes_with_defaults :
  forall (S : Type) (copilot : CopilotService S) (chunk : DiffChunk.t)
         (mode : ReviewMode) (modelId : option jsstring) (st st' : S)
         (rawResponse : jsstring),
    ask copilot (buildPrompt mode chunk) modelId st = (Ret rawResponse, st') ->
    decodeThrows rawResponse = false ->
    exists (parsed : JsValue) (r : ReviewResult.t),
      JSON_parse (stripFences rawResponse) = Ret parsed
      /\ fst (reviewChunk copilot chunk mode modelId st) = Ret r
      /\ ReviewResult.suggestions r
         = nullish (prop parsed (lit "suggestions")) (JArr [])
      /\ ReviewResult.summary r
         = nullish (prop parsed (lit "summary")) (JStr [])
      /\ ReviewResult.riskLevel r
         = nullish (prop parsed (lit "riskLevel")) (JStr (lit "low")).
Proof.
  intros S copilot chunk mode modelId st st' raw Hask Hd.
  unfold reviewChunk. rewrite Hask. cbn [fst].
  unfold decodeThrows in Hd. unfold decodeResult.
  destruct (JSON_parse (stripFences raw)) as [parsed|e]; [|discriminate].
  exists parsed.
  pose proof (get_prop parsed (lit "suggestions")) as H1.
  pose proof (get_prop parsed (lit "summary")) as H2.
  pose proof (get_prop parsed (lit "riskLevel")) as H3.
  destruct parsed; try discriminate;
    cbn [bind]; rewrite H1; cbn [bind]; rewrite H2; cbn [bind];
    rewrite H3; cbn [bind try_catch];
    eexists; repeat split.
Qed.

Lemma reviewChunk_decodes_with_defaults_witness :
  ask (Ex.constService (Ret Ex.rawNumber))
    (buildPrompt general Ex.chunkPlain) None tt = (Ret Ex.rawNumber, tt)
  /\ decodeThrows Ex.rawNumber = false
  /\ exists (parsed : JsValue) (r : ReviewResult.t),
       JSON_parse (stripFences Ex.rawNumber) = Ret parsed
       /\ fst (reviewChunk (Ex.constService (Ret Ex.rawNumber))
                 Ex.chunkPlain general None tt) = Ret r
       /\ ReviewResult.suggestions r
          = nullish (prop parsed (lit "suggestions")) (JArr [])
       /\ ReviewResult.summary r
          = nullish (prop parsed (lit "summary")) (JStr [])
       /\ ReviewResult.riskLevel r
          = nullish (prop parsed (lit "riskLevel")) (JStr (lit "low")).
Proof.
  split; [reflexivity|].
  split; [vm_compute; reflexivity|].
  apply (reviewChunk_decodes_with_defaults unit
           (Ex.constService (Ret Ex.rawNumber)) Ex.chunkPlain general None
           tt tt Ex.rawNumber).
  - reflexivity.
  - vm_compute; reflexivity.
Defined.





(** A rejection with [null] leaves the loop at the first chunk. *)
Example reviewChunks_stops_on_null :
  fst (reviewChunks Ex.nullService security None []
         [Ex.chunkPlain; Ex.chunkLogin] tt)
  = Throw TypeError.
Proof. reflexivity. Qed.



End ReviewExtras.

(** ** More on the deep analysis *)

Section DeepMore.
Import DeepAnalysisEngine.





(** Sizes *)

Lemma linesOf_app cs cs' : linesOf (cs ++ cs') = linesOf cs + linesOf cs'.
Proof.
  induction cs as [|c cs IH]; cbn [app linesOf fold_right];
    [reflexivity|].
  fold (linesOf (cs ++ cs')). fold (linesOf cs). rewrite IH.
  apply Nat.add_assoc.
Qed.

Lemma fileSizes_add_sized m c :
  fileSizes_add (map sized m) (DiffChunk.filePath c) (chunkLines c)
  = map sized (RiskAnalyzer.fileMap_add m c).
Proof.
  induction m as [|[k cs] m IH]; cbn [map RiskAnalyzer.fileMap_add fileSizes_add].
  - unfold sized; cbn [fst snd linesOf fold_right].
    rewrite Nat.add_0_r. reflexivity.
  - unfold sized at 1; cbn [fst snd].
    destruct (str_eqb k (DiffChunk.filePath c)); cbn [map].
    + unfold sized at 2; cbn [fst snd]. rewrite linesOf_app.
      cbn [linesOf fold_right]. rewrite Nat.add_0_r. reflexivity.
    + rewrite IH. reflexivity.
Qed.

Lemma fileSizesOf_fold chunks :
  forall m,
    fold_left
      (fun acc chunk =>
         fileSizes_add acc (DiffChunk.filePath chunk)
           (length (split_nl (DiffChunk.content chunk))))
      chunks (map sized m)
    = map sized (fold_left RiskAnalyzer.fileMap_add chunks m).
Proof.
  induction chunks as [|c chunks IH]; intros m; cbn [fold_left];
    [reflexivity|].
  change (length (split_nl (DiffChunk.content c))) with (chunkLines c).
  rewrite fileSizes_add_sized. apply IH.
Qed.

(** The size map lists every file once, in first-seen order, with the
    number of lines of its chunks. *)
Lemma fileSizesOf_spec chunks :
  fileSizesOf chunks
  = map (fun p => (p, fileSize chunks p))
      (Claimed.firstSeen (map DiffChunk.filePath chunks)).
Proof.
  unfold fileSizesOf.
  change (@nil (jsstring * nat)) with (map sized []).
  rewrite (fileSizesOf_fold chunks []).
  fold (RiskAnalyzer.groupByFile chunks).
  rewrite groupByFile_spec, map_map. reflexivity.
Qed.

Lemma fileSizes_add_sum m p n :
  fold_left Nat.add (map snd (fileSizes_add m p n)) 0
  = fold_left Nat.add (map snd m) 0 + n.
Proof.
  assert (Hs : forall l a, fold_left Nat.add l a = a + fold_left Nat.add l 0).
  { induction l as [|x l IHl]; intros a; cbn [fold_left];
      [rewrite Nat.add_0_r; reflexivity|].
    rewrite (IHl (a + x)), (IHl (0 + x)). cbn [Nat.add].
    symmetry; apply Nat.add_assoc. }
  induction m as [|[k v] m IH]; cbn [fileSizes_add map snd fold_left].
  - cbn [Nat.add]. reflexivity.
  - destruct (str_eqb k p); cbn [map snd fold_left].
    + cbn [Nat.add]. rewrite (Hs _ (v + n)), (Hs _ v).
      rewrite <- !Nat.add_assoc. f_equal. apply Nat.add_comm.
    + cbn [Nat.add]. rewrite (Hs _ v), IH, (Hs (map snd m) v).
      apply Nat.add_assoc.
Qed.

Lemma fileSizesOf_sum_fold chunks :
  forall m,
    fold_left Nat.add
      (map snd
         (fold_left
            (fun acc chunk =>
               fileSizes_add acc (DiffChunk.filePath chunk)
                 (length (split_nl (DiffChunk.content chunk))))
            chunks m)) 0
    = fold_left Nat.add (map snd m) 0 + linesOf chunks.
Proof.
  induction chunks as [|c chunks IH]; intros m; cbn [fold_left].
  - cbn [linesOf fold_right]. rewrite Nat.add_0_r. reflexivity.
  - rewrite IH, fileSizes_add_sum. cbn [linesOf fold_right].
    fold (linesOf chunks). unfold chunkLines.
    symmetry; apply Nat.add_assoc.
Qed.

Lemma fileSizesOf_sum chunks :
  fold_left Nat.add (map snd (fileSizesOf chunks)) 0 = linesOf chunks.
Proof.
  unfold fileSizesOf. rewrite fileSizesOf_sum_fold. reflexivity.
Qed.

(** [Math.round] of a quotient of counts: the nearest integer. *)
Lemma roundDiv_bounds sum count :
  0 < count ->
  (2 * Z.of_nat sum - Z.of_nat count
   < 2 * Z.of_nat count * roundDiv sum count
   <= 2 * Z.of_nat sum + Z.of_nat count)%Z.
Proof.
  intros Hc. unfold roundDiv.
  set (a := (2 * Z.of_nat sum + Z.of_nat count)%Z).
  set (b := (2 * Z.of_nat count)%Z).
  assert (Hb : (0 < b)%Z) by (unfold b; lia).
  pose proof (Z.mul_div_le a b Hb) as H1.
  pose proof (Z.mul_succ_div_gt a b Hb) as H2.
  unfold a, b in *. lia.
Qed.

Lemma sorted_app_ge {A : Type} (R : A -> A -> Prop) l1 l2 :
  StronglySorted R (l1 ++ l2) ->
  forall x y, In x l1 -> In y l2 -> R x y.
Proof.
  induction l1 as [|a l1 IH]; cbn [app]; intros Hs x y Hx Hy;
    [contradiction|].
  inversion Hs as [|? ? Hs' Ha]; subst.
  destruct Hx as [<-|Hx].
  - rewrite Forall_forall in Ha. apply Ha, in_or_app. right; exact Hy.
  - exact (IH Hs' x y Hx Hy).
Qed.

Lemma firstn_incl {A : Type} n (l : list A) x :
  In x (firstn n l) -> In x l.
Proof.
  intros H. rewrite <- (firstn_skipn n l). apply in_or_app.
  left; exact H.
Qed.

Lemma NoDup_firstn {A : Type} n (l : list A) : NoDup l -> NoDup (firstn n l).
Proof.
  intros H. rewrite <- (firstn_skipn n l) in H.
  apply NoDup_app_remove_r in H. exact H.
Qed.
End DeepMore.

Section DeepExtras.
Import DeepAnalysisEngine.

(** X14.  With a backend that rejects with printable values only (with
    [Error] objects, for instance), [DeepAnalysisEngine.analyze] does
    not throw: it returns a report for the given pull request that
    carries the computed metrics, a quality grade among A, B, C, D and
    F, a complexity score that is NaN or within 0..100, and an array
    of categories whose scores are NaN or within 0..100. *)
Theorem analyze_report_wellformed :
  forall (S : Type) (copilot : CopilotService S) (prNumber : Z)
         (chunks : list DiffChunk.t) (changedFiles : list ChangedFile.t)
         (mode : ReviewMode) (st : S),
    rejects_printably copilot ->
    exists r : InDepthAnalysis.t,
      fst (analyze copilot prNumber chunks changedFiles mode st) = Ret r
      /\ InDepthAnalysis.prNumber r = prNumber
      /\ InDepthAnalysis.metrics r = computeMetrics chunks changedFiles
      /\ In (InDepthAnalysis.qualityGrade r) validGrades
      /\ score_ok (InDepthAnalysis.complexityScore r)
      /\ exists l, InDepthAnalysis.categories r = JArr l
                   /\ Forall category_ok l.
Proof.
  intros S copilot prNumber chunks changedFiles mode st Hprint.
  unfold analyze.
  destruct (ask copilot _ None st) as [[raw|err] st'] eqn:Hask; cbn [fst].
  - destruct (decodeAnalysis prNumber (computeMetrics chunks changedFiles)
                raw (getModelName copilot st')) as [r|e] eqn:E;
      cbn [try_catch].
    + exists r. split; [reflexivity|].
      pose proof (decodeAnalysis_ok _ _ _ _ _ E) as Hok.
      unfold decodeAnalysis in E.
      repeat (apply bind_Ret in E; destruct E as [? [_ E]]).
      injection E as <-.
      split; [reflexivity|]. split; [reflexivity | exact Hok].
    + eexists. split; [reflexivity|].
      cbn. split; [reflexivity|]. split; [reflexivity|].
      split; [tauto|]. split; [right; reflexivity|].
      exists []. split; [reflexivity | constructor].
  - assert (Herr : printable err).
    { eapply Hprint. rewrite Hask. reflexivity. }
    destruct Herr as [error Herror]. rewrite Herror. cbn [bind].
    eexists. split; [reflexivity|].
    cbn. split; [reflexivity|]. split; [reflexivity|].
    split; [tauto|]. split; [right; reflexivity|].
    exists []. split; [reflexivity | constructor].
Qed.

Lemma analyze_report_wellformed_witness :
  rejects_printably Ex.failingService
  /\ exists r : InDepthAnalysis.t,
       fst (analyze Ex.failingService 7 [Ex.chunkPlain] [Ex.testFile]
              security tt) = Ret r
       /\ InDepthAnalysis.prNumber r = 7%Z
       /\ InDepthAnalysis.metrics r
          = computeMetrics [Ex.chunkPlain] [Ex.testFile]
       /\ In (InDepthAnalysis.qualityGrade r) validGrades
       /\ score_ok (InDepthAnalysis.complexityScore r)
       /\ exists l, InDepthAnalysis.categories r = JArr l
                    /\ Forall category_ok l.
Proof.
  assert (H : rejects_printably Ex.failingService).
  { intros prompt modelId st err Herr. cbn in Herr. injection Herr as <-.
    exists (lit "no model"). reflexivity. }
  split; [exact H|].
  apply (analyze_report_wellformed unit Ex.failingService 7 [Ex.chunkPlain]
           [Ex.testFile] security tt H).
Defined.

(** A rejection with [null] makes [analyze] reject with a TypeError. *)
Example analyze_rejects_on_null :
  fst (analyze Ex.nullService 7 [Ex.chunkPlain] [Ex.testFile] security tt)
  = Throw TypeError.
Proof. reflexivity. Qed.

(** X15.  When the backend answers and the answer, fences stripped, is
    not JSON, [DeepAnalysisEngine.analyze] reports the first 500 code
    units of the raw answer as the summary, with complexity 50, grade
    C, no categories and no recommendations, under the name of the
    model that answered. *)
Theorem analyze_keeps_unparsable_answer :
  forall (S : Type) (copilot : CopilotService S) (prNumber : Z)
         (chunks : list DiffChunk.t) (changedFiles : list ChangedFile.t)
         (mode : ReviewMode) (st st' : S) (raw : jsstring) (e : JsThrown),
    ask copilot
      (buildDeepAnalysisPrompt (buildDiffSummary chunks)
         (computeMetrics chunks changedFiles) mode) None st
    = (Ret raw, st') ->
    JSON_parse (stripFences raw) = Throw e ->
    analyze copilot prNumber chunks changedFiles mode st
    = (Ret (InDepthAnalysis.mk prNumber (JStr (firstn 500 raw)) (Fin 50)
              (lit "C") (JArr []) (JArr [])
              (computeMetrics chunks changedFiles)
              (getModelName copilot st')), st').
Proof.
  intros S copilot prNumber chunks changedFiles mode st st' raw e Hask Hp.
  unfold analyze. rewrite Hask. unfold decodeAnalysis. rewrite Hp.
  reflexivity.
Qed.

Lemma analyze_keeps_unparsable_answer_witness :
  analyze (Ex.constService (Ret Ex.rawNotJson)) 7 [Ex.chunkPlain]
    [Ex.testFile] security tt
  = (Ret (InDepthAnalysis.mk 7 (JStr (firstn 500 Ex.rawNotJson)) (Fin 50)
            (lit "C") (JArr []) (JArr [])
            (computeMetrics [Ex.chunkPlain] [Ex.testFile])
            (getModelName (Ex.constService (Ret Ex.rawNotJson)) tt)), tt).
Proof.
  apply (analyze_keeps_unparsable_answer unit
           (Ex.constService (Ret Ex.rawNotJson)) 7 [Ex.chunkPlain]
           [Ex.testFile] security tt tt Ex.rawNotJson
           (match JSON_parse (stripFences Ex.rawNotJson) with
            | Throw e => e
            | Ret _ => AnError TypeError
            end)).
  - reflexivity.
  - vm_compute. reflexivity.
Defined.


(** X17.  The hotspot files of [computeMetrics] are distinct paths of
    the chunks, five of them or all when there are fewer, and no file
    left out has more changed lines than a file listed. *)
Theorem hotspots_are_largest :
  forall (chunks : list DiffChunk.t) (changedFiles : list ChangedFile.t),
    let hs := PRMetrics.hotspotFiles (computeMetrics chunks changedFiles) in
    NoDup hs
    /\ length hs
       = Nat.min 5
           (length (Claimed.firstSeen (map DiffChunk.filePath chunks)))
    /\ (forall h, In h hs ->
          exists c, In c chunks /\ DiffChunk.filePath c = h)
    /\ (forall h c, In h hs -> In c chunks ->
          ~ In (DiffChunk.filePath c) hs ->
          fileSize chunks (DiffChunk.filePath c) <= fileSize chunks h).
Proof.
  intros chunks changedFiles hs. subst hs.
  unfold computeMetrics; cbn [PRMetrics.hotspotFiles].
  change (sort (fun a b : jsstring * nat =>
                  (Z.of_nat (snd b) - Z.of_nat (snd a))%Z))
    with (sort (descending (fun a : jsstring * nat => Z.of_nat (snd a)))).
  set (key := fun a : jsstring * nat => Z.of_nat (snd a)).
  set (fs := Claimed.firstSeen (map DiffChunk.filePath chunks)).
  rewrite fileSizesOf_spec. fold fs.
  set (sizes := map (fun p => (p, fileSize chunks p)) fs).
  set (sorted := sort (descending key) sizes).
  assert (Hperm : Permutation sorted sizes) by apply sort_perm.
  assert (Hsorted : StronglySorted (ge_key key) sorted) by apply sort_sorted.
  assert (Hfst : map fst sizes = fs).
  { unfold sizes. rewrite map_map. cbn [fst]. apply map_id. }
  assert (Hpaths : Permutation (map fst sorted) fs).
  { rewrite <- Hfst. apply Permutation_map, Hperm. }
  assert (Hsize : forall x, In x sorted -> snd x = fileSize chunks (fst x)).
  { intros x Hx. apply (Permutation_in _ Hperm) in Hx. unfold sizes in Hx.
    apply in_map_iff in Hx. destruct Hx as [p [<- _]]. reflexivity. }
  assert (Hnd : NoDup (map fst sorted)).
  { apply (Permutation_NoDup (Permutation_sym Hpaths)).
    apply firstSeen_NoDup. }
  rewrite <- firstn_map.
  split; [apply NoDup_firstn, Hnd|].
  split.
  { rewrite length_firstn, length_map, (Permutation_length Hperm).
    unfold sizes. rewrite length_map. reflexivity. }
  split.
  { intros h Hh. apply firstn_incl in Hh.
    apply (Permutation_in _ Hpaths) in Hh. unfold fs in Hh.
    apply firstSeen_In, in_map_iff in Hh.
    destruct Hh as [c [Hc Hin]]. exists c. split; assumption. }
  intros h c Hh Hc Hout.
  rewrite firstn_map in Hh, Hout.
  apply in_map_iff in Hh. destruct Hh as [x [<- Hx]].
  assert (Hy : In (DiffChunk.filePath c, fileSize chunks (DiffChunk.filePath c))
                 sorted).
  { apply (Permutation_in _ (Permutation_sym Hperm)). unfold sizes.
    apply in_map_iff. exists (DiffChunk.filePath c). split; [reflexivity|].
    unfold fs. apply firstSeen_In, in_map, Hc. }
  rewrite <- (firstn_skipn 5 sorted) in Hy, Hsorted.
  apply in_app_or in Hy. destruct Hy as [Hy|Hy].
  { exfalso. apply Hout. apply in_map_iff. eexists. split; [|exact Hy].
    reflexivity. }
  pose proof (sorted_app_ge _ _ _ Hsorted _ _ Hx Hy) as Hge.
  unfold ge_key, key in Hge. cbn [snd] in Hge.
  rewrite (Hsize x (firstn_incl _ _ _ Hx)) in Hge.
  apply Nat2Z.inj_le. apply Z.ge_le. exact Hge.
Qed.

(** X18.  For a non-empty list of chunks, [avgComplexityPerFile] is
    the number of changed lines divided by the number of distinct
    files, rounded to the nearest integer. *)
Theorem avgComplexity_is_rounded_mean :
  forall (chunks : list DiffChunk.t) (changedFiles : list ChangedFile.t),
    chunks <> [] ->
    let files :=
      Z.of_nat (length (Claimed.firstSeen (map DiffChunk.filePath chunks))) in
    let lines := Z.of_nat (linesOf chunks) in
    let avg :=
      PRMetrics.avgComplexityPerFile (computeMetrics chunks changedFiles) in
    (0 < files
     /\ 2 * lines - files < 2 * files * avg <= 2 * lines + files)%Z.
Proof.
  intros chunks changedFiles Hne files lines avg. subst files lines avg.
  unfold computeMetrics; cbn [PRMetrics.avgComplexityPerFile].
  rewrite fileSizesOf_sum.
  rewrite fileSizesOf_spec, map_map, length_map.
  set (fs := Claimed.firstSeen (map DiffChunk.filePath chunks)).
  assert (Hpos : 0 < length fs).
  { destruct chunks as [|c chunks]; [congruence|].
    destruct fs as [|p fs'] eqn:E; [|cbn [length]; apply Nat.lt_0_succ].
    exfalso.
    assert (Hin : In (DiffChunk.filePath c) fs).
    { unfold fs. apply firstSeen_In. left. reflexivity. }
    rewrite E in Hin. exact Hin. }
  destruct (0 <? length fs) eqn:E;
    [|apply Nat.ltb_ge in E; exfalso; apply (Nat.lt_irrefl 0);
      apply (Nat.lt_le_trans _ _ _ Hpos E)].
  split; [apply (Nat2Z.inj_lt 0), Hpos|].
  apply roundDiv_bounds, Hpos.
Qed.

Lemma avgComplexity_is_rounded_mean_witness :
  (0 < Z.of_nat
         (length
            (Claimed.firstSeen
               (map DiffChunk.filePath [Ex.chunkModify; Ex2.chunkAuth])))
   /\ 2 * Z.of_nat (linesOf [Ex.chunkModify; Ex2.chunkAuth])
      - Z.of_nat
          (length
             (Claimed.firstSeen
                (map DiffChunk.filePath [Ex.chunkModify; Ex2.chunkAuth])))
      < 2 * Z.of_nat
              (length
                 (Claimed.firstSeen
                    (map DiffChunk.filePath
                       [Ex.chunkModify; Ex2.chunkAuth])))
        * PRMetrics.avgComplexityPerFile
            (computeMetrics [Ex.chunkModify; Ex2.chunkAuth] [])
      <= 2 * Z.of_nat (linesOf [Ex.chunkModify; Ex2.chunkAuth])
         + Z.of_nat
             (length
                (Claimed.firstSeen
                   (map DiffChunk.filePath
                      [Ex.chunkModify; Ex2.chunkAuth]))))%Z.
Proof.
  apply (avgComplexity_is_rounded_mean [Ex.chunkModify; Ex2.chunkAuth] []).
  discriminate.
Defined.

Lemma existsb_filter {A : Type} (f : A -> bool) l :
  existsb f l = (0 <? length (filter f l)).
Proof.
  induction l as [|x l IH]; cbn [existsb filter]; [reflexivity|].
  destruct (f x); cbn [orb length]; [reflexivity | exact IH].
Qed.

Lemma ratio_ge (a b t n : nat) :
  0 < b ->
  Qle_bool (Z.of_nat a # Pos.of_nat b)%Q (ratio t n) = true
  <-> (n = 0 /\ a <= b) \/ (0 < n /\ a * n <= b * t).
Proof.
  intros Hb. rewrite Qle_bool_iff. unfold ratio, Qle.
  assert (Hp : forall k, 0 < k -> Zpos (Pos.of_nat k) = Z.of_nat k).
  { intros k Hk. destruct k as [|k]; [inversion Hk|].
    rewrite <- Pos.of_nat_succ, Zpos_P_of_succ_nat, Nat2Z.inj_succ.
    reflexivity. }
  destruct n as [|n].
  - cbn [Nat.ltb Nat.leb Qnum Qden]. rewrite (Hp b Hb). split.
    + intros H. left. split; [reflexivity|]. apply Nat2Z.inj_le.
      rewrite Z.mul_1_r, Z.mul_1_l in H. exact H.
    + intros [[_ H]|[H _]]; [|inversion H].
      rewrite Z.mul_1_r, Z.mul_1_l. apply Nat2Z.inj_le, H.
  - change (0 <? S n) with true. cbn [Qnum Qden].
    rewrite (Hp b Hb), (Hp (S n) (Nat.lt_0_succ n)).
    rewrite <- !Nat2Z.inj_mul, <- Nat2Z.inj_le. split.
    + intros H. right. split; [apply Nat.lt_0_succ|].
      rewrite (Nat.mul_comm b t). exact H.
    + intros [[H _]|[_ H]]; [discriminate|].
      rewrite (Nat.mul_comm t b). exact H.
Qed.

(** X19.  The test-coverage grade of [computeMetrics], in terms of the
    number [t] of changed test files and the number [n] of other
    changed files: [none] only without test files, [excellent] only
    when 4n <= 5t, [good] only when n <= 2t but not 4n <= 5t, and
    [partial] only when 2t < n. *)
Theorem testCoverage_thresholds :
  forall (chunks : list DiffChunk.t) (changedFiles : list ChangedFile.t),
    let t := testCount changedFiles in
    let n := nonTestCount changedFiles in
    match PRMetrics.testCoverage (computeMetrics chunks changedFiles) with
    | none => t = 0
    | excellent => 0 < t /\ 4 * n <= 5 * t
    | good => 0 < t /\ 5 * t < 4 * n /\ n <= 2 * t
    | partial => 0 < t /\ 2 * t < n
    end.
Proof.
  intros chunks changedFiles t n.
  unfold computeMetrics; cbn [PRMetrics.testCoverage]. unfold coverageOf.
  rewrite existsb_filter.
  fold (testCount changedFiles). fold t.
  change (length changedFiles - t) with n.
  destruct (0 <? t) eqn:Et.
  2:{ cbv beta iota. apply Nat.ltb_ge in Et. apply Nat.le_0_r, Et. }
  apply Nat.ltb_lt in Et.
  change (8 # 10)%Q with (Z.of_nat 8 # Pos.of_nat 10)%Q.
  change (5 # 10)%Q with (Z.of_nat 5 # Pos.of_nat 10)%Q.
  destruct (Qle_bool (Z.of_nat 8 # Pos.of_nat 10)%Q (ratio t n)) eqn:E8.
  { apply ratio_ge in E8; [|lia]. cbv beta iota. split; [exact Et | lia]. }
  assert (H8 : ~ ((n = 0 /\ 8 <= 10) \/ (0 < n /\ 8 * n <= 10 * t))).
  { intros H. apply (ratio_ge 8 10 t n) in H; [congruence | lia]. }
  destruct (Qle_bool (Z.of_nat 5 # Pos.of_nat 10)%Q (ratio t n)) eqn:E5.
  { apply ratio_ge in E5; [|lia]. cbv beta iota. split; [exact Et | lia]. }
  assert (H5 : ~ ((n = 0 /\ 5 <= 10) \/ (0 < n /\ 5 * n <= 10 * t))).
  { intros H. apply (ratio_ge 5 10 t n) in H; [congruence | lia]. }
  cbv beta iota. split; [exact Et | lia].
Qed.
End DeepExtras.

Section SummaryExtras.
Import DeepAnalysisEngine.

Lemma totalLength_app a b :
  totalLength (a ++ b) = totalLength a + totalLength b.
Proof.
  induction a as [|x a IH]; cbn [app totalLength fold_right];
    [reflexivity|].
  fold (totalLength (a ++ b)). fold (totalLength a). rewrite IH.
  apply Nat.add_assoc.
Qed.

Lemma summaryParts_spec total chunks :
  forall parts len,
  exists k,
    k <= length chunks
    /\ summaryParts total parts len chunks
       = parts ++ map summaryEntry (firstn k chunks)
         ++ (if k <? length chunks
             then [truncationMarker (total - (length parts + k))]
             else [])
    /\ (len <= 12000 ->
        len + totalLength (map summaryEntry (firstn k chunks)) <= 12000)
    /\ (forall c, nth_error chunks k = Some c ->
          12000 < len + totalLength (map summaryEntry (firstn k chunks))
                  + length (summaryEntry c)).
Proof.
  induction chunks as [|c cs IH]; intros parts len.
  - exists 0. cbn [summaryParts length firstn map app Nat.ltb Nat.leb].
    rewrite app_nil_r. split; [apply Nat.le_refl|].
    split; [reflexivity|]. split.
    + intros H. cbn [totalLength fold_right]. rewrite Nat.add_0_r. exact H.
    + intros c H. discriminate H.
  - cbn [summaryParts].
    destruct (12000 <? len + length (summaryEntry c)) eqn:E.
    + exists 0. cbn [length firstn map app nth_error].
      change (0 <? S (length cs)) with true. cbv beta iota.
      rewrite Nat.add_0_r.
      split; [apply Nat.le_0_l|]. split; [reflexivity|]. split.
      * intros H. cbn [totalLength fold_right]. rewrite Nat.add_0_r.
        exact H.
      * intros c' H. injection H as <-. cbn [totalLength fold_right].
        rewrite Nat.add_0_r. apply Nat.ltb_lt, E.
    + apply Nat.ltb_ge in E.
      destruct (IH (parts ++ [summaryEntry c]) (len + length (summaryEntry c)))
        as [k [Hk [Heq [Hle Hnext]]]].
      exists (S k). cbn [length firstn map nth_error].
      change (S k <? S (length cs)) with (k <? length cs).
      split; [apply le_n_S, Hk|]. split.
      * rewrite Heq, <- app_assoc, length_app. cbn [length app].
        rewrite <- Nat.add_assoc. reflexivity.
      * cbn [totalLength fold_right].
        fold (totalLength (map summaryEntry (firstn k cs))).
        rewrite Nat.add_assoc. split.
        -- intros _. exact (Hle E).
        -- exact Hnext.
Qed.

(** X20.  [buildDiffSummary] joins the entries of the longest prefix
    of the chunks whose entries have at most 12000 code units in
    total; when a chunk is left out, a last part says how many are. *)
Theorem buildDiffSummary_structure :
  forall chunks : list DiffChunk.t,
  exists k,
    k <= length chunks
    /\ buildDiffSummary chunks
       = join nl
           (map summaryEntry (firstn k chunks)
            ++ (if k <? length chunks
                then [truncationMarker (length chunks - k)]
                else []))
    /\ totalLength (map summaryEntry (firstn k chunks)) <= 12000
    /\ (forall c, nth_error chunks k = Some c ->
          12000 < totalLength (map summaryEntry (firstn k chunks))
                  + length (summaryEntry c)).
Proof.
  intros chunks. unfold buildDiffSummary.
  destruct (summaryParts_spec (length chunks) chunks [] 0)
    as [k [Hk [Heq [Hle Hnext]]]].
  exists k. split; [exact Hk|]. split; [rewrite Heq; reflexivity|].
  split; [apply Hle, Nat.le_0_l | exact Hnext].
Qed.
End SummaryExtras.

(** ** Stripping the fences of a response *)

Section FenceFacts.
Variable fl : flags.
Variable k : mstate -> option mstate.

Lemma star_iter_eq st :
  rmatch fl (rStar rSpace) st k
  = star_iter (rmatch fl rSpace) k (length (rest st)) st.
Proof. reflexivity. Qed.

Lemma star_iter_O st : star_iter (rmatch fl rSpace) k 0 st = k st.
Proof. reflexivity. Qed.

Lemma star_iter_S fuel st :
  star_iter (rmatch fl rSpace) k (S fuel) st
  = match
      step_chr is_space st
        (fun st' =>
           if length (rest st') <? length (rest st)
           then star_iter (rmatch fl rSpace) k fuel st'
           else None)
    with
    | Some res => Some res
    | None => k st
    end.
Proof. reflexivity. Qed.

(** The greedy loop over white space stops at the first code unit that
    is not white space when the rest of the pattern matches there. *)
Lemma star_spaces_greedy s :
  forall p cs fuel res,
    length s <= fuel ->
    k (mkState (skipPrev p s) (trimStart s) cs) = Some res ->
    star_iter (rmatch fl rSpace) k fuel (mkState p s cs) = Some res.
Proof.
  induction s as [|c s IH]; intros p cs fuel res Hfuel Hk.
  - cbn [skipPrev trimStart] in Hk.
    destruct fuel; [exact Hk|].
    rewrite star_iter_S. cbn [step_chr rest]. exact Hk.
  - cbn [skipPrev trimStart] in Hk.
    destruct (is_space c) eqn:Ec.
    + destruct fuel as [|fuel]; [inversion Hfuel|].
      rewrite star_iter_S. cbn [step_chr rest caps].
      rewrite Ec. cbn [length].
      replace (length s <? S (length s)) with true
        by (symmetry; apply Nat.ltb_lt, Nat.lt_succ_diag_r).
      rewrite (IH (Some c) cs fuel res (le_S_n _ _ Hfuel) Hk).
      reflexivity.
    + destruct fuel; [exact Hk|].
      rewrite star_iter_S. cbn [step_chr rest]. rewrite Ec. exact Hk.
Qed.

(** The loop fails when the rest of the pattern needs a backquote and
    the first code unit after the white space is none. *)
Lemma star_spaces_fail :
  (forall st, hd_error (rest st) <> Some 96%N -> k st = None) ->
  forall fuel st,
    hd_error (trimStart (rest st)) <> Some 96%N ->
    star_iter (rmatch fl rSpace) k fuel st = None.
Proof.
  intros Hk.
  assert (Hhere : forall st,
             hd_error (trimStart (rest st)) <> Some 96%N -> k st = None).
  { intros st H. apply Hk. destruct (rest st) as [|c s]; [discriminate|].
    cbn [trimStart] in H. destruct (is_space c) eqn:Ec; [|exact H].
    cbn [hd_error]. intros E. injection E as ->. discriminate Ec. }
  induction fuel as [|fuel IH]; intros st H; [exact (Hhere st H)|].
  rewrite star_iter_S. unfold step_chr.
  destruct (rest st) as [|c s] eqn:Er.
  - apply Hhere. rewrite Er. exact H.
  - destruct (is_space c) eqn:Ec.
    + cbn [rest]. destruct (length s <? length (c :: s)).
      * rewrite IH; [apply Hhere; rewrite Er; exact H|].
        cbn [rest]. cbn [trimStart] in H. rewrite Ec in H. exact H.
      * apply Hhere. rewrite Er. exact H.
    + apply Hhere. rewrite Er. exact H.
Qed.
End FenceFacts.

Section TrimFacts.
Lemma trimStart_In (s : jsstring) x : In x (trimStart s) -> In x s.
Proof.
  induction s as [|c s IH]; cbn [trimStart]; [tauto|].
  destruct (is_space c); [intros H; right; exact (IH H) | tauto].
Qed.

Lemma trimStart_head s :
  trimStart s = []
  \/ exists c t, trimStart s = c :: t /\ is_space c = false.
Proof.
  induction s as [|c s IH]; cbn [trimStart]; [left; reflexivity|].
  destruct (is_space c) eqn:Ec; [exact IH|].
  right. exists c, s. split; [reflexivity | exact Ec].
Qed.

Lemma trimStart_fixed c t :
  is_space c = false -> trimStart (c :: t) = c :: t.
Proof. intros E. cbn [trimStart]. rewrite E. reflexivity. Qed.

Lemma trimStart_idem s : trimStart (trimStart s) = trimStart s.
Proof.
  destruct (trimStart_head s) as [->|[c [t [-> E]]]];
    [reflexivity | apply trimStart_fixed, E].
Qed.

Lemma trimStart_spaces s :
  exists v, s = v ++ trimStart s /\ forallb is_space v = true.
Proof.
  induction s as [|c s [v [Hv Hs]]]; cbn [trimStart].
  - exists []. split; reflexivity.
  - destruct (is_space c) eqn:Ec.
    + exists (c :: v). cbn [app forallb]. rewrite Ec, Hs.
      split; [f_equal; exact Hv | reflexivity].
    + exists []. split; reflexivity.
Qed.

Lemma trimStart_app_spaces v t :
  forallb is_space v = true -> trimStart (v ++ t) = trimStart t.
Proof.
  induction v as [|c v IH]; cbn [app forallb trimStart]; [reflexivity|].
  intros H. apply andb_prop in H. destruct H as [-> H]. exact (IH H).
Qed.

Lemma forallb_rev {A : Type} (f : A -> bool) l :
  forallb f (rev l) = forallb f l.
Proof.
  induction l as [|x l IH]; cbn [rev forallb]; [reflexivity|].
  rewrite forallb_app, IH. cbn [forallb]. rewrite andb_true_r.
  apply andb_comm.
Qed.

Lemma trimStart_app_nonspace (x : jsstring) c t :
  is_space c = false -> trimStart (x ++ c :: t) = trimStart x ++ c :: t.
Proof.
  intros E. induction x as [|y x IH]; cbn [app trimStart].
  - rewrite E. reflexivity.
  - destruct (is_space y); [exact IH | reflexivity].
Qed.

Lemma ends_nonspace_last l c :
  ends_nonspace (l ++ [c]) = negb (is_space c).
Proof.
  induction l as [|x l IH]; cbn [app ends_nonspace]; [reflexivity|].
  destruct (l ++ [c]) as [|y l'] eqn:E; [|exact IH].
  destruct l; discriminate E.
Qed.

Lemma ends_nonspace_tail x u :
  u <> [] -> ends_nonspace (x :: u) = true -> ends_nonspace u = true.
Proof.
  intros Hne H. cbn [ends_nonspace] in H.
  destruct u as [|y u]; [congruence | exact H].
Qed.

Lemma ends_nonspace_head u t :
  u <> [] -> ends_nonspace u = true ->
  exists y, hd_error (trimStart (u ++ t)) = Some y /\ In y u.
Proof.
  induction u as [|c u IH]; intros Hne H; [congruence|].
  destruct u as [|d u].
  - cbn [ends_nonspace] in H. apply negb_true_iff in H.
    cbn [app]. rewrite (trimStart_fixed c t H). exists c.
    split; [reflexivity | left; reflexivity].
  - cbn [app trimStart]. destruct (is_space c).
    + assert (Hne' : d :: u <> []) by discriminate.
      destruct (IH Hne' (ends_nonspace_tail c (d :: u) Hne' H))
        as [y [Hy Hin]].
      exists y. split; [exact Hy | right; exact Hin].
    + exists c. split; [reflexivity | left; reflexivity].
Qed.

(** What [trimEnd] removes is white space, and what it leaves does not
    end in white space. *)
Lemma trimEnd_spaces w :
  exists v,
    w = trimEnd w ++ v /\ forallb is_space v = true
    /\ ends_nonspace (trimEnd w) = true.
Proof.
  unfold trimEnd. destruct (trimStart_spaces (rev w)) as [v [Hv Hs]].
  exists (rev v). split; [|split].
  - rewrite <- rev_app_distr, <- Hv, rev_involutive. reflexivity.
  - rewrite forallb_rev. exact Hs.
  - destruct (trimStart_head (rev w)) as [->|[c [t [-> E]]]];
      [reflexivity|].
    cbn [rev]. rewrite ends_nonspace_last, E. reflexivity.
Qed.

Lemma trimEnd_idem s : trimEnd (trimEnd s) = trimEnd s.
Proof.
  unfold trimEnd. rewrite rev_involutive, trimStart_idem. reflexivity.
Qed.

Lemma trimEnd_In (s : jsstring) x : In x (trimEnd s) -> In x s.
Proof.
  unfold trimEnd. intros H. apply in_rev in H.
  apply trimStart_In in H. apply in_rev in H. exact H.
Qed.

Lemma trimEnd_app_space (s : jsstring) c :
  is_space c = true -> trimEnd (s ++ [c]) = trimEnd s.
Proof.
  intros E. unfold trimEnd. rewrite rev_app_distr. cbn [rev app trimStart].
  rewrite E. reflexivity.
Qed.

(** Trimming the end of a string that starts with something other
    than white space leaves its start alone. *)
Lemma trimStart_trimEnd s :
  trimStart (trimEnd (trimStart s)) = trimEnd (trimStart s).
Proof.
  destruct (trimStart_head s) as [->|[c [t [E Ec]]]]; [reflexivity|].
  rewrite E.
  destruct (trimEnd_spaces (c :: t)) as [v [Hv [Hs Hn]]].
  destruct (trimEnd (c :: t)) as [|d u] eqn:Eu; [reflexivity|].
  cbn [app] in Hv. injection Hv as <- _.
  apply trimStart_fixed, Ec.
Qed.

Lemma trim_idem s : trim (trim s) = trim s.
Proof.
  unfold trim. rewrite trimStart_trimEnd, trimEnd_idem. reflexivity.
Qed.

Lemma trim_app_space (s : jsstring) c : is_space c = true -> trim (s ++ [c]) = trim s.
Proof.
  intros E. unfold trim.
  destruct (trimStart_spaces s) as [v [Hv Hs]].
  destruct (trimStart_head s) as [E0|[d [t [E0 Ed]]]].
  - rewrite E0 in *. rewrite app_nil_r in Hv. subst v.
    rewrite (trimStart_app_spaces s [c] Hs). cbn [trimStart].
    rewrite E. reflexivity.
  - rewrite Hv at 1. rewrite <- app_assoc, (trimStart_app_spaces _ _ Hs).
    rewrite E0. cbn [app]. rewrite (trimStart_fixed d (t ++ [c]) Ed).
    exact (trimEnd_app_space (d :: t) c E).
Qed.
End TrimFacts.

Section FenceSearch.
Lemma closeTail_needs_tick st :
  hd_error (rest st) <> Some 96%N -> closeTail st = None.
Proof.
  intros H. unfold closeTail.
  change (rLit "```")
    with (rSeq (rChr 96%N) (rSeq (rChr 96%N) (rChr 96%N))).
  cbn [rmatch]. unfold step_chr at 1.
  destruct (rest st) as [|x xs]; [reflexivity|].
  unfold chr_matches, cu_eqb. cbn [ignoreCase flag_m].
  destruct (N.eqb_spec 96 x) as [<-|Hne]; [|reflexivity].
  exfalso. apply H. reflexivity.
Qed.

Lemma closeTail_ticks p cs :
  exists st, closeTail (mkState p ticks cs) = Some st /\ rest st = [].
Proof. eexists. split; [vm_compute; reflexivity | reflexivity]. Qed.

Lemma match_close_eq p s :
  match_here flag_m re_fenceClose p s
  = star_iter (rmatch flag_m rSpace) closeTail (length s) (mkState p s []).
Proof. reflexivity. Qed.

Lemma match_close_none p (s : jsstring) :
  hd_error (trimStart s) <> Some 96%N ->
  match_here flag_m re_fenceClose p s = None.
Proof.
  intros H. rewrite match_close_eq.
  apply star_spaces_fail; [exact closeTail_needs_tick | exact H].
Qed.

Lemma match_open_none p (s : jsstring) :
  hd_error s <> Some 96%N -> match_here flag_m re_fenceOpen p s = None.
Proof.
  intros H. unfold match_here, re_fenceOpen. cbn [rSeqs rmatch].
  destruct (at_bol flag_m _); [|reflexivity].
  change (rLit "```")
    with (rSeq (rChr 96%N) (rSeq (rChr 96%N) (rChr 96%N))).
  cbn [rmatch]. unfold step_chr at 1. cbn [rest].
  destruct s as [|x xs]; [reflexivity|].
  unfold chr_matches, cu_eqb. cbn [ignoreCase flag_m].
  destruct (N.eqb_spec 96 x) as [<-|Hne]; [|reflexivity].
  exfalso. apply H. reflexivity.
Qed.

Lemma no_tick_head (s : jsstring) : ~ In 96%N s -> hd_error s <> Some 96%N.
Proof.
  destruct s as [|x s]; [discriminate|].
  intros H E. injection E as ->. apply H. left. reflexivity.
Qed.

Lemma rsearch_none r :
  (forall p (s : jsstring),
      ~ In 96%N s -> match_here flag_m r p s = None) ->
  forall (s : jsstring) skipped p,
    ~ In 96%N s -> rsearch flag_m r skipped p s = None.
Proof.
  intros Hr. induction s as [|x s IH]; intros skipped p H;
    cbn [rsearch]; rewrite (Hr _ _ H); [reflexivity|].
  apply IH. intros Hin. apply H. right. exact Hin.
Qed.

Lemma replace_open_none (s : jsstring) :
  ~ In 96%N s -> replace_first flag_m re_fenceOpen s = s.
Proof.
  intros H. unfold replace_first. rewrite rsearch_none; [reflexivity| |exact H].
  intros p s' H'. apply match_open_none, no_tick_head, H'.
Qed.

Lemma replace_close_none (s : jsstring) :
  ~ In 96%N s -> replace_first flag_m re_fenceClose s = s.
Proof.
  intros H. unfold replace_first. rewrite rsearch_none; [reflexivity| |exact H].
  intros p s' H'. apply match_close_none, no_tick_head.
  intros Hin. apply H'. apply trimStart_In, Hin.
Qed.

(** The closing fence is found where the white space before it
    starts. *)
Lemma rsearch_close (u v : jsstring) :
  forallb is_space v = true ->
  ~ In 96%N u -> ends_nonspace u = true ->
  forall skipped p,
  exists st,
    rsearch flag_m re_fenceClose skipped p (u ++ v ++ ticks)
    = Some (rev skipped ++ u, st)
    /\ rest st = [].
Proof.
  intros Hv. induction u as [|x u IH]; intros Hu Hn skipped p.
  - cbn [app]. destruct (closeTail_ticks (skipPrev p (v ++ ticks)) [])
      as [st [Hst Hrest]].
    exists st. split; [|exact Hrest].
    assert (Hm : match_here flag_m re_fenceClose p (v ++ ticks) = Some st).
    { rewrite match_close_eq. apply star_spaces_greedy; [apply Nat.le_refl|].
      rewrite (trimStart_app_spaces v ticks Hv).
      exact Hst. }
    destruct (v ++ ticks); cbn [rsearch]; rewrite Hm, app_nil_r;
      reflexivity.
  - assert (Hm : match_here flag_m re_fenceClose p ((x :: u) ++ v ++ ticks)
                 = None).
    { apply match_close_none.
      assert (Hne : x :: u <> []) by discriminate.
      destruct (ends_nonspace_head (x :: u) (v ++ ticks) Hne Hn)
        as [y [Hy Hin]].
      intros E. pose proof (eq_trans (eq_sym Hy) E) as E'.
      injection E' as ->. exact (Hu Hin). }
    cbn [app rsearch] in *. rewrite Hm.
    assert (Hu' : ~ In 96%N u) by (intros Hin; apply Hu; right; exact Hin).
    assert (Hn' : ends_nonspace u = true).
    { destruct u as [|d u]; [reflexivity|].
      apply (ends_nonspace_tail x (d :: u)); [discriminate | exact Hn]. }
    destruct (IH Hu' Hn' (x :: skipped) (Some x)) as [st [Hst Hrest]].
    exists st. split; [|exact Hrest].
    eapply eq_trans; [exact Hst|].
    cbn [rev]. rewrite <- app_assoc. reflexivity.
Qed.

Lemma replace_close_fenced (w : jsstring) :
  ~ In 96%N w ->
  replace_first flag_m re_fenceClose (w ++ ticks) = trimEnd w.
Proof.
  intros Hw. destruct (trimEnd_spaces w) as [v [Hv [Hs Hn]]].
  assert (Hu : ~ In 96%N (trimEnd w)).
  { intros Hin. apply Hw, trimEnd_In, Hin. }
  destruct (rsearch_close (trimEnd w) v Hs Hu Hn [] None)
    as [st [Hst Hrest]].
  unfold replace_first. rewrite Hv at 1. rewrite <- app_assoc, Hst, Hrest.
  cbn [rev app]. apply app_nil_r.
Qed.

(** The opening fence up to its white space, without and with the
    language tag, for any rest [K] of the pattern. *)
Lemma open_steps_plain (K : mstate -> option mstate) (t : jsstring) :
  rmatch flag_m rBol (mkState None (ticks ++ [] ++ nl ++ t) [])
    (fun st1 =>
       rmatch flag_m (rLit "```") st1
         (fun st2 => rmatch flag_m (rOpt (rLit "json")) st2 K))
  = K (mkState (Some 96%N) (nl ++ t) []).
Proof. reflexivity. Qed.

Lemma open_steps_json (K : mstate -> option mstate) (t : jsstring) :
  rmatch flag_m rBol (mkState None (ticks ++ lit "json" ++ nl ++ t) [])
    (fun st1 =>
       rmatch flag_m (rLit "```") st1
         (fun st2 => rmatch flag_m (rOpt (rLit "json")) st2 K))
  = match K (mkState (Some 110%N) (nl ++ t) []) with
    | Some res => Some res
    | None => K (mkState (Some 96%N) (lit "json" ++ nl ++ t) [])
    end.
Proof. reflexivity. Qed.

Lemma match_open_eq (s : jsstring) :
  match_here flag_m re_fenceOpen None s
  = rmatch flag_m rBol (mkState None s [])
      (fun st1 =>
         rmatch flag_m (rLit "```") st1
           (fun st2 =>
              rmatch flag_m (rOpt (rLit "json")) st2
                (fun st3 =>
                   star_iter (rmatch flag_m rSpace) Some
                     (length (rest st3)) st3))).
Proof. reflexivity. Qed.

Lemma spaces_then_done p (t : jsstring) :
  exists st,
    star_iter (rmatch flag_m rSpace) Some (length (nl ++ t))
      (mkState p (nl ++ t) [])
    = Some st
    /\ rest st = trimStart t.
Proof.
  eexists. split.
  - apply star_spaces_greedy; [apply Nat.le_refl | reflexivity].
  - reflexivity.
Qed.

(** The opening fence, with or without its language tag, is removed
    together with the white space after it. *)
Lemma replace_open_fenced lang (t : jsstring) :
  lang = [] \/ lang = lit "json" ->
  replace_first flag_m re_fenceOpen (ticks ++ lang ++ nl ++ t)
  = trimStart t.
Proof.
  intros Hlang. unfold replace_first.
  assert (Hm : exists st,
             match_here flag_m re_fenceOpen None
               (ticks ++ lang ++ nl ++ t) = Some st
             /\ rest st = trimStart t).
  { rewrite match_open_eq. destruct Hlang as [->| ->].
    - rewrite open_steps_plain. cbn [rest]. apply spaces_then_done.
    - rewrite open_steps_json. cbn [rest].
      destruct (spaces_then_done (Some 110%N) t) as [st [Hst Hrest]].
      exists st. rewrite Hst. split; [reflexivity | exact Hrest]. }
  destruct Hm as [st [Hst Hrest]].
  assert (Hs : rsearch flag_m re_fenceOpen [] None (ticks ++ lang ++ nl ++ t)
               = Some ([], st)).
  { destruct (ticks ++ lang ++ nl ++ t); cbn [rsearch]; rewrite Hst;
      reflexivity. }
  rewrite Hs, Hrest. reflexivity.
Qed.
End FenceSearch.

Section FenceExtras.
(** X21.  A response without a backquote loses nothing but the white
    space at its ends: [stripFences] is [trim] on it. *)
Theorem stripFences_without_backquote :
  forall raw : jsstring, ~ In 96%N raw -> stripFences raw = trim raw.
Proof.
  intros raw H. unfold stripFences.
  rewrite (replace_open_none raw H), (replace_close_none raw H).
  reflexivity.
Qed.

Lemma stripFences_without_backquote_witness :
  stripFences Ex.rawNotJson = trim Ex.rawNotJson.
Proof.
  apply (stripFences_without_backquote Ex.rawNotJson).
  intros H. vm_compute in H.
  repeat (destruct H as [H|H]; [discriminate H|]). exact H.
Defined.

(** X22.  A response wrapped in a fence, with or without the [json]
    tag, whose body holds no backquote is unwrapped: [stripFences]
    gives the body without the white space at its ends. *)
Theorem stripFences_unwraps_fence :
  forall lang body : jsstring,
    lang = [] \/ lang = lit "json" ->
    ~ In 96%N body ->
    stripFences (fenced lang body) = trim body.
Proof.
  intros lang body Hlang Hbody. unfold stripFences, fenced.
  rewrite (replace_open_fenced lang (body ++ nl ++ ticks) Hlang).
  assert (Hsplit : trimStart (body ++ nl ++ ticks)
                   = trimStart (body ++ nl) ++ ticks).
  { rewrite app_assoc.
    exact (trimStart_app_nonspace (body ++ nl) 96%N [96%N; 96%N]
             eq_refl). }
  rewrite Hsplit.
  assert (Hw : ~ In 96%N (trimStart (body ++ nl))).
  { intros Hin. apply trimStart_In, in_app_or in Hin.
    destruct Hin as [Hin|[Hin|[]]]; [exact (Hbody Hin) | discriminate Hin]. }
  rewrite (replace_close_fenced _ Hw).
  fold (trim (body ++ nl)). rewrite trim_idem.
  exact (trim_app_space body 10%N eq_refl).
Qed.

Lemma stripFences_unwraps_fence_witness :
  stripFences (fenced (lit "json") (qlit "{'summary': 'ok'}"))
  = trim (qlit "{'summary': 'ok'}").
Proof.
  apply (stripFences_unwraps_fence (lit "json") (qlit "{'summary': 'ok'}")).
  - right. reflexivity.
  - intros H. vm_compute in H.
    repeat (destruct H as [H|H]; [discriminate H|]). exact H.
Defined.
End FenceExtras.
